(** * statly-go: the batching delivery pipeline and the secret scrubber

    A shallow embedding of the Go packages [statly] (events, HTTP transport,
    client, package-level capture calls) and [statly/logger] (entries,
    scrubber, Observe destination), with the properties of the delivery
    pipeline stated and proved over it.

    Conventions.
    - Go [string] is [string] (a byte sequence); the regular expressions read
      it one byte per character, which is Go's reading of ASCII text. Go
      [int] and [int64] are [Z].
    - Go [float64] is the kernel's binary64 [float].
    - [map[string]T] is [gmap string T]; [map[string]bool] holding only [true]
      is [gset string].
    - A buffered channel is the list of its pending elements (head = oldest)
      with its capacity; [close(ch)] on a closed channel panics.
    - Library functions the code calls are modelled where the code's
      behaviour depends on them: [regexp] (leftmost-first matching and
      [ReplaceAllString]), [encoding/json] (struct tags, [omitempty], nil
      slices and maps, values it refuses); [strings.ToLower] and [url.Parse]
      are interface fields ([StringsPkg], [UrlPkg]). *)

From Stdlib Require Import ZArith List String Ascii Bool Lia Floats.
From stdpp Require Import base option list gmap strings fin_maps.
Import ListNotations.

Local Open Scope Z_scope.
Local Open Scope string_scope.
Local Open Scope list_scope.

(* ===================================================================== *)
(** ** Go runtime *)
(* ===================================================================== *)

(** A call either returns or panics. *)
Inductive result (A : Type) : Type :=
| Returned (a : A)
| Panicked (msg : string).
Arguments Returned {A} a.
Arguments Panicked {A} msg.

Definition and_then {A B} (r : result A) (k : A -> result B) : result B :=
  match r with
  | Returned a => k a
  | Panicked msg => Panicked msg
  end.

Notation "x <- r ;; k" := (and_then r (fun x => k))
  (at level 100, r at next level, right associativity).

(** [strings.ToLower], as the code uses it on map keys; it maps the empty
    string to itself. *)
Class StringsPkg : Type := {
  ToLower : string -> string;
  ToLower_empty : ToLower EmptyString = EmptyString
}.

Definition is_upper (a : ascii) : bool :=
  let n := N_of_ascii a in ((65 <=? n) && (n <=? 90))%N.

Definition lower_ascii (a : ascii) : ascii :=
  if is_upper a then ascii_of_N (N_of_ascii a + 32) else a.

(** [strings.ToLower] on ASCII text: A-Z are mapped to a-z, every other byte
    is kept. *)
Fixpoint ascii_ToLower (s : string) : string :=
  match s with
  | EmptyString => EmptyString
  | String a s' => String (lower_ascii a) (ascii_ToLower s')
  end.

#[global] Instance ascii_strings : StringsPkg :=
  {| ToLower := ascii_ToLower; ToLower_empty := eq_refl |}.

(** [url.Parse], as the code uses it: the scheme and the host of the URL a
    string is parsed to, or an error ([None]). [http.NewRequest] with the
    method POST returns an error, and a nil request, exactly when [url.Parse]
    of its URL does. *)
Class UrlPkg : Type := {
  url_Parse : string -> option (string * string)
}.

(** [make([]T, 0, cap)] for a pointer type [T] panics when the capacity is
    negative or its eight bytes an element exceed [maxAlloc], the 2^48 bytes
    the runtime can address on a 64-bit platform. An allocation within these
    bounds is taken to succeed. *)
Definition maxAlloc : Z := 2 ^ 48.

Definition makeslice_panics (cap : Z) : bool := ((cap <? 0) || (maxAlloc <? 8 * cap))%Z.

(** Values of type [interface{}] as a type switch on [nil], [string],
    [[]interface{}] and [map[string]interface{}] sees them. A slice or a map
    held in an interface is nil or not: the type switch enters the same case
    for both, and [encoding/json] writes the nil one as null. Every other
    dynamic type is an [other]: scalars, typed containers, and values that
    [encoding/json] cannot marshal (channels, functions). *)
Inductive other : Type :=
| OBool (b : bool)
| OInt (n : Z)
| OFloat (f : float)
| OStrings (l : list string)              (* a []string that is not nil *)
| OStringMap (m : gmap string string)     (* a map[string]string that is not nil *)
| OSource (file : string) (line : Z) (function : string)
                                          (* a *Source of the logger that is not nil *)
| ONil                                    (* a nil slice, map or pointer of such a type *)
| OUnsupported.                           (* chan, func, complex *)

#[warnings="-register-all"]
Inductive value : Type :=
| VNil                                    (* the nil interface *)
| VString (s : string)
| VList (l : list value)                  (* a []interface{} that is not nil *)
| VMap (m : gmap string value)            (* a map[string]interface{} that is not nil *)
| VNilList                                (* []interface{}(nil) *)
| VNilMap                                 (* map[string]interface{}(nil) *)
| VOther (o : other).

(** [time.Time] as an instant: nanoseconds since the Unix epoch. *)
Definition Time : Type := Z.

Definition UnixMilli (t : Time) : Z := t / 1000000.

(** The layouts the code formats instants with. *)
Inductive layout : Type :=
| RFC3339
| RFC3339Nano.

(** [Time.MarshalJSON] returns an error for a year outside 0..9999. *)
Definition year_in_range (t : Time) : bool :=
  ((-62167219200 * 1000000000 <=? t) && (t <? 253402300800 * 1000000000))%Z.

(** The zero [time.Time], January 1 of year 1, 00:00:00 UTC, and
    [Time.IsZero]. *)
Definition zero_Time : Time := -62135596800 * 1000000000.

Definition IsZero (t : Time) : bool := (t =? zero_Time)%Z.

(** [os.Getenv]: the value of a variable, the empty string when it is not
    set. *)
Definition Env : Type := string -> string.

(** [s[n:]] and [s[:n]] on a string, for [n] within its length. *)
Fixpoint string_drop (n : nat) (s : string) : string :=
  match n, s with
  | O, _ => s
  | S n', String _ s' => string_drop n' s'
  | S _, EmptyString => EmptyString
  end.

Fixpoint string_take (n : nat) (s : string) : string :=
  match n, s with
  | O, _ => EmptyString
  | S n', String a s' => String a (string_take n' s')
  | S _, EmptyString => EmptyString
  end.

(** [strings.LastIndex(s, c)] for a one-byte [c]: the index of its last
    occurrence, [-1] when there is none. [last_index_from] scans from index
    [i] with [found] the last occurrence seen so far. *)
Fixpoint last_index_from (s : string) (c : ascii) (i found : Z) : Z :=
  match s with
  | EmptyString => found
  | String a s' => last_index_from s' c (i + 1) (if Ascii.eqb a c then i else found)
  end.

Definition LastIndex (s : string) (c : ascii) : Z := last_index_from s c 0 (-1).

(** A non-blocking send on a buffered channel of capacity [cap] with no
    receiver waiting: the [case ch <- x] of a [select] with a [default]. *)
Definition chan_full {A} (cap : nat) (q : list A) : bool := (cap <=? List.length q)%nat.

Definition try_send {A} (cap : nat) (q : list A) (x : A) : bool * list A :=
  if chan_full cap q then (false, q) else (true, q ++ [x]).

(** Non-blocking sends of [xs] in turn, with nothing received in between. *)
Fixpoint offer_all {A} (cap : nat) (q : list A) (xs : list A) : list bool * list A :=
  match xs with
  | [] => ([], q)
  | x :: xs' =>
      let r := try_send cap q x in
      let rs := offer_all cap (snd r) xs' in
      (fst r :: fst rs, snd rs)
  end.

(** The case a [select] of a worker goroutine proceeds with. *)
Inductive wake : Type :=
| OnQueue     (* case x := <-queue *)
| OnTimer     (* case <-ticker.C, case <-timer.C *)
| OnDone.     (* case <-done *)

(* ===================================================================== *)
(** ** Package encoding/json: the document a value is marshalled to *)
(* ===================================================================== *)

Module Json.

#[warnings="-register-all"]
Inductive json : Type :=
| JNull
| JBool (b : bool)
| JNumber (n : Z)
| JFloat (f : float)
| JString (s : string)
| JTime (l : layout) (t : Time)   (* the string [t.Format(l)] *)
| JArray (l : list json)
| JObject (m : gmap string json).

Definition is_empty_string (s : string) : bool :=
  match s with EmptyString => true | String _ _ => false end.

(** [json.Marshal] returns an error on a value it does not support. *)
Definition marshalable_other (o : other) : bool :=
  match o with
  | OUnsupported => false
  | OFloat f => PrimFloat.is_finite f
  | _ => true
  end.

Fixpoint marshalable (v : value) : bool :=
  match v with
  | VNil | VString _ | VNilList | VNilMap => true
  | VList l => forallb marshalable l
  | VMap m => map_fold (fun _ x acc => marshalable x && acc) true m
  | VOther o => marshalable_other o
  end.

(** A struct field with tag [json:name], and one with [json:name,omitempty],
    which is left out when the field holds the empty value of its type. *)
Definition field (name : string) (v : json) : gmap string json := {[ name := v ]}.

Definition field_omitempty (name : string) (is_empty : bool) (v : json) : gmap string json :=
  if is_empty then ∅ else {[ name := v ]}.

Definition string_omitempty (name s : string) : gmap string json :=
  field_omitempty name (is_empty_string s) (JString s).

Definition int_omitempty (name : string) (n : Z) : gmap string json :=
  field_omitempty name (n =? 0)%Z (JNumber n).

(** A struct's object: its fields have pairwise distinct names. *)
Definition object (fields : list (gmap string json)) : json := JObject (⋃ fields).

Definition of_strings (m : gmap string string) : json := JObject (JString <$> m).

(** The document of a value; for a [*Source] the struct's, with its tags
    (file, line and function, each [omitempty]). *)
Definition of_other (o : other) : json :=
  match o with
  | OBool b => JBool b
  | OInt n => JNumber n
  | OFloat f => JFloat f
  | OStrings l => JArray (JString <$> l)
  | OStringMap m => of_strings m
  | OSource file line function =>
      object [ string_omitempty "file" file;
               int_omitempty "line" line;
               string_omitempty "function" function ]
  | ONil => JNull
  | OUnsupported => JNull
  end.

Fixpoint of_value (v : value) : json :=
  match v with
  | VNil => JNull
  | VString s => JString s
  | VList l => JArray (map of_value l)
  | VMap m => JObject (of_value <$> m)
  | VNilList | VNilMap => JNull
  | VOther o => of_other o
  end.

Definition of_values (m : gmap string value) : json := JObject (of_value <$> m).

Definition values_omitempty (name : string) (m : gmap string value) : gmap string json :=
  field_omitempty name (Nat.eqb (size m) 0) (of_values m).

Definition strings_omitempty (name : string) (m : gmap string string) : gmap string json :=
  field_omitempty name (Nat.eqb (size m) 0) (of_strings m).

Definition pointer_omitempty {A} (name : string) (enc : A -> json) (p : option A)
  : gmap string json :=
  match p with
  | None => ∅
  | Some x => {[ name := enc x ]}
  end.

Definition slice_omitempty {A} (name : string) (enc : A -> json) (l : list A)
  : gmap string json :=
  field_omitempty name (Nat.eqb (List.length l) 0) (JArray (enc <$> l)).

(** A slice field without [omitempty]: a nil slice is written as null. *)
Definition of_slice {A} (enc : A -> json) (l : option (list A)) : json :=
  match l with
  | None => JNull
  | Some l => JArray (enc <$> l)
  end.

(** Field access on a document. *)
Definition get (name : string) (doc : json) : option json :=
  match doc with
  | JObject m => m !! name
  | _ => None
  end.


End Json.

(* ===================================================================== *)
(** ** Package regexp: leftmost-first matching, ReplaceAllString *)
(* ===================================================================== *)

Module Regex.

(** The fragment of RE2 syntax the scrub patterns are written in. *)
Inductive re : Type :=
| Empty                         (* the empty string *)
| Class (p : ascii -> bool)     (* one character of a class *)
| Seq (r1 r2 : re)              (* r1r2 *)
| Alt (r1 r2 : re)              (* r1|r2, r1 preferred *)
| Star (r : re)                 (* r*, greedy *)
| StarLazy (r : re)             (* r*?, non-greedy *)
| WordBoundary.                 (* \b, ASCII *)

(** A position in the subject: the character before it, and what follows. *)
Definition pos : Type := option ascii * list ascii.

Definition is_word_char (a : ascii) : bool :=
  let n := N_of_ascii a in
  (((48 <=? n) && (n <=? 57)) || ((65 <=? n) && (n <=? 90))
   || ((97 <=? n) && (n <=? 122)) || (n =? 95))%N.

Definition word_before (p : pos) : bool :=
  match fst p with Some a => is_word_char a | None => false end.

Definition word_after (p : pos) : bool :=
  match snd p with a :: _ => is_word_char a | [] => false end.

Definition at_word_boundary (p : pos) : bool := xorb (word_before p) (word_after p).

Definition shorter (q p : pos) : bool :=
  (List.length (snd q) <? List.length (snd p))%nat.

(** Backtracking search in priority order: [exec r k p] is the first way, in
    the order a backtracking matcher tries them, to match [r] at [p] and then
    satisfy the continuation [k]. An iteration of a star that consumes nothing
    is not taken. *)
Fixpoint exec (r : re) (k : pos -> option pos) (p : pos) {struct r} : option pos :=
  match r with
  | Empty => k p
  | Class c =>
      match snd p with
      | a :: t => if c a then k (Some a, t) else None
      | [] => None
      end
  | Seq r1 r2 => exec r1 (exec r2 k) p
  | Alt r1 r2 =>
      match exec r1 k p with
      | Some q => Some q
      | None => exec r2 k p
      end
  | Star r1 =>
      (fix loop (fuel : nat) (p : pos) {struct fuel} : option pos :=
         match fuel with
         | O => k p
         | S fuel' =>
             match exec r1 (fun q => if shorter q p then loop fuel' q else None) p with
             | Some q => Some q
             | None => k p
             end
         end) (List.length (snd p)) p
  | StarLazy r1 =>
      (fix loop (fuel : nat) (p : pos) {struct fuel} : option pos :=
         match fuel with
         | O => k p
         | S fuel' =>
             match k p with
             | Some q => Some q
             | None => exec r1 (fun q => if shorter q p then loop fuel' q else None) p
             end
         end) (List.length (snd p)) p
  | WordBoundary => if at_word_boundary p then k p else None
  end.

(** The match of [r] that starts at [p], if any: the position where it ends. *)
Definition match_at (r : re) (p : pos) : option pos := exec r Some p.

(** The character before the position reached by reading [m] from a
    position that [prev] precedes. *)
Fixpoint advance (prev : option ascii) (m : list ascii) : option ascii :=
  match m with
  | [] => prev
  | a :: m' => advance (Some a) m'
  end.

(** Number of characters a match from [s] to [rest] consumed. *)
Definition consumed (s rest : list ascii) : nat := (List.length s - List.length rest)%nat.

(** [re.ReplaceAllString(src, repl)] for a replacement without [$]: scan the
    subject left to right; at each position not inside a match, take the match
    that starts there; copy unmatched characters. An empty match directly
    after a match is not replaced. [skip] counts the characters of the current
    match still to drop; [after_match] tells that a match ended here. *)
Fixpoint replace_from (r : re) (repl : list ascii) (prev : option ascii)
    (s : list ascii) (skip : nat) (after_match : bool) {struct s} : list ascii :=
  match skip with
  | S n =>
      match s with
      | a :: t => replace_from r repl (Some a) t n true
      | [] => []
      end
  | O =>
      match match_at r (prev, s) with
      | Some (_, rest) =>
          match consumed s rest with
          | S n =>
              repl ++ match s with
                      | a :: t => replace_from r repl (Some a) t n true
                      | [] => []
                      end
          | O =>
              (if after_match then [] else repl)
              ++ match s with
                 | a :: t => a :: replace_from r repl (Some a) t O false
                 | [] => []
                 end
          end
      | None =>
          match s with
          | a :: t => a :: replace_from r repl (Some a) t O false
          | [] => []
          end
      end
  end.

Definition ReplaceAllString (r : re) (src repl : string) : string :=
  string_of_list_ascii
    (replace_from r (list_ascii_of_string repl) None (list_ascii_of_string src) O false).

(** Does [r] match somewhere in [s] (at any start, the end included)? *)
Fixpoint matches_from (r : re) (prev : option ascii) (s : list ascii) : bool :=
  match match_at r (prev, s) with
  | Some _ => true
  | None =>
      match s with
      | a :: t => matches_from r (Some a) t
      | [] => false
      end
  end.

Definition MatchString (r : re) (s : string) : bool :=
  matches_from r None (list_ascii_of_string s).

(** *** Pattern syntax *)

Definition opt (r : re) : re := Alt r Empty.                 (* r? *)
Definition plus (r : re) : re := Seq r (Star r).             (* r+ *)

Fixpoint times (n : nat) (r : re) : re :=                    (* r{n} *)
  match n with
  | O => Empty
  | S n' => Seq r (times n' r)
  end.

Definition at_least (n : nat) (r : re) : re := Seq (times n r) (Star r).  (* r{n,} *)

Definition chr (c : ascii) : re := Class (Ascii.eqb c).
Definition chr_i (c : ascii) : re := Class (fun a => Ascii.eqb (lower_ascii a) (lower_ascii c)).

Fixpoint lit (s : string) : re :=                            (* literal text *)
  match s with
  | EmptyString => Empty
  | String c s' => Seq (chr c) (lit s')
  end.

Fixpoint lit_i (s : string) : re :=                          (* literal under (?i) *)
  match s with
  | EmptyString => Empty
  | String c s' => Seq (chr_i c) (lit_i s')
  end.

Fixpoint seqs (rs : list re) : re :=
  match rs with
  | [] => Empty
  | [r] => r
  | r :: rs' => Seq r (seqs rs')
  end.

Fixpoint alts (rs : list re) : re :=
  match rs with
  | [] => Class (fun _ => false)
  | [r] => r
  | r :: rs' => Alt r (alts rs')
  end.

Definition in_range (lo hi : N) (a : ascii) : bool :=
  let n := N_of_ascii a in ((lo <=? n) && (n <=? hi))%N.

Definition one_of (s : string) (a : ascii) : bool :=
  existsb (Ascii.eqb a) (list_ascii_of_string s).

Definition digit : ascii -> bool := in_range 48 57.                       (* [0-9], \d *)
Definition upper : ascii -> bool := in_range 65 90.                       (* [A-Z] *)
Definition lower : ascii -> bool := in_range 97 122.                      (* [a-z] *)
Definition alpha (a : ascii) : bool := upper a || lower a.                (* [a-zA-Z] *)
Definition alnum (a : ascii) : bool := alpha a || digit a.                (* [a-zA-Z0-9] *)
Definition space (a : ascii) : bool :=                                    (* \s = [\t\n\f\r ] *)
  let n := N_of_ascii a in ((n =? 9) || (n =? 10) || (n =? 12) || (n =? 13) || (n =? 32))%N.
Definition quote (a : ascii) : bool :=                                    (* double or single quote *)
  let n := N_of_ascii a in ((n =? 34) || (n =? 39))%N.

End Regex.

(* ===================================================================== *)
(** ** Package logger: scrubber (src/unnamed/part_001) *)
(* ===================================================================== *)

Module Logger.
Import Regex.

(** [REDACTED] is the placeholder for scrubbed values. *)
Definition REDACTED : string := "[REDACTED]".

(** [SensitiveKeys]: key names that indicate sensitive data. *)
Definition SensitiveKeys : gset string :=
  list_to_set
    [ "password"; "passwd"; "pwd"; "secret"; "api_key"; "apikey"; "api-key";
      "token"; "access_token"; "accesstoken"; "refresh_token"; "auth";
      "authorization"; "bearer"; "credential"; "credentials"; "private_key";
      "privatekey"; "private-key"; "secret_key"; "secretkey"; "secret-key";
      "session_id"; "sessionid"; "session-id"; "session"; "cookie";
      "x-api-key"; "x-auth-token"; "x-access-token" ].

(** *** Built-in scrub patterns

    Each pattern is given with its source text; the double quote is written
    \x22 there. *)

Definition any_digit : re := Class digit.
Definition any_space : re := Class space.
Definition any_quote : re := Class quote.
Definition assign : re := Class (one_of "=:").

(* (?i)(?:api[_-]?key|apikey)\s*[=:]\s*[\x22']?([a-zA-Z0-9_\-]{20,})[\x22']? *)
Definition re_apiKey : re :=
  seqs [ alts [ seqs [lit_i "api"; opt (Class (one_of "_-")); lit_i "key"];
                lit_i "apikey" ];
         Star any_space; assign; Star any_space; opt any_quote;
         at_least 20 (Class (fun a => alnum a || one_of "_-" a));
         opt any_quote ].

(* (?i)(?:password|passwd|pwd|secret)\s*[=:]\s*[\x22']?([^\x22'\s]{3,})[\x22']? *)
Definition re_password : re :=
  seqs [ alts [lit_i "password"; lit_i "passwd"; lit_i "pwd"; lit_i "secret"];
         Star any_space; assign; Star any_space; opt any_quote;
         at_least 3 (Class (fun a => negb (quote a || space a)));
         opt any_quote ].

(* (?i)(?:bearer\s+|token\s*[=:]\s*[\x22']?)([a-zA-Z0-9_\-\.]{20,})[\x22']? *)
Definition re_token : re :=
  seqs [ alts [ seqs [lit_i "bearer"; plus any_space];
                seqs [lit_i "token"; Star any_space; assign; Star any_space; opt any_quote] ];
         at_least 20 (Class (fun a => alnum a || one_of "_-." a));
         opt any_quote ].

(* \b(?:4[0-9]{12}(?:[0-9]{3})?|5[1-5][0-9]{14}|3[47][0-9]{13}
      |6(?:011|5[0-9]{2})[0-9]{12}|(?:2131|1800|35\d{3})\d{11})\b *)
Definition re_creditCard : re :=
  seqs [ WordBoundary;
         alts [ seqs [lit "4"; times 12 any_digit; opt (times 3 any_digit)];
                seqs [lit "5"; Class (in_range 49 53); times 14 any_digit];
                seqs [lit "3"; Class (one_of "47"); times 13 any_digit];
                seqs [lit "6"; alts [lit "011"; seqs [lit "5"; times 2 any_digit]]; times 12 any_digit];
                seqs [alts [lit "2131"; lit "1800"; seqs [lit "35"; times 3 any_digit]]; times 11 any_digit] ];
         WordBoundary ].

(* \b\d{3}[-\s]?\d{2}[-\s]?\d{4}\b *)
Definition re_ssn : re :=
  seqs [ WordBoundary;
         times 3 any_digit; opt (Class (fun a => one_of "-" a || space a));
         times 2 any_digit; opt (Class (fun a => one_of "-" a || space a));
         times 4 any_digit;
         WordBoundary ].

(* \b[a-zA-Z0-9._%+-]+@[a-zA-Z0-9.-]+\.[a-zA-Z]{2,}\b *)
Definition re_email : re :=
  seqs [ WordBoundary;
         plus (Class (fun a => alnum a || one_of "._%+-" a));
         lit "@";
         plus (Class (fun a => alnum a || one_of ".-" a));
         lit ".";
         at_least 2 (Class alpha);
         WordBoundary ].

(* 25[0-5]|2[0-4][0-9]|[01]?[0-9][0-9]? *)
Definition re_octet : re :=
  alts [ seqs [lit "25"; Class (in_range 48 53)];
         seqs [lit "2"; Class (in_range 48 52); any_digit];
         seqs [opt (Class (one_of "01")); any_digit; opt any_digit] ].

(* \b(?:(?:octet)\.){3}(?:octet)\b *)
Definition re_ipAddress : re :=
  seqs [ WordBoundary; times 3 (Seq re_octet (lit ".")); re_octet; WordBoundary ].

(* (?:AKIA|ABIA|ACCA)[A-Z0-9]{16} *)
Definition re_awsKey : re :=
  seqs [ alts [lit "AKIA"; lit "ABIA"; lit "ACCA"];
         times 16 (Class (fun a => upper a || digit a)) ].

(* -----BEGIN (?:RSA |EC |DSA )?PRIVATE KEY-----[\s\S]*?
   -----END (?:RSA |EC |DSA )?PRIVATE KEY----- *)
Definition re_privateKey : re :=
  seqs [ lit "-----BEGIN "; opt (alts [lit "RSA "; lit "EC "; lit "DSA "]);
         lit "PRIVATE KEY-----";
         StarLazy (Class (fun _ => true));
         lit "-----END "; opt (alts [lit "RSA "; lit "EC "; lit "DSA "]);
         lit "PRIVATE KEY-----" ].

(* eyJ[a-zA-Z0-9_-]*\.eyJ[a-zA-Z0-9_-]*\.[a-zA-Z0-9_-]* *)
Definition re_jwt : re :=
  let b64 := Class (fun a => alnum a || one_of "_-" a) in
  seqs [ lit "eyJ"; Star b64; lit "."; lit "eyJ"; Star b64; lit "."; Star b64 ].

Definition scrubPatterns : gmap string re :=
  list_to_map
    [ ("apiKey", re_apiKey); ("password", re_password); ("token", re_token);
      ("creditCard", re_creditCard); ("ssn", re_ssn); ("email", re_email);
      ("ipAddress", re_ipAddress); ("awsKey", re_awsKey);
      ("privateKey", re_privateKey); ("jwt", re_jwt) ].

Definition defaultPatterns : list string :=
  ["apiKey"; "password"; "token"; "creditCard"; "ssn"; "awsKey"; "privateKey"; "jwt"].

(** *** Scrubber *)

Record ScrubbingConfig : Type := {
  Enabled : bool;
  Patterns : list string;
  CustomRegexps : list re;
  Allowlist : list string
}.

Record Scrubber : Type := {
  enabled : bool;
  patterns : list re;
  allowlist : gset string
}.

Section WithStrings.
Context `{StringsPkg}.

Definition NewScrubber (config : option ScrubbingConfig) : Scrubber :=
  let config :=
    match config with
    | None => {| Enabled := true; Patterns := []; CustomRegexps := []; Allowlist := [] |}
    | Some c => c
    end in
  let patternNames :=
    match Patterns config with
    | [] => defaultPatterns
    | names => names
    end in
  {| enabled := Enabled config;
     patterns := omap (fun name => scrubPatterns !! name) patternNames ++ CustomRegexps config;
     allowlist := list_to_set (ToLower <$> Allowlist config) |}.

Definition scrubString (s : Scrubber) (value : string) : string :=
  fold_left (fun result p => ReplaceAllString p result REDACTED) (patterns s) value.

Definition ScrubString (s : Scrubber) (value : string) : string :=
  if negb (enabled s) then value
  else fold_left (fun result p => ReplaceAllString p result REDACTED) (patterns s) value.

Definition nonempty (key : string) : bool :=
  match key with EmptyString => false | String _ _ => true end.

Definition isSensitiveKey (key : string) : bool :=
  bool_decide (ToLower key ∈ SensitiveKeys).

Definition allowlisted (s : Scrubber) (key : string) : bool :=
  bool_decide (ToLower key ∈ allowlist s).

Fixpoint scrubValue (s : Scrubber) (v : value) (key : string) {struct v} : value :=
  if nonempty key && allowlisted s key then v
  else if nonempty key && isSensitiveKey key then VString REDACTED
  else
    match v with
    | VNil => VNil
    | VString str => VString (scrubString s str)
    | VList l => VList (map (fun item => scrubValue s item EmptyString) l)
    | VMap m => VMap (map_imap (fun k val => Some (scrubValue s val k)) m)
    | VNilList => VList []         (* make([]interface{}, 0) *)
    | VNilMap => VMap ∅            (* make(map[string]interface{}) *)
    | VOther o => VOther o
    end.

Definition Scrub (s : Scrubber) (v : value) : value :=
  if negb (enabled s) then v else scrubValue s v EmptyString.

Definition AddPattern (s : Scrubber) (pattern : re) : Scrubber :=
  {| enabled := enabled s; patterns := patterns s ++ [pattern]; allowlist := allowlist s |}.

Definition AddToAllowlist (s : Scrubber) (key : string) : Scrubber :=
  {| enabled := enabled s; patterns := patterns s;
     allowlist := {[ToLower key]} ∪ allowlist s |}.

Definition SetEnabled (s : Scrubber) (e : bool) : Scrubber :=
  {| enabled := e; patterns := patterns s; allowlist := allowlist s |}.

(** *** Paths into a value

    A path names a nested value: [Field k] enters the entry with key [k] of a
    map, [Item i] the element at index [i] of a list. *)

Inductive step : Type :=
| Field (k : string)
| Item (i : nat).

Fixpoint lookup_path (v : value) (p : list step) : option value :=
  match p with
  | [] => Some v
  | Field k :: p' =>
      match v with
      | VMap m => m !! k ≫= fun x => lookup_path x p'
      | _ => None
      end
  | Item i :: p' =>
      match v with
      | VList l => l !! i ≫= fun x => lookup_path x p'
      | _ => None
      end
  end.

(** The key [scrubValue] is called with for the value a step enters. *)
Definition key_of (st : step) : string :=
  match st with
  | Field k => k
  | Item _ => EmptyString
  end.

(** The three ways [scrubValue] treats a value, by the key it comes with:
    returned as it is, replaced by the marker, or scrubbed by its type. *)
Definition kept (s : Scrubber) (key : string) : bool :=
  nonempty key && allowlisted s key.

Definition redacted (s : Scrubber) (key : string) : bool :=
  negb (kept s key) && (nonempty key && isSensitiveKey key).

Definition traversed (s : Scrubber) (key : string) : bool :=
  negb (kept s key) && negb (nonempty key && isSensitiveKey key).

(** Does no configured pattern match in [str]? *)
Definition clean (s : Scrubber) (str : string) : bool :=
  forallb (fun p => negb (MatchString p str)) (patterns s).

End WithStrings.

(* --------------------------------------------------------------------- *)
(** *** Levels and entries (src/logger/logger.go) *)
(* --------------------------------------------------------------------- *)

Inductive Level : Type :=
| LevelTrace
| LevelDebug
| LevelInfo
| LevelWarn
| LevelError
| LevelFatal
| LevelAudit.   (* Special: always logged, never sampled *)

(** The [iota] value of a level. *)
Definition Level_int (l : Level) : Z :=
  match l with
  | LevelTrace => 0
  | LevelDebug => 1
  | LevelInfo => 2
  | LevelWarn => 3
  | LevelError => 4
  | LevelFatal => 5
  | LevelAudit => 6
  end.

Definition Level_of_nat (n : nat) : Level :=
  match n with
  | 0 => LevelTrace
  | 1 => LevelDebug
  | 2 => LevelInfo
  | 3 => LevelWarn
  | 4 => LevelError
  | 5 => LevelFatal
  | _ => LevelAudit
  end%nat.

#[global] Instance Level_eq_dec : EqDecision Level.
Proof. solve_decision. Defined.

#[global] Instance Level_countable : Countable Level.
Proof.
  refine (inj_countable' (fun l => Z.to_nat (Level_int l)) Level_of_nat _).
  intros []; reflexivity.
Defined.

Definition levelNames (l : Level) : string :=
  match l with
  | LevelTrace => "trace"
  | LevelDebug => "debug"
  | LevelInfo => "info"
  | LevelWarn => "warn"
  | LevelError => "error"
  | LevelFatal => "fatal"
  | LevelAudit => "audit"
  end.

Module Source.
Record t : Type := {
  File : string;       (* json:file,omitempty *)
  Line : Z;            (* json:line,omitempty *)
  Function : string    (* json:function,omitempty *)
}.

Definition marshal (s : t) : Json.json :=
  Json.object [ Json.string_omitempty "file" (File s);
                Json.int_omitempty "line" (Line s);
                Json.string_omitempty "function" (Function s) ].

(** A pointer to [s], as a value of type [interface{}]. *)
Definition pointer (s : t) : value := VOther (OSource (File s) (Line s) (Function s)).
End Source.

Module Entry.
Record t : Type := {
  Level : Level;
  Message : string;
  Timestamp : Time;
  LoggerName : string;
  Context : option (gmap string value);   (* a map, or nil *)
  Tags : option (gmap string string);     (* a map, or nil *)
  Source : option Source.t;               (* a pointer, or nil *)
  TraceID : string;
  SpanID : string;
  SessionID : string;
  Environment : string;
  Release : string;
  SDKName : string;
  SDKVersion : string
}.

(** [ToMap] converts an entry to a map for JSON serialization: a
    [map[string]interface{}] whose values have the types of the fields. *)
Definition ToMap (e : t) : gmap string value :=
  list_to_map
    [ ("level", VString (levelNames (Level e)));
      ("message", VString (Message e));
      ("timestamp", VOther (OInt (UnixMilli (Timestamp e))));
      ("loggerName", VString (LoggerName e));
      ("context", match Context e with Some m => VMap m | None => VNilMap end);
      ("tags", match Tags e with Some m => VOther (OStringMap m) | None => VOther ONil end);
      ("source", match Source e with Some s => Source.pointer s | None => VOther ONil end);
      ("traceId", VString (TraceID e));
      ("spanId", VString (SpanID e));
      ("sessionId", VString (SessionID e));
      ("environment", VString (Environment e));
      ("release", VString (Release e));
      ("sdkName", VString (SDKName e));
      ("sdkVersion", VString (SDKVersion e)) ].

(** Whether [json.Marshal] accepts the map [ToMap] returns. *)
Definition marshalable (e : t) : bool := Json.marshalable (VMap (ToMap e)).
End Entry.

(** [Logger.shouldLog], on the logger's minimum level. *)
Definition shouldLog (minLevel level : Level) : bool :=
  if bool_decide (level = LevelAudit) then true
  else (Level_int minLevel <=? Level_int level)%Z.

(* --------------------------------------------------------------------- *)
(** *** Observe destination (src/unnamed/part_000) *)
(* --------------------------------------------------------------------- *)

#[warnings="-inexact-float"]
Definition defaultSampling : gmap Level float :=
  list_to_map
    [ (LevelTrace, 0.01%float); (LevelDebug, 0.1%float); (LevelInfo, 0.5%float);
      (LevelWarn, 1.0%float); (LevelError, 1.0%float); (LevelFatal, 1.0%float);
      (LevelAudit, 1.0%float) ].

Module ObserveConfig.
Record t : Type := {
  Enabled : bool;
  BatchSize : Z;
  FlushInterval : Z;                  (* time.Duration, nanoseconds *)
  Sampling : gmap Level float
}.
End ObserveConfig.

(** The branch by which [Write] returned. *)
Inductive written : Type :=
| NotEnabled
| SampledOut
| Queued
| QueueFull.

Module ObserveDestination.
Import ObserveConfig.

(** The destination together with its worker goroutine: [batch] is the
    worker's local slice, [exited] tells that the worker returned, and
    [sent] lists the non-empty batches [sendBatch] was called with. The
    field [endpoint] is a function of [dsn], see [ObserveProcess.endpoint]. *)
Record t : Type := {
  dsn : string;
  config : ObserveConfig.t;
  sampling : gmap Level float;
  queue_cap : nat;
  queue : list Entry.t;
  done : bool;                       (* the done channel is closed *)
  batch : list Entry.t;
  exited : bool;
  sent : list (list Entry.t)
}.

Definition second : Z := 1000000000.

(** [NewObserveDestination]; the worker starts with an empty batch. *)
Definition NewObserveDestination (dsn : string) (config : option ObserveConfig.t) : t :=
  let config :=
    match config with
    | None => {| Enabled := true; BatchSize := 50; FlushInterval := 5 * second; Sampling := ∅ |}
    | Some c => c
    end in
  {| dsn := dsn;
     config := config;
     sampling := Sampling config ∪ defaultSampling;
     queue_cap := 1000;
     queue := [];
     done := false;
     batch := [];
     exited := false;
     sent := [] |}.

Definition with_queue (o : t) (q : list Entry.t) : t :=
  {| dsn := dsn o; config := config o; sampling := sampling o; queue_cap := queue_cap o;
     queue := q; done := done o; batch := batch o; exited := exited o; sent := sent o |}.

Definition with_batch (o : t) (b : list Entry.t) : t :=
  {| dsn := dsn o; config := config o; sampling := sampling o; queue_cap := queue_cap o;
     queue := queue o; done := done o; batch := b; exited := exited o; sent := sent o |}.

Definition with_done (o : t) (d : bool) : t :=
  {| dsn := dsn o; config := config o; sampling := sampling o; queue_cap := queue_cap o;
     queue := queue o; done := d; batch := batch o; exited := exited o; sent := sent o |}.

Definition with_exited (o : t) (x : bool) : t :=
  {| dsn := dsn o; config := config o; sampling := sampling o; queue_cap := queue_cap o;
     queue := queue o; done := done o; batch := batch o; exited := x; sent := sent o |}.

Definition with_sent (o : t) (s : list (list Entry.t)) : t :=
  {| dsn := dsn o; config := config o; sampling := sampling o; queue_cap := queue_cap o;
     queue := queue o; done := done o; batch := batch o; exited := exited o; sent := s |}.

(** The document of the map [payload] that [sendBatch] builds of a batch:
    under [logs] the slice of the maps [ToMap] returns for the entries. *)
Definition payload (batch : list Entry.t) : Json.json :=
  Json.JObject
    {[ "logs" := Json.JArray ((fun entry => Json.of_values (Entry.ToMap entry)) <$> batch) ]}.

(** [json.Marshal(payload)]: an error when an entry holds a value that cannot
    be marshalled. *)
Definition Marshal (batch : list Entry.t) : option Json.json :=
  if forallb Entry.marshalable batch then Some (payload batch) else None.

(** The body of the request: [body, _ := json.Marshal(payload)] drops the
    error, and [body] is then nil, so the request is made with no body at
    all. *)
Inductive request_body : Type :=
| NoBody
| Document (doc : Json.json).

Definition body (batch : list Entry.t) : request_body :=
  match Marshal batch with
  | Some doc => Document doc
  | None => NoBody
  end.

(** [sendBatch], on the destination's state: nothing on an empty batch;
    otherwise one POST of [body batch], whose response is only logged. This
    is the call when the request can be built; [ObserveProcess.sendBatch]
    has the other case too. *)
Definition sendBatch (o : t) (batch : list Entry.t) : t :=
  match batch with
  | [] => o
  | _ => with_sent o (sent o ++ [batch])
  end.

(** The rate [o.sampling[level]]: zero for a level the map lacks. *)
Definition rate (o : t) (level : Level) : float :=
  default 0%float (sampling o !! level).

(** The [select] of [Write]: queue the entry, or drop it when the queue is
    full. *)
Definition enqueue (o : t) (entry : Entry.t) : written * t :=
  match try_send (queue_cap o) (queue o) entry with
  | (true, q') => (Queued, with_queue o q')
  | (false, _) => (QueueFull, o)
  end.

(** The sampling test of [Write] (audit logs are never sampled); [draw] is
    the value [rand.Float64()] returns. *)
Definition sampled_out (o : t) (entry : Entry.t) (draw : float) : bool :=
  negb (bool_decide (Entry.Level entry = LevelAudit))
  && PrimFloat.ltb (rate o (Entry.Level entry)) draw.

(** [Write]. *)
Definition Write (o : t) (entry : Entry.t) (draw : float) : written * t :=
  if negb (Enabled (config o)) then (NotEnabled, o)
  else if sampled_out o entry draw then (SampledOut, o)
  else enqueue o entry.

(** A producer calling [Write] for each entry in turn while the worker takes
    no step. *)
Fixpoint WriteAll (o : t) (writes : list (Entry.t * float)) : list written * t :=
  match writes with
  | [] => ([], o)
  | (entry, draw) :: writes' =>
      let r := Write o entry draw in
      let rs := WriteAll (snd r) writes' in
      (fst r :: fst rs, snd rs)
  end.

(** The inner loop of the worker's [done] case: take what the queue holds,
    then send the batch and return. *)
Fixpoint drain (o : t) (pending : list Entry.t) (batch : list Entry.t) : t :=
  match pending with
  | entry :: pending' => drain o pending' (batch ++ [entry])
  | [] => with_exited (with_batch (with_queue (sendBatch o batch) []) batch) true
  end.

(** One iteration of the worker's [for { select { ... } }]; [None] when the
    chosen case cannot proceed. *)
Definition worker_step (w : wake) (o : t) : option t :=
  if exited o then None
  else
    match w with
    | OnQueue =>
        match queue o with
        | [] => None
        | entry :: rest =>
            let batch := batch o ++ [entry] in
            if (BatchSize (config o) <=? Z.of_nat (List.length batch))%Z
            then Some (with_batch (with_queue (sendBatch o batch) rest) [])
            else Some (with_batch (with_queue o rest) batch)
        end
    | OnTimer =>
        if (0 <? List.length (batch o))%nat
        then Some (with_batch (sendBatch o (batch o)) [])
        else Some o
    | OnDone =>
        if done o then Some (drain o (queue o) (batch o)) else None
    end.

(** The worker's loop running through a schedule of wake-ups; a wake-up that
    cannot proceed is skipped. *)
Fixpoint worker (sched : list wake) (o : t) : t :=
  match sched with
  | [] => o
  | w :: sched' =>
      match worker_step w o with
      | Some o' => worker sched' o'
      | None => worker sched' o
      end
  end.

(** [Close]: [close(o.done)], then [o.wg.Wait()]. [sched] is what the worker
    still does before its [select] takes the [done] case. This is the call
    on a destination whose goroutine has started and builds its requests;
    [ObserveProcess.Close] has the panics of the goroutine too. *)
Definition Close (sched : list wake) (o : t) : result t :=
  if done o then Panicked "close of closed channel"
  else Returned (worker (sched ++ [OnDone]) (with_done o true)).

(** [Flush]: [for len(o.queue) > 0 { time.Sleep(100ms) }]. Each element of
    [polls] is what the worker does during one sleep; [None] when the loop is
    still waiting after the last of them. *)
Fixpoint Flush (polls : list (list wake)) (o : t) : option t :=
  if (0 <? List.length (queue o))%nat
  then match polls with
       | [] => None
       | sched :: polls' => Flush polls' (worker sched o)
       end
  else Some o.

End ObserveDestination.

(** The goroutine of the destination from its first statement, with the
    panics it can end in: at its start, and in [sendBatch] when no request
    can be built. A panic of the goroutine ends the process, so a call that
    waits for it does not return. [ObserveDestination.worker] above is the
    loop of a goroutine that has started and whose requests can be built. *)
Module ObserveProcess.
Import ObserveConfig ObserveDestination.

(** The statements before the loop: [make([]*Entry, 0, o.config.BatchSize)]
    and [time.NewTicker(o.config.FlushInterval)], which panics for an
    interval that is not positive. *)
Definition worker_start (c : ObserveConfig.t) : result unit :=
  if makeslice_panics (BatchSize c) then Panicked "makeslice: cap out of range"
  else if (FlushInterval c <=? 0)%Z then Panicked "non-positive interval for NewTicker"
  else Returned tt.

Section WithUrl.
Context `{UrlPkg}.

(** [parseEndpoint]. *)
Definition parseEndpoint (dsn : string) : string :=
  match url_Parse dsn with
  | None => "https://statly.live/api/v1/logs/ingest"
  | Some (scheme, host) => (scheme ++ "://" ++ host ++ "/api/v1/logs/ingest")%string
  end.

(** The field [endpoint], which [NewObserveDestination] sets once. *)
Definition endpoint (o : t) : string := parseEndpoint (dsn o).

(** Does [http.NewRequest("POST", o.endpoint, ...)] return a request? *)
Definition request_built (o : t) : bool :=
  match url_Parse (endpoint o) with
  | Some _ => true
  | None => false
  end.

(** [sendBatch]: nothing on an empty batch. Otherwise the request is built
    with [req, _ := http.NewRequest(...)], which drops the error, and
    [req.Header.Set] on a nil request panics. *)
Definition sendBatch (o : t) (batch : list Entry.t) : result t :=
  match batch with
  | [] => Returned o
  | _ =>
      if request_built o then Returned (ObserveDestination.sendBatch o batch)
      else Panicked "invalid memory address or nil pointer dereference"
  end.

(** The inner loop of the [done] case. *)
Fixpoint drain (o : t) (pending : list Entry.t) (batch : list Entry.t) : result t :=
  match pending with
  | entry :: pending' => drain o pending' (batch ++ [entry])
  | [] =>
      o' <- sendBatch o batch ;;
      Returned (with_exited (with_batch (with_queue o' []) batch) true)
  end.

(** One iteration of [for { select { ... } }]; [None] when the chosen case
    cannot proceed. *)
Definition worker_step (w : wake) (o : t) : result (option t) :=
  if exited o then Returned None
  else
    match w with
    | OnQueue =>
        match queue o with
        | [] => Returned None
        | entry :: rest =>
            let batch := batch o ++ [entry] in
            if (BatchSize (config o) <=? Z.of_nat (List.length batch))%Z
            then o' <- sendBatch o batch ;;
                 Returned (Some (with_batch (with_queue o' rest) []))
            else Returned (Some (with_batch (with_queue o rest) batch))
        end
    | OnTimer =>
        if (0 <? List.length (batch o))%nat
        then o' <- sendBatch o (batch o) ;; Returned (Some (with_batch o' []))
        else Returned (Some o)
    | OnDone =>
        if done o
        then o' <- drain o (queue o) (batch o) ;; Returned (Some o')
        else Returned None
    end.

(** The loop running through a schedule of wake-ups. *)
Fixpoint loop (sched : list wake) (o : t) : result t :=
  match sched with
  | [] => Returned o
  | w :: sched' =>
      r <- worker_step w o ;;
      match r with
      | Some o' => loop sched' o'
      | None => loop sched' o
      end
  end.

(** [worker]: the goroutine of a destination in state [o], whose start lies
    behind it when [o] is reached. *)
Definition worker (sched : list wake) (o : t) : result t :=
  _ <- worker_start (config o) ;; loop sched o.

(** [Close]: [close(o.done)], then [o.wg.Wait()], which returns when the
    goroutine has returned. *)
Definition Close (sched : list wake) (o : t) : result t :=
  if done o then Panicked "close of closed channel"
  else worker (sched ++ [OnDone]) (with_done o true).

End WithUrl.

End ObserveProcess.

(* --------------------------------------------------------------------- *)
(** *** File destination: rotated files (src/unnamed/part_000) *)
(* --------------------------------------------------------------------- *)

Module FileConfig.
Record t : Type := {
  Enabled : bool;
  Path : string;
  Format : string;              (* json or text *)
  RotationType : string;        (* size or time *)
  MaxSize : string;
  MaxFiles : Z;
  RotationInterval : string;    (* hourly, daily, weekly *)
  RetentionDays : Z;
  Compress : bool
}.
End FileConfig.

Module FileDestination.

(** The test [cleanupOldFiles] selects the rotated files with: a name other
    than [base], longer than it, that starts with [base] and a dot. *)
Definition is_rotated (base name : string) : bool :=
  negb (String.eqb name base)
  && (String.length base <? String.length name)%nat
  && String.eqb (string_take (String.length base + 1) name) (base ++ ".")%string.

(** [cleanupOldFiles], given [filepath.Base(f.config.Path)] and the names
    [os.ReadDir] lists for the directory of the log file: the names it passes
    to [os.Remove], in order. *)
Definition cleanupOldFiles (config : FileConfig.t) (base : string) (files : list string)
  : list string :=
  let rotatedFiles := List.filter (is_rotated base) files in
  if (0 <? FileConfig.MaxFiles config)%Z
     && (FileConfig.MaxFiles config <? Z.of_nat (List.length rotatedFiles))%Z
  then firstn (Z.to_nat (Z.of_nat (List.length rotatedFiles) - FileConfig.MaxFiles config))
              rotatedFiles
  else [].

(** [getRotationInterval], in nanoseconds. *)
Definition hour : Z := 3600 * 1000000000.

Definition getRotationInterval (config : FileConfig.t) : Z :=
  if String.eqb (FileConfig.RotationInterval config) "hourly" then hour
  else if String.eqb (FileConfig.RotationInterval config) "daily" then 24 * hour
  else if String.eqb (FileConfig.RotationInterval config) "weekly" then 7 * 24 * hour
  else 24 * hour.

(** The test of [checkRotation]: [currentSize] and [maxSize] in bytes,
    [since] the time since the last rotation. *)
Definition shouldRotate (config : FileConfig.t) (currentSize maxSize since : Z) : bool :=
  if String.eqb (FileConfig.RotationType config) "size" then (maxSize <=? currentSize)%Z
  else if String.eqb (FileConfig.RotationType config) "time"
       then (getRotationInterval config <=? since)%Z
       else false.

End FileDestination.

(* --------------------------------------------------------------------- *)
(** *** The logger (src/logger/logger.go) *)
(* --------------------------------------------------------------------- *)

Module ConsoleConfig.
Record t : Type := {
  Enabled : bool;
  Colors : bool;
  Format : string;              (* pretty or json *)
  Timestamps : bool;
  Output : option string        (* an io.Writer, by name; nil for os.Stderr *)
}.
End ConsoleConfig.

Module Config.
Record t : Type := {
  DSN : string;
  Level : Level;
  Name : string;
  Environment : string;
  Release : string;
  Console : option ConsoleConfig.t;
  File : option FileConfig.t;
  Observe : option ObserveConfig.t;
  Scrubbing : option ScrubbingConfig;
  Context : option (gmap string value);
  Tags : option (gmap string string)
}.
End Config.

(** [type Destination interface]. A method of a caller's own destination may
    panic. *)
Module Destination.
Class t (D : Type) : Type := {
  Name : D -> string;
  Write : D -> Entry.t -> result D;
  Flush : D -> result D;
  Close : D -> result D
}.
End Destination.

(** The destinations [initDestinations] asks for: the constructor it calls
    and the arguments it passes. *)
Inductive created : Type :=
| ConsoleFor (c : ConsoleConfig.t)                 (* NewConsoleDestination(c) *)
| FileFor (c : FileConfig.t)                       (* NewFileDestination(c) *)
| ObserveFor (dsn : string) (c : ObserveConfig.t). (* NewObserveDestination(dsn, c) *)

(** What [runtime.Caller] and [runtime.FuncForPC] report for a frame. *)
Record Caller : Type := {
  caller_file : string;
  caller_line : Z;
  caller_func : option string     (* fn.Name(), or nil *)
}.

(** What [createEntry] reads from the process. *)
Record Runtime : Type := {
  time_Now : Time;                (* time.Now() *)
  caller : option Caller          (* runtime.Caller(4), when ok *)
}.

(** [getSource]: the function name is cut after its last dot. *)
Definition getSource (c : option Caller) : option Source.t :=
  match c with
  | None => None
  | Some c =>
      let funcName :=
        match caller_func c with
        | None => EmptyString
        | Some funcName =>
            let idx := LastIndex funcName "."%char in
            if (0 <=? idx)%Z then string_drop (Z.to_nat (idx + 1)) funcName else funcName
        end in
      Some {| Source.File := caller_file c; Source.Line := caller_line c;
              Source.Function := funcName |}
  end.

(** [Logger.initDestinations]: the console unless it is disabled, the file
    when it is enabled, Observe when there is a DSN and it is not disabled. *)
Definition initDestinations (config : Config.t) : list created :=
  let consoleConfig :=
    match Config.Console config with
    | None => {| ConsoleConfig.Enabled := true; ConsoleConfig.Colors := true;
                 ConsoleConfig.Format := "pretty"; ConsoleConfig.Timestamps := true;
                 ConsoleConfig.Output := None |}
    | Some c => c
    end in
  (if ConsoleConfig.Enabled consoleConfig then [ConsoleFor consoleConfig] else [])
  ++ match Config.File config with
     | Some f => if FileConfig.Enabled f then [FileFor f] else []
     | None => []
     end
  ++ (if Json.is_empty_string (Config.DSN config) then []
      else
        let observeConfig :=
          match Config.Observe config with
          | None => {| ObserveConfig.Enabled := true; ObserveConfig.BatchSize := 50;
                       ObserveConfig.FlushInterval := 5 * ObserveDestination.second;
                       ObserveConfig.Sampling := ∅ |}
          | Some c => c
          end in
        if ObserveConfig.Enabled observeConfig
        then [ObserveFor (Config.DSN config) observeConfig] else []).

Section WithDestinations.
Context `{StringsPkg} {D : Type} `{Destination.t D}.

Record Logger : Type := {
  name : string;
  config : Config.t;
  minLevel : Level;
  destinations : list D;
  scrubber : Scrubber;
  context : gmap string value;
  tags : gmap string string;
  sessionID : string;
  traceID : string;
  spanID : string
}.

Definition with_destinations (l : Logger) (ds : list D) : Logger :=
  {| name := name l; config := config l; minLevel := minLevel l; destinations := ds;
     scrubber := scrubber l; context := context l; tags := tags l;
     sessionID := sessionID l; traceID := traceID l; spanID := spanID l |}.

Definition with_context (l : Logger) (ctx : gmap string value) : Logger :=
  {| name := name l; config := config l; minLevel := minLevel l;
     destinations := destinations l; scrubber := scrubber l; context := ctx;
     tags := tags l; sessionID := sessionID l; traceID := traceID l; spanID := spanID l |}.

Definition with_tags (l : Logger) (tgs : gmap string string) : Logger :=
  {| name := name l; config := config l; minLevel := minLevel l;
     destinations := destinations l; scrubber := scrubber l; context := context l;
     tags := tgs; sessionID := sessionID l; traceID := traceID l; spanID := spanID l |}.

Definition with_tracing (l : Logger) (trace span : string) : Logger :=
  {| name := name l; config := config l; minLevel := minLevel l;
     destinations := destinations l; scrubber := scrubber l; context := context l;
     tags := tags l; sessionID := sessionID l; traceID := trace; spanID := span |}.

(** [New]. [start] is what the constructors of the destinations return,
    [env] the environment and [uuid] the string [uuid.New()] gives. The zero
    [Level] is [LevelTrace]. *)
Definition New (start : created -> D) (env : Env) (uuid : string) (config : Config.t)
  : Logger :=
  let level :=
    if (Level_int (Config.Level config) =? 0)%Z then LevelDebug else Config.Level config in
  let logger_name :=
    if Json.is_empty_string (Config.Name config) then "default" else Config.Name config in
  let dsn :=
    if Json.is_empty_string (Config.DSN config) then env "STATLY_DSN"
    else Config.DSN config in
  let environment :=
    if Json.is_empty_string (Config.Environment config)
    then (if Json.is_empty_string (env "STATLY_ENVIRONMENT") then env "GO_ENV"
          else env "STATLY_ENVIRONMENT")
    else Config.Environment config in
  let config :=
    {| Config.DSN := dsn; Config.Level := level; Config.Name := logger_name;
       Config.Environment := environment; Config.Release := Config.Release config;
       Config.Console := Config.Console config; Config.File := Config.File config;
       Config.Observe := Config.Observe config; Config.Scrubbing := Config.Scrubbing config;
       Config.Context := Config.Context config; Config.Tags := Config.Tags config |} in
  {| name := Config.Name config;
     config := config;
     minLevel := Config.Level config;
     destinations := start <$> initDestinations config;
     scrubber := NewScrubber (Config.Scrubbing config);
     context := default ∅ (Config.Context config);
     tags := default ∅ (Config.Tags config);
     sessionID := uuid;
     traceID := EmptyString;
     spanID := EmptyString |}.

(** [createEntry]: the call's context is laid over the logger's, then the
    message and the merged context are scrubbed. The type assertion on what
    [Scrub] returns panics when that is not a map. *)
Definition createEntry (l : Logger) (rt : Runtime) (level : Level) (message : string)
    (ctx : gmap string value) : result Entry.t :=
  let mergedContext := ctx ∪ context l in
  let scrubbedMessage := ScrubString (scrubber l) message in
  match Scrub (scrubber l) (VMap mergedContext) with
  | VMap scrubbedContext =>
      Returned {| Entry.Level := level;
                  Entry.Message := scrubbedMessage;
                  Entry.Timestamp := time_Now rt;
                  Entry.LoggerName := name l;
                  Entry.Context := Some scrubbedContext;
                  Entry.Tags := Some (tags l);
                  Entry.Source := getSource (caller rt);
                  Entry.TraceID := traceID l;
                  Entry.SpanID := spanID l;
                  Entry.SessionID := sessionID l;
                  Entry.Environment := Config.Environment (config l);
                  Entry.Release := Config.Release (config l);
                  Entry.SDKName := "statly-observe-go";
                  Entry.SDKVersion := "0.2.0" |}
  | _ => Panicked "interface conversion: interface {} is not map[string]interface {}"
  end.

(** [for _, dest := range dests { dest.Write(entry) }]. *)
Fixpoint write_each (dests : list D) (entry : Entry.t) : result (list D) :=
  match dests with
  | [] => Returned []
  | dest :: dests' =>
      dest' <- Destination.Write dest entry ;;
      rest <- write_each dests' entry ;;
      Returned (dest' :: rest)
  end.

Definition write (l : Logger) (entry : Entry.t) : result Logger :=
  dests <- write_each (destinations l) entry ;;
  Returned (with_destinations l dests).

(** [Log]: nothing below the minimum level; otherwise the entry is created
    and written to every destination. *)
Definition Log (l : Logger) (rt : Runtime) (level : Level) (message : string)
    (ctx : gmap string value) : result Logger :=
  if negb (shouldLog (minLevel l) level) then Returned l
  else entry <- createEntry l rt level message ctx ;; write l entry.

(** [Trace], [Debug], [Info], [Warn], [Error] and [Fatal] have the body of
    [Log] at their level. *)
Definition Trace (l : Logger) (rt : Runtime) (message : string) (ctx : gmap string value)
  : result Logger := Log l rt LevelTrace message ctx.

Definition Debug (l : Logger) (rt : Runtime) (message : string) (ctx : gmap string value)
  : result Logger := Log l rt LevelDebug message ctx.

Definition Info (l : Logger) (rt : Runtime) (message : string) (ctx : gmap string value)
  : result Logger := Log l rt LevelInfo message ctx.

Definition Warn (l : Logger) (rt : Runtime) (message : string) (ctx : gmap string value)
  : result Logger := Log l rt LevelWarn message ctx.

Definition Error (l : Logger) (rt : Runtime) (message : string) (ctx : gmap string value)
  : result Logger := Log l rt LevelError message ctx.

Definition Fatal (l : Logger) (rt : Runtime) (message : string) (ctx : gmap string value)
  : result Logger := Log l rt LevelFatal message ctx.

(** [Audit] does not ask [shouldLog]. *)
Definition Audit (l : Logger) (rt : Runtime) (message : string) (ctx : gmap string value)
  : result Logger :=
  entry <- createEntry l rt LevelAudit message ctx ;; write l entry.

Definition SetContext (l : Logger) (ctx : gmap string value) : Logger :=
  with_context l (ctx ∪ context l).

Definition ClearContext (l : Logger) : Logger := with_context l ∅.

Definition SetTag (l : Logger) (key val : string) : Logger :=
  with_tags l (<[key := val]> (tags l)).

Definition SetTags (l : Logger) (tgs : gmap string string) : Logger :=
  with_tags l (tgs ∪ tags l).

Definition ClearTags (l : Logger) : Logger := with_tags l ∅.

Definition SetTraceID (l : Logger) (trace : string) : Logger :=
  with_tracing l trace (spanID l).

Definition SetSpanID (l : Logger) (span : string) : Logger :=
  with_tracing l (traceID l) span.

Definition ClearTracing (l : Logger) : Logger := with_tracing l EmptyString EmptyString.

(** [Child]: the child's context and tags are the parent's with the given
    ones laid over; it refers to the parent's destinations and scrubber. *)
Definition Child (l : Logger) (child_name : string) (ctx : gmap string value)
    (tgs : gmap string string) : Logger :=
  {| name := if Json.is_empty_string child_name then (name l ++ ".child")%string
             else child_name;
     config := config l;
     minLevel := minLevel l;
     destinations := destinations l;
     scrubber := scrubber l;
     context := ctx ∪ context l;
     tags := tgs ∪ tags l;
     sessionID := sessionID l;
     traceID := traceID l;
     spanID := spanID l |}.

Definition SetLevel (l : Logger) (level : Level) : Logger :=
  {| name := name l; config := config l; minLevel := level;
     destinations := destinations l; scrubber := scrubber l; context := context l;
     tags := tags l; sessionID := sessionID l; traceID := traceID l; spanID := spanID l |}.

Definition GetLevel (l : Logger) : Level := minLevel l.

Definition IsLevelEnabled (l : Logger) (level : Level) : bool := shouldLog (minLevel l) level.

Definition AddDestination (l : Logger) (dest : D) : Logger :=
  with_destinations l (destinations l ++ [dest]).

Definition RemoveDestination (l : Logger) (dest_name : string) : Logger :=
  with_destinations l
    (List.filter (fun d => negb (String.eqb (Destination.Name d) dest_name))
                 (destinations l)).

Definition GetName (l : Logger) : string := name l.

Definition GetSessionID (l : Logger) : string := sessionID l.

End WithDestinations.
Arguments Logger D : clear implicits.

End Logger.


(* ===================================================================== *)
(** ** Package statly: events (src/scope.go) *)
(* ===================================================================== *)

Module Statly.
Import Json.

(** [type Level string]. *)
Definition Level : Type := string.
Definition LevelDebug : Level := "debug".
Definition LevelInfo : Level := "info".
Definition LevelWarning : Level := "warning".
Definition LevelError : Level := "error".
Definition LevelFatal : Level := "fatal".

Definition Version : string := "0.1.0".

Module Mechanism.
Record t : Type := {
  Type_ : string;       (* json:type *)
  Handled : bool        (* json:handled *)
}.
Definition marshal (m : t) : json :=
  object [field "type" (JString (Type_ m)); field "handled" (JBool (Handled m))].
End Mechanism.

Module StackFrame.
Record t : Type := {
  Filename : string;                (* json:filename *)
  Function : string;                (* json:function *)
  Lineno : Z;                       (* json:lineno,omitempty *)
  Colno : Z;                        (* json:colno,omitempty *)
  AbsPath : string;                 (* json:abs_path,omitempty *)
  ContextLine : string;             (* json:context_line,omitempty *)
  InApp : bool;                     (* json:in_app *)
  Vars : gmap string value          (* json:vars,omitempty *)
}.
Definition marshal (f : t) : json :=
  object [ field "filename" (JString (Filename f));
           field "function" (JString (Function f));
           int_omitempty "lineno" (Lineno f);
           int_omitempty "colno" (Colno f);
           string_omitempty "abs_path" (AbsPath f);
           string_omitempty "context_line" (ContextLine f);
           field "in_app" (JBool (InApp f));
           values_omitempty "vars" (Vars f) ].
Definition marshalable (f : t) : bool :=
  map_fold (fun _ x acc => Json.marshalable x && acc) true (Vars f).
End StackFrame.

Module Stacktrace.
Record t : Type := {
  Frames : option (list StackFrame.t)   (* json:frames; a slice, or nil *)
}.
Definition marshal (s : t) : json :=
  object [field "frames" (of_slice StackFrame.marshal (Frames s))].
Definition marshalable (s : t) : bool :=
  forallb StackFrame.marshalable (default [] (Frames s)).
End Stacktrace.

Module ExceptionValue.
Record t : Type := {
  Type_ : string;                   (* json:type *)
  Value : string;                   (* json:value *)
  Module_ : string;                 (* json:module,omitempty *)
  Stacktrace : option Stacktrace.t; (* json:stacktrace,omitempty *)
  Mechanism : option Mechanism.t    (* json:mechanism,omitempty *)
}.
Definition marshal (e : t) : json :=
  object [ field "type" (JString (Type_ e));
           field "value" (JString (Value e));
           string_omitempty "module" (Module_ e);
           pointer_omitempty "stacktrace" Stacktrace.marshal (Stacktrace e);
           pointer_omitempty "mechanism" Mechanism.marshal (Mechanism e) ].
Definition marshalable (e : t) : bool :=
  match Stacktrace e with
  | Some s => Stacktrace.marshalable s
  | None => true
  end.
End ExceptionValue.

Module EventUser.
Record t : Type := {
  ID : string;                      (* json:id,omitempty *)
  Email : string;                   (* json:email,omitempty *)
  Username : string;                (* json:username,omitempty *)
  IPAddr : string;                  (* json:ip_address,omitempty *)
  Data : gmap string value          (* json:data,omitempty *)
}.
Definition marshal (u : t) : json :=
  object [ string_omitempty "id" (ID u);
           string_omitempty "email" (Email u);
           string_omitempty "username" (Username u);
           string_omitempty "ip_address" (IPAddr u);
           values_omitempty "data" (Data u) ].
Definition marshalable (u : t) : bool :=
  map_fold (fun _ x acc => Json.marshalable x && acc) true (Data u).
End EventUser.

Module BreadcrumbValue.
Record t : Type := {
  Message : string;                 (* json:message *)
  Category : string;                (* json:category,omitempty *)
  Level : Level;                    (* json:level *)
  Type_ : string;                   (* json:type *)
  Data : gmap string value;         (* json:data,omitempty *)
  Timestamp : Time                  (* json:timestamp; the string
                                       crumb.Timestamp.Format(time.RFC3339) *)
}.
Definition marshal (b : t) : json :=
  object [ field "message" (JString (Message b));
           string_omitempty "category" (Category b);
           field "level" (JString (Level b));
           field "type" (JString (Type_ b));
           values_omitempty "data" (Data b);
           field "timestamp" (JTime RFC3339 (Timestamp b)) ].
Definition marshalable (b : t) : bool :=
  map_fold (fun _ x acc => Json.marshalable x && acc) true (Data b).
End BreadcrumbValue.

Module SDKInfo.
Record t : Type := {
  Name : string;                    (* json:name *)
  Version : string                  (* json:version *)
}.
Definition marshal (i : t) : json :=
  object [field "name" (JString (Name i)); field "version" (JString (Version i))].
End SDKInfo.

Module RequestInfo.
Record t : Type := {
  Method : string;                  (* json:method *)
  URL : string;                     (* json:url *)
  QueryString : string;             (* json:query_string,omitempty *)
  Headers : gmap string string;     (* json:headers,omitempty *)
  Data : value;                     (* json:data,omitempty *)
  Cookies : string;                 (* json:cookies,omitempty *)
  Env : gmap string string          (* json:env,omitempty *)
}.
Definition marshal (r : t) : json :=
  object [ field "method" (JString (Method r));
           field "url" (JString (URL r));
           string_omitempty "query_string" (QueryString r);
           strings_omitempty "headers" (Headers r);
           field_omitempty "data" (match Data r with VNil => true | _ => false end)
                           (of_value (Data r));
           string_omitempty "cookies" (Cookies r);
           strings_omitempty "env" (Env r) ].
Definition marshalable (r : t) : bool := Json.marshalable (Data r).
End RequestInfo.

Module Event.
Record t : Type := {
  EventID : string;                        (* json:event_id *)
  Timestamp : Time;                        (* json:timestamp *)
  Level : Level;                           (* json:level *)
  Platform : string;                       (* json:platform *)
  Message : string;                        (* json:message,omitempty *)
  Exception : list ExceptionValue.t;       (* json:exception,omitempty *)
  Contexts : gmap string value;            (* json:contexts,omitempty *)
  Tags : gmap string string;               (* json:tags,omitempty *)
  Extra : gmap string value;               (* json:extra,omitempty *)
  User : option EventUser.t;               (* json:user,omitempty *)
  Breadcrumbs : list BreadcrumbValue.t;    (* json:breadcrumbs,omitempty *)
  SDK : SDKInfo.t;                         (* json:sdk *)
  Environment : string;                    (* json:environment,omitempty *)
  Release : string;                        (* json:release,omitempty *)
  ServerName : string;                     (* json:server_name,omitempty *)
  Request : option RequestInfo.t           (* json:request,omitempty *)
}.

(** The document [json.Marshal] writes for an event: [time.Time] marshals as
    a string in the layout RFC3339Nano, [Level] as the string it is. *)
Definition marshal (e : t) : json :=
  object [ field "event_id" (JString (EventID e));
           field "timestamp" (JTime RFC3339Nano (Timestamp e));
           field "level" (JString (Level e));
           field "platform" (JString (Platform e));
           string_omitempty "message" (Message e);
           slice_omitempty "exception" ExceptionValue.marshal (Exception e);
           values_omitempty "contexts" (Contexts e);
           strings_omitempty "tags" (Tags e);
           values_omitempty "extra" (Extra e);
           pointer_omitempty "user" EventUser.marshal (User e);
           slice_omitempty "breadcrumbs" BreadcrumbValue.marshal (Breadcrumbs e);
           field "sdk" (SDKInfo.marshal (SDK e));
           string_omitempty "environment" (Environment e);
           string_omitempty "release" (Release e);
           string_omitempty "server_name" (ServerName e);
           pointer_omitempty "request" RequestInfo.marshal (Request e) ].

Definition all_marshalable (m : gmap string value) : bool :=
  map_fold (fun _ x acc => Json.marshalable x && acc) true m.

Definition marshalable (e : t) : bool :=
  year_in_range (Timestamp e)
  && forallb ExceptionValue.marshalable (Exception e)
  && all_marshalable (Contexts e)
  && all_marshalable (Extra e)
  && match User e with Some u => EventUser.marshalable u | None => true end
  && forallb BreadcrumbValue.marshalable (Breadcrumbs e)
  && match Request e with Some r => RequestInfo.marshalable r | None => true end.
End Event.

(** [json.Marshal(requestBody{Events: batch})]. *)
Definition Marshal (batch : list Event.t) : option json :=
  if forallb Event.marshalable batch
  then Some (object [field "events" (JArray (Event.marshal <$> batch))])
  else None.

(* --------------------------------------------------------------------- *)
(** *** HTTP transport (src/unnamed/part_003) *)
(* --------------------------------------------------------------------- *)

Module TransportOptions.
Record t : Type := {
  DSN : string;
  Timeout : Z;            (* time.Duration, nanoseconds *)
  MaxRetries : Z;
  RetryDelay : Z;         (* time.Duration *)
  BatchSize : Z;
  FlushPeriod : Z;        (* time.Duration *)
  Debug : bool
}.
End TransportOptions.

(** What one iteration of the retry loop meets. *)
Inductive reply : Type :=
| RequestError            (* http.NewRequest returned an error *)
| NetworkError            (* client.Do returned an error *)
| Status (code : Z).      (* a response arrived *)

(** How [sendBatch] returned. *)
Inductive outcome : Type :=
| NothingToSend           (* len(batch) == 0 *)
| MarshalFailed           (* json.Marshal returned an error *)
| Delivered               (* 200 or 202 *)
| Rejected (code : Z)     (* 4xx: not retried *)
| Abandoned.              (* the loop ran out of attempts *)

Record iteration : Type := {
  number : Z;             (* the loop variable, attempt *)
  slept : option Z;       (* the time.Sleep before it, if any *)
  got : reply
}.

Record report : Type := {
  attempts : list iteration;
  result_of : outcome
}.

(** Arithmetic on [int64] wraps around. *)
Definition wrap64 (z : Z) : Z := (z + 2 ^ 63) mod 2 ^ 64 - 2 ^ 63.

(** [t.options.RetryDelay * time.Duration(1<<attempt)]. *)
Definition backoff (retryDelay attempt : Z) : Z :=
  wrap64 (retryDelay * wrap64 (2 ^ attempt)).

Definition is_success (code : Z) : bool := (code =? 200)%Z || (code =? 202)%Z.
Definition is_client_error (code : Z) : bool := (400 <=? code)%Z && (code <? 500)%Z.

Definition cons_attempt (a : iteration) (r : report) : report :=
  {| attempts := a :: attempts r; result_of := result_of r |}.

(** Iteration [attempt] of the retry loop: the sleep before it (none before
    the first) and what it meets. *)
Definition attempt_at (retryDelay : Z) (net : Z -> reply) (attempt : Z) : iteration :=
  {| number := attempt;
     slept := if (0 <? attempt)%Z then Some (backoff retryDelay attempt) else None;
     got := net attempt |}.

(** The retry loop of [sendBatch], from iteration [attempt] with [remaining]
    iterations to go; [net] tells what iteration [i] meets. *)
Fixpoint retry (retryDelay : Z) (net : Z -> reply) (remaining : nat) (attempt : Z) : report :=
  match remaining with
  | O => {| attempts := []; result_of := Abandoned |}
  | S remaining' =>
      let this := attempt_at retryDelay net attempt in
      match net attempt with
      | Status code =>
          if is_success code then {| attempts := [this]; result_of := Delivered |}
          else if is_client_error code then {| attempts := [this]; result_of := Rejected code |}
          else cons_attempt this (retry retryDelay net remaining' (attempt + 1))
      | RequestError | NetworkError =>
          cons_attempt this (retry retryDelay net remaining' (attempt + 1))
      end
  end.

(** The replies after which the loop goes on: every one but a 200, a 202 and
    a 4xx. *)
Definition retried (r : reply) : bool :=
  match r with
  | Status code => negb (is_success code) && negb (is_client_error code)
  | RequestError | NetworkError => true
  end.

(** [HTTPTransport.sendBatch]. *)
Definition sendBatch (options : TransportOptions.t) (batch : list Event.t)
    (net : Z -> reply) : report :=
  match batch with
  | [] => {| attempts := []; result_of := NothingToSend |}
  | _ =>
      match Marshal batch with
      | None => {| attempts := []; result_of := MarshalFailed |}
      | Some _ =>
          retry (TransportOptions.RetryDelay options) net
                (Z.to_nat (TransportOptions.MaxRetries options)) 0
      end
  end.

(** Requests that reached [client.Do]. *)
Definition posted (r : report) : list iteration :=
  List.filter (fun a => match got a with RequestError => false | _ => true end) (attempts r).

Module HTTPTransport.
Import TransportOptions.

(** The transport together with its worker goroutine: [batch] is the
    worker's local slice, [exited] tells that the worker returned, and
    [sent] lists the batches [sendBatch] was called with and how each call
    went. *)
Record t : Type := {
  options : TransportOptions.t;
  queue_cap : nat;
  queue : list Event.t;
  done : bool;                       (* the done channel is closed *)
  batch : list Event.t;
  exited : bool;
  sent : list (list Event.t * report)
}.

Definition second : Z := 1000000000.

Definition or_default (x d : Z) : Z := if (x =? 0)%Z then d else x.

(** [NewHTTPTransport]: zero options take their defaults; the worker starts
    with an empty batch. *)
Definition NewHTTPTransport (o : TransportOptions.t) : t :=
  {| options :=
       {| DSN := DSN o;
          Timeout := or_default (Timeout o) (30 * second);
          MaxRetries := or_default (MaxRetries o) 3;
          RetryDelay := or_default (RetryDelay o) second;
          BatchSize := or_default (BatchSize o) 10;
          FlushPeriod := or_default (FlushPeriod o) (5 * second);
          Debug := Debug o |};
     queue_cap := 100;
     queue := [];
     done := false;
     batch := [];
     exited := false;
     sent := [] |}.

Definition with_queue (t0 : t) (q : list Event.t) : t :=
  {| options := options t0; queue_cap := queue_cap t0; queue := q; done := done t0;
     batch := batch t0; exited := exited t0; sent := sent t0 |}.

Definition with_batch (t0 : t) (b : list Event.t) : t :=
  {| options := options t0; queue_cap := queue_cap t0; queue := queue t0; done := done t0;
     batch := b; exited := exited t0; sent := sent t0 |}.

Definition with_done (t0 : t) (d : bool) : t :=
  {| options := options t0; queue_cap := queue_cap t0; queue := queue t0; done := d;
     batch := batch t0; exited := exited t0; sent := sent t0 |}.

Definition with_exited (t0 : t) (x : bool) : t :=
  {| options := options t0; queue_cap := queue_cap t0; queue := queue t0; done := done t0;
     batch := batch t0; exited := x; sent := sent t0 |}.

Definition with_sent (t0 : t) (s : list (list Event.t * report)) : t :=
  {| options := options t0; queue_cap := queue_cap t0; queue := queue t0; done := done t0;
     batch := batch t0; exited := exited t0; sent := s |}.

(** The batches handed to [sendBatch] so far, oldest first. *)
Definition batches (t0 : t) : list (list Event.t) := map fst (sent t0).

(** Two transports that differ at most in how their [sendBatch] calls went. *)
Definition same_pipeline (t1 t2 : t) : Prop :=
  options t1 = options t2 /\ queue_cap t1 = queue_cap t2 /\ queue t1 = queue t2
  /\ done t1 = done t2 /\ batch t1 = batch t2 /\ exited t1 = exited t2
  /\ batches t1 = batches t2.

(** [Send] queues an event. When both the queue and the closed [done]
    channel are ready, the [select] takes either; [pick_queue] is its choice. *)
Definition Send (pick_queue : bool) (t0 : t) (event : Event.t) : bool * t :=
  let can_queue := negb (chan_full (queue_cap t0) (queue t0)) in
  if can_queue && (negb (done t0) || pick_queue)
  then (true, with_queue t0 (queue t0 ++ [event]))
  else (false, t0).

(** A producer calling [Send] for each event in turn while the worker takes
    no step. *)
Fixpoint SendAll (pick_queue : bool) (t0 : t) (events : list Event.t) : list bool * t :=
  match events with
  | [] => ([], t0)
  | event :: events' =>
      let r := Send pick_queue t0 event in
      let rs := SendAll pick_queue (snd r) events' in
      (fst r :: fst rs, snd rs)
  end.

(** [Flush] polls the queue length until it is zero or the deadline passed. *)
Definition Flush (t0 : t) (timeout : Z) : t := t0.

(** A call [t.sendBatch(batch)] of the worker: the call's number selects
    what the network does. *)
Definition call_sendBatch (net : nat -> Z -> reply) (t0 : t) (batch : list Event.t) : t :=
  with_sent t0 (sent t0 ++ [(batch, sendBatch (options t0) batch (net (List.length (sent t0))))]).

(** The inner loop of the worker's [done] case. *)
Fixpoint drain (net : nat -> Z -> reply) (t0 : t) (pending : list Event.t)
    (batch : list Event.t) : t :=
  match pending with
  | event :: pending' =>
      let batch := batch ++ [event] in
      if (BatchSize (options t0) <=? Z.of_nat (List.length batch))%Z
      then drain net (call_sendBatch net t0 batch) pending' []
      else drain net t0 pending' batch
  | [] =>
      let t1 := if (0 <? List.length batch)%nat then call_sendBatch net t0 batch else t0 in
      with_exited (with_batch (with_queue t1 []) batch) true
  end.

(** One iteration of the worker's [for { select { ... } }]; [None] when the
    chosen case cannot proceed. *)
Definition worker_step (net : nat -> Z -> reply) (w : wake) (t0 : t) : option t :=
  if exited t0 then None
  else
    match w with
    | OnQueue =>
        match queue t0 with
        | [] => None
        | event :: rest =>
            let batch := batch t0 ++ [event] in
            if (BatchSize (options t0) <=? Z.of_nat (List.length batch))%Z
            then Some (with_batch (with_queue (call_sendBatch net t0 batch) rest) [])
            else Some (with_batch (with_queue t0 rest) batch)
        end
    | OnTimer =>
        if (0 <? List.length (batch t0))%nat
        then Some (with_batch (call_sendBatch net t0 (batch t0)) [])
        else Some t0
    | OnDone =>
        if done t0
        then
          (* Send remaining events: the batch is not reset afterwards. *)
          let t1 := if (0 <? List.length (batch t0))%nat
                    then call_sendBatch net t0 (batch t0) else t0 in
          Some (drain net t1 (queue t0) (batch t0))
        else None
    end.

Fixpoint worker (net : nat -> Z -> reply) (sched : list wake) (t0 : t) : t :=
  match sched with
  | [] => t0
  | w :: sched' =>
      match worker_step net w t0 with
      | Some t1 => worker net sched' t1
      | None => worker net sched' t0
      end
  end.

(** [Close]: [close(t.done)], then [t.wg.Wait()]; the timeout is not used.
    [sched] is what the worker still does before its [select] takes the
    [done] case. *)
Definition Close (net : nat -> Z -> reply) (sched : list wake) (t0 : t)
    (timeout : Z) : result t :=
  if done t0 then Panicked "close of closed channel"
  else Returned (worker net (sched ++ [OnDone]) (with_done t0 true)).

End HTTPTransport.

(** The time a send spent in [time.Sleep], which returns at once for a
    duration that is not positive. *)
Definition time_slept (r : report) : Z :=
  fold_right (fun a total => Z.max 0 (default 0 (slept a)) + total) 0 (attempts r).

(** [SyncTransport] sends events synchronously. *)
Module SyncTransport.
Import TransportOptions.

Record t : Type := {
  options : TransportOptions.t
}.

(** [NewSyncTransport]: a zero [Timeout] and a zero [MaxRetries] take their
    defaults; [RetryDelay] is kept as it is. *)
Definition NewSyncTransport (o : TransportOptions.t) : t :=
  {| options :=
       {| DSN := DSN o;
          Timeout := HTTPTransport.or_default (Timeout o) (30 * HTTPTransport.second);
          MaxRetries := HTTPTransport.or_default (MaxRetries o) 3;
          RetryDelay := RetryDelay o;
          BatchSize := BatchSize o;
          FlushPeriod := FlushPeriod o;
          Debug := Debug o |} |}.

(** [Send]: [false] when the event does not marshal; otherwise the retry
    loop, which is the loop of [HTTPTransport.sendBatch] without its logging,
    and [true] exactly when it ended on a 200 or a 202. The report tells what
    the loop did. *)
Definition Send (t0 : t) (event : Event.t) (net : Z -> reply) : bool * report :=
  if negb (Event.marshalable event)
  then (false, {| attempts := []; result_of := MarshalFailed |})
  else
    let r := retry (RetryDelay (options t0)) net (Z.to_nat (MaxRetries (options t0))) 0 in
    (match result_of r with Delivered => true | _ => false end, r).

(** [Flush] and [Close] are no-ops. *)
Definition Flush (t0 : t) (timeout : Z) : t := t0.

Definition Close (t0 : t) (timeout : Z) : t := t0.

End SyncTransport.

(* --------------------------------------------------------------------- *)
(** *** Scope, client and package-level calls (src/scope.go, src/unnamed/part_003) *)
(* --------------------------------------------------------------------- *)

(** [type Transport interface]. A method of a caller's own transport may
    panic. *)
Module Transport.
Class t (T : Type) : Type := {
  Send : T -> Event.t -> result (bool * T);
  Flush : T -> Z -> result T;
  Close : T -> Z -> result T
}.
End Transport.

(** The HTTP transport as a [Transport], for a choice of what its [select]s
    and the network do. *)
Definition HTTPTransport_Transport (pick_queue : bool) (net : nat -> Z -> reply)
    (sched : list wake) : Transport.t HTTPTransport.t :=
  {| Transport.Send t0 event := Returned (HTTPTransport.Send pick_queue t0 event);
     Transport.Flush t0 timeout := Returned (HTTPTransport.Flush t0 timeout);
     Transport.Close t0 timeout := HTTPTransport.Close net sched t0 timeout |}.

(** [MockTransport] of the package's tests. *)
Module MockTransport.
Record t : Type := {
  events : list Event.t;
  flushed : bool;
  closed : bool
}.
Definition NewMockTransport : t := {| events := []; flushed := false; closed := false |}.
End MockTransport.

#[global] Instance MockTransport_Transport : Transport.t MockTransport.t :=
  {| Transport.Send m event :=
       Returned (true, {| MockTransport.events := MockTransport.events m ++ [event];
                          MockTransport.flushed := MockTransport.flushed m;
                          MockTransport.closed := MockTransport.closed m |});
     Transport.Flush m timeout :=
       Returned {| MockTransport.events := MockTransport.events m;
                   MockTransport.flushed := true;
                   MockTransport.closed := MockTransport.closed m |};
     Transport.Close m timeout :=
       Returned {| MockTransport.events := MockTransport.events m;
                   MockTransport.flushed := MockTransport.flushed m;
                   MockTransport.closed := true |} |}.

Module User.
Record t : Type := {
  ID : string;
  Email : string;
  Username : string;
  IPAddr : string;
  Data : gmap string value
}.
End User.

Module Breadcrumb.
Record t : Type := {
  Message : string;
  Category : string;
  Level : Level;
  Type_ : string;
  Data : gmap string value;
  Timestamp : Time
}.
End Breadcrumb.

Module Scope.
Record t : Type := {
  user : option User.t;
  tags : gmap string string;
  extra : gmap string value;
  contexts : gmap string value;
  breadcrumbs : list Breadcrumb.t;
  maxBreadcrumbs : Z
}.

Definition NewScope : t :=
  {| user := None; tags := ∅; extra := ∅; contexts := ∅; breadcrumbs := [];
     maxBreadcrumbs := 100 |}.

Definition crumb_value (c : Breadcrumb.t) : BreadcrumbValue.t :=
  {| BreadcrumbValue.Message := Breadcrumb.Message c;
     BreadcrumbValue.Category := Breadcrumb.Category c;
     BreadcrumbValue.Level := Breadcrumb.Level c;
     BreadcrumbValue.Type_ := Breadcrumb.Type_ c;
     BreadcrumbValue.Data := Breadcrumb.Data c;
     BreadcrumbValue.Timestamp := Breadcrumb.Timestamp c |}.

(** [ApplyToEvent]: the scope's entries overwrite the event's. *)
Definition ApplyToEvent (s : t) (e : Event.t) : Event.t :=
  {| Event.EventID := Event.EventID e;
     Event.Timestamp := Event.Timestamp e;
     Event.Level := Event.Level e;
     Event.Platform := Event.Platform e;
     Event.Message := Event.Message e;
     Event.Exception := Event.Exception e;
     Event.Contexts := contexts s ∪ Event.Contexts e;
     Event.Tags := tags s ∪ Event.Tags e;
     Event.Extra := extra s ∪ Event.Extra e;
     Event.User :=
       match user s with
       | Some u =>
           Some {| EventUser.ID := User.ID u; EventUser.Email := User.Email u;
                   EventUser.Username := User.Username u; EventUser.IPAddr := User.IPAddr u;
                   EventUser.Data := User.Data u |}
       | None => Event.User e
       end;
     Event.Breadcrumbs := Event.Breadcrumbs e ++ (crumb_value <$> breadcrumbs s);
     Event.SDK := Event.SDK e;
     Event.Environment := Event.Environment e;
     Event.Release := Event.Release e;
     Event.ServerName := Event.ServerName e;
     Event.Request := Event.Request e |}.

(** The methods that change a scope. The record carries the fields that
    [ApplyToEvent] and [AddBreadcrumb] read; [transaction] and [fingerprint],
    which [SetTransaction], [SetFingerprint], [Clear] and [Clone] write and
    nothing reads, are left out. *)
Definition with_user (s : t) (u : option User.t) : t :=
  {| user := u; tags := tags s; extra := extra s; contexts := contexts s;
     breadcrumbs := breadcrumbs s; maxBreadcrumbs := maxBreadcrumbs s |}.

Definition with_tags (s : t) (tgs : gmap string string) : t :=
  {| user := user s; tags := tgs; extra := extra s; contexts := contexts s;
     breadcrumbs := breadcrumbs s; maxBreadcrumbs := maxBreadcrumbs s |}.

Definition with_extra (s : t) (ext : gmap string value) : t :=
  {| user := user s; tags := tags s; extra := ext; contexts := contexts s;
     breadcrumbs := breadcrumbs s; maxBreadcrumbs := maxBreadcrumbs s |}.

Definition with_contexts (s : t) (ctxs : gmap string value) : t :=
  {| user := user s; tags := tags s; extra := extra s; contexts := ctxs;
     breadcrumbs := breadcrumbs s; maxBreadcrumbs := maxBreadcrumbs s |}.

Definition with_breadcrumbs (s : t) (crumbs : list Breadcrumb.t) : t :=
  {| user := user s; tags := tags s; extra := extra s; contexts := contexts s;
     breadcrumbs := crumbs; maxBreadcrumbs := maxBreadcrumbs s |}.

Definition with_maxBreadcrumbs (s : t) (n : Z) : t :=
  {| user := user s; tags := tags s; extra := extra s; contexts := contexts s;
     breadcrumbs := breadcrumbs s; maxBreadcrumbs := n |}.

Definition SetUser (s : t) (u : User.t) : t := with_user s (Some u).

Definition ClearUser (s : t) : t := with_user s None.

Definition SetTag (s : t) (key val : string) : t := with_tags s (<[key := val]> (tags s)).

Definition SetTags (s : t) (tgs : gmap string string) : t := with_tags s (tgs ∪ tags s).

Definition RemoveTag (s : t) (key : string) : t := with_tags s (delete key (tags s)).

Definition SetExtra (s : t) (key : string) (val : value) : t :=
  with_extra s (<[key := val]> (extra s)).

(** [SetContext]: a nil map is stored as it is and marshals as null. *)
Definition SetContext (s : t) (key : string) (val : option (gmap string value)) : t :=
  with_contexts s
    (<[key := match val with Some m => VMap m | None => VNilMap end]> (contexts s)).

(** [AddBreadcrumb]: the crumb gets the time [now], the level info and the
    type default where it has none; it is appended, and the list is cut to
    its last [maxBreadcrumbs] elements. The slice expression panics when its
    lower bound is not within the list. *)
Definition AddBreadcrumb (s : t) (now : Time) (crumb : Breadcrumb.t) : result t :=
  let crumb :=
    {| Breadcrumb.Message := Breadcrumb.Message crumb;
       Breadcrumb.Category := Breadcrumb.Category crumb;
       Breadcrumb.Level :=
         if is_empty_string (Breadcrumb.Level crumb) then LevelInfo
         else Breadcrumb.Level crumb;
       Breadcrumb.Type_ :=
         if is_empty_string (Breadcrumb.Type_ crumb) then "default"
         else Breadcrumb.Type_ crumb;
       Breadcrumb.Data := Breadcrumb.Data crumb;
       Breadcrumb.Timestamp :=
         if IsZero (Breadcrumb.Timestamp crumb) then now else Breadcrumb.Timestamp crumb |} in
  let crumbs := breadcrumbs s ++ [crumb] in
  let len := Z.of_nat (List.length crumbs) in
  if (maxBreadcrumbs s <? len)%Z
  then
    let low := wrap64 (len - maxBreadcrumbs s) in
    if (0 <=? low)%Z && (low <=? len)%Z
    then Returned (with_breadcrumbs s (skipn (Z.to_nat low) crumbs))
    else Panicked "slice bounds out of range"
  else Returned (with_breadcrumbs s crumbs).

Definition ClearBreadcrumbs (s : t) : t := with_breadcrumbs s [].

(** [Clear] empties the scope; the breadcrumb limit stays. *)
Definition Clear (s : t) : t :=
  {| user := None; tags := ∅; extra := ∅; contexts := ∅; breadcrumbs := [];
     maxBreadcrumbs := maxBreadcrumbs s |}.

End Scope.

(** An [error] value: what [getErrorType] and [Error()] give for it. *)
Record GoError : Type := {
  error_type : string;
  error_text : string
}.

(** What a capture call reads from the process. *)
Record Ambient : Type := {
  rand_Float64 : float;                 (* rand.Float64() *)
  fresh_EventID : string;               (* generateEventID() *)
  time_Now : Time;                      (* time.Now().UTC() *)
  stack : Stacktrace.t;                 (* captureStacktrace(3) *)
  runtimeInfo : gmap string value       (* getRuntimeInfo() *)
}.

Definition NewEvent (amb : Ambient) : Event.t :=
  {| Event.EventID := fresh_EventID amb;
     Event.Timestamp := time_Now amb;
     Event.Level := LevelError;
     Event.Platform := "go";
     Event.Message := EmptyString;
     Event.Exception := [];
     Event.Contexts := ∅;
     Event.Tags := ∅;
     Event.Extra := ∅;
     Event.User := None;
     Event.Breadcrumbs := [];
     Event.SDK := {| SDKInfo.Name := "statly-observe-go"; SDKInfo.Version := Version |};
     Event.Environment := EmptyString;
     Event.Release := EmptyString;
     Event.ServerName := EmptyString;
     Event.Request := None |}.

Module Options.
Record t : Type := {
  DSN : string;
  Environment : string;
  Release : string;
  Debug : bool;
  SampleRate : float;
  MaxBreadcrumbs : Z;
  BeforeSend : option (Event.t -> result (option Event.t));
  ServerName : string;
  FlushTimeout : Z
}.
End Options.

Module Client.
Section WithTransport.
Context {T : Type} `{Transport.t T}.

Record t : Type := {
  options : Options.t;
  transport : T;
  scope : Scope.t
}.

Definition with_transport (c : t) (tr : T) : t :=
  {| options := options c; transport := tr; scope := scope c |}.

(** The event of a capture call before the scope is applied. *)
Definition prepare (c : t) (amb : Ambient) (e : Event.t) (ctx : option (gmap string value))
  : Event.t :=
  {| Event.EventID := Event.EventID e;
     Event.Timestamp := Event.Timestamp e;
     Event.Level := Event.Level e;
     Event.Platform := Event.Platform e;
     Event.Message := Event.Message e;
     Event.Exception := Event.Exception e;
     Event.Contexts := <["runtime" := VMap (runtimeInfo amb)]> (Event.Contexts e);
     Event.Tags := Event.Tags e;
     Event.Extra := match ctx with Some m => m ∪ Event.Extra e | None => Event.Extra e end;
     Event.User := Event.User e;
     Event.Breadcrumbs := Event.Breadcrumbs e;
     Event.SDK := Event.SDK e;
     Event.Environment := Options.Environment (options c);
     Event.Release := Options.Release (options c);
     Event.ServerName := Options.ServerName (options c);
     Event.Request := Event.Request e |}.

Definition sendEvent (c : t) (event : Event.t) : result (string * t) :=
  kept <- match Options.BeforeSend (options c) with
          | Some before => before event
          | None => Returned (Some event)
          end ;;
  match kept with
  | None => Returned (EmptyString, c)
  | Some event =>
      sent <- Transport.Send (transport c) event ;;
      Returned (if fst sent then Event.EventID event else EmptyString,
                with_transport c (snd sent))
  end.

Definition NewExceptionEvent (amb : Ambient) (err : GoError) : Event.t :=
  let e := NewEvent amb in
  {| Event.EventID := Event.EventID e;
     Event.Timestamp := Event.Timestamp e;
     Event.Level := LevelError;
     Event.Platform := Event.Platform e;
     Event.Message := Event.Message e;
     Event.Exception :=
       [ {| ExceptionValue.Type_ := error_type err;
            ExceptionValue.Value := error_text err;
            ExceptionValue.Module_ := EmptyString;
            ExceptionValue.Stacktrace := Some (stack amb);
            ExceptionValue.Mechanism :=
              Some {| Mechanism.Type_ := "generic"; Mechanism.Handled := true |} |} ];
     Event.Contexts := Event.Contexts e;
     Event.Tags := Event.Tags e;
     Event.Extra := Event.Extra e;
     Event.User := Event.User e;
     Event.Breadcrumbs := Event.Breadcrumbs e;
     Event.SDK := Event.SDK e;
     Event.Environment := Event.Environment e;
     Event.Release := Event.Release e;
     Event.ServerName := Event.ServerName e;
     Event.Request := Event.Request e |}.

Definition NewMessageEvent (amb : Ambient) (message : string) (level : Level) : Event.t :=
  let e := NewEvent amb in
  {| Event.EventID := Event.EventID e;
     Event.Timestamp := Event.Timestamp e;
     Event.Level := level;
     Event.Platform := Event.Platform e;
     Event.Message := message;
     Event.Exception := Event.Exception e;
     Event.Contexts := Event.Contexts e;
     Event.Tags := Event.Tags e;
     Event.Extra := Event.Extra e;
     Event.User := Event.User e;
     Event.Breadcrumbs := Event.Breadcrumbs e;
     Event.SDK := Event.SDK e;
     Event.Environment := Event.Environment e;
     Event.Release := Event.Release e;
     Event.ServerName := Event.ServerName e;
     Event.Request := Event.Request e |}.

Definition CaptureExceptionWithContext (c : t) (amb : Ambient) (err : option GoError)
    (ctx : option (gmap string value)) : result (string * t) :=
  match err with
  | None => Returned (EmptyString, c)
  | Some err =>
      if PrimFloat.ltb (Options.SampleRate (options c)) (rand_Float64 amb)
      then Returned (EmptyString, c)
      else sendEvent c (Scope.ApplyToEvent (scope c)
                          (prepare c amb (NewExceptionEvent amb err) ctx))
  end.

Definition CaptureException (c : t) (amb : Ambient) (err : option GoError)
  : result (string * t) :=
  CaptureExceptionWithContext c amb err None.

Definition CaptureMessageWithContext (c : t) (amb : Ambient) (message : string)
    (level : Level) (ctx : option (gmap string value)) : result (string * t) :=
  if PrimFloat.ltb (Options.SampleRate (options c)) (rand_Float64 amb)
  then Returned (EmptyString, c)
  else sendEvent c (Scope.ApplyToEvent (scope c)
                      (prepare c amb (NewMessageEvent amb message level) ctx)).

Definition CaptureMessage (c : t) (amb : Ambient) (message : string) (level : Level)
  : result (string * t) :=
  CaptureMessageWithContext c amb message level None.

Definition Flush (c : t) : result t :=
  tr <- Transport.Flush (transport c) (Options.FlushTimeout (options c)) ;;
  Returned (with_transport c tr).

Definition Close (c : t) : result t :=
  tr <- Transport.Close (transport c) (Options.FlushTimeout (options c)) ;;
  Returned (with_transport c tr).

Definition with_scope (c : t) (s : Scope.t) : t :=
  {| options := options c; transport := transport c; scope := s |}.

Definition SetUser (c : t) (u : User.t) : t := with_scope c (Scope.SetUser (scope c) u).

Definition SetTag (c : t) (key val : string) : t :=
  with_scope c (Scope.SetTag (scope c) key val).

Definition SetTags (c : t) (tgs : gmap string string) : t :=
  with_scope c (Scope.SetTags (scope c) tgs).

Definition SetExtra (c : t) (key : string) (val : value) : t :=
  with_scope c (Scope.SetExtra (scope c) key val).

Definition AddBreadcrumb (c : t) (now : Time) (crumb : Breadcrumb.t) : result t :=
  s <- Scope.AddBreadcrumb (scope c) now crumb ;;
  Returned (with_scope c s).

End WithTransport.
Arguments t T : clear implicits.
End Client.

(** The package-level calls act on [globalClient], which is [nil] before
    [Init] and after [Close]. *)
Section Package.
Context {T : Type} `{Transport.t T}.

Definition globalClient : Type := option (Client.t T).

Definition on_client (g : globalClient) (call : Client.t T -> result (string * Client.t T))
  : result (string * globalClient) :=
  match g with
  | None => Returned (EmptyString, None)
  | Some client =>
      r <- call client ;;
      Returned (fst r, Some (snd r))
  end.

Definition CaptureException (g : globalClient) (amb : Ambient) (err : option GoError)
  : result (string * globalClient) :=
  on_client g (fun client => Client.CaptureException client amb err).

Definition CaptureExceptionWithContext (g : globalClient) (amb : Ambient)
    (err : option GoError) (ctx : option (gmap string value))
  : result (string * globalClient) :=
  on_client g (fun client => Client.CaptureExceptionWithContext client amb err ctx).

Definition CaptureMessage (g : globalClient) (amb : Ambient) (message : string)
    (level : Level) : result (string * globalClient) :=
  on_client g (fun client => Client.CaptureMessage client amb message level).

Definition CaptureMessageWithContext (g : globalClient) (amb : Ambient) (message : string)
    (level : Level) (ctx : option (gmap string value)) : result (string * globalClient) :=
  on_client g (fun client => Client.CaptureMessageWithContext client amb message level ctx).

(** [Close] closes the SDK: the client's transport is closed, then
    [globalClient] is set to [nil]. *)
Definition Close (g : globalClient) : result globalClient :=
  match g with
  | None => Returned None
  | Some client =>
      _ <- Client.Close client ;;
      Returned None
  end.

(** The package-level calls that change the scope do nothing without a
    client. *)
Definition SetUser (g : globalClient) (u : User.t) : globalClient :=
  match g with
  | None => None
  | Some client => Some (Client.SetUser client u)
  end.

Definition SetTag (g : globalClient) (key val : string) : globalClient :=
  match g with
  | None => None
  | Some client => Some (Client.SetTag client key val)
  end.

Definition SetTags (g : globalClient) (tgs : gmap string string) : globalClient :=
  match g with
  | None => None
  | Some client => Some (Client.SetTags client tgs)
  end.

Definition SetExtra (g : globalClient) (key : string) (val : value) : globalClient :=
  match g with
  | None => None
  | Some client => Some (Client.SetExtra client key val)
  end.

Definition AddBreadcrumb (g : globalClient) (now : Time) (crumb : Breadcrumb.t)
  : result globalClient :=
  match g with
  | None => Returned None
  | Some client =>
      client' <- Client.AddBreadcrumb client now crumb ;;
      Returned (Some client')
  end.

Definition Flush (g : globalClient) : result globalClient :=
  match g with
  | None => Returned None
  | Some client =>
      client' <- Client.Flush client ;;
      Returned (Some client')
  end.

Definition GetClient (g : globalClient) : option (Client.t T) := g.

End Package.

(** Common errors returned by the SDK (src/errors.go). *)
Definition ErrMissingDSN : string := "statly: DSN is required".
Definition ErrNotInitialized : string := "statly: SDK not initialized, call Init() first".
Definition ErrAlreadyInitialized : string :=
  "statly: SDK already initialized, call Close() first".

(** The error [Init] returns when it finds no DSN. *)
Definition no_DSN_provided : string :=
  "statly: no DSN provided. Set STATLY_DSN environment variable or pass DSN in options.
Get your DSN at https://statly.live/dashboard/observe/setup".

(** [loadDSNFromEnv] and [loadEnvironmentFromEnv]. *)
Definition loadDSNFromEnv (env : Env) : string :=
  if negb (is_empty_string (env "STATLY_DSN")) then env "STATLY_DSN"
  else env "STATLY_OBSERVE_DSN".

Definition loadEnvironmentFromEnv (env : Env) : string :=
  if negb (is_empty_string (env "STATLY_ENVIRONMENT")) then env "STATLY_ENVIRONMENT"
  else if negb (is_empty_string (env "GO_ENV")) then env "GO_ENV"
  else env "APP_ENV".

(** [getHostname], given what [os.Hostname] returns ([None] for an error). *)
Definition getHostname (hostname : option string) : string := default "unknown" hostname.

(** A client's transport is the one given in [Options.Transport] or, when
    that is nil, a new HTTP transport. *)
Section NewClient.
Context {T : Type} `{Transport.t T}.
Variables (pick_queue : bool) (net : nat -> Z -> reply) (sched : list wake).

#[local] Instance chosen_Transport : Transport.t (T + HTTPTransport.t) :=
  {| Transport.Send tr event :=
       match tr with
       | inl custom =>
           r <- Transport.Send custom event ;;
           Returned (fst r, inl (snd r))
       | inr http =>
           Returned (fst (HTTPTransport.Send pick_queue http event),
                     inr (snd (HTTPTransport.Send pick_queue http event)))
       end;
     Transport.Flush tr timeout :=
       match tr with
       | inl custom => custom' <- Transport.Flush custom timeout ;; Returned (inl custom')
       | inr http => Returned (inr (HTTPTransport.Flush http timeout))
       end;
     Transport.Close tr timeout :=
       match tr with
       | inl custom => custom' <- Transport.Close custom timeout ;; Returned (inl custom')
       | inr http => http' <- HTTPTransport.Close net sched http timeout ;; Returned (inr http')
       end |}.

(** [NewClient]: an error without a DSN; a zero [SampleRate],
    [MaxBreadcrumbs], [FlushTimeout] and an empty [ServerName] take their
    defaults; the scope gets the breadcrumb limit. [custom] is
    [options.Transport]. *)
Definition NewClient (options : Options.t) (custom : option T) (hostname : option string)
  : string + Client.t (T + HTTPTransport.t) :=
  if is_empty_string (Options.DSN options) then inl ErrMissingDSN
  else
    let options :=
      {| Options.DSN := Options.DSN options;
         Options.Environment := Options.Environment options;
         Options.Release := Options.Release options;
         Options.Debug := Options.Debug options;
         Options.SampleRate :=
           if PrimFloat.eqb (Options.SampleRate options) 0%float then 1%float
           else Options.SampleRate options;
         Options.MaxBreadcrumbs := HTTPTransport.or_default (Options.MaxBreadcrumbs options) 100;
         Options.BeforeSend := Options.BeforeSend options;
         Options.ServerName :=
           if is_empty_string (Options.ServerName options) then getHostname hostname
           else Options.ServerName options;
         Options.FlushTimeout :=
           HTTPTransport.or_default (Options.FlushTimeout options) (5 * HTTPTransport.second) |} in
    inr {| Client.options := options;
           Client.transport :=
             match custom with
             | Some transport => inl transport
             | None =>
                 inr (HTTPTransport.NewHTTPTransport
                        {| TransportOptions.DSN := Options.DSN options;
                           TransportOptions.Timeout := 30 * HTTPTransport.second;
                           TransportOptions.MaxRetries := 0;
                           TransportOptions.RetryDelay := 0;
                           TransportOptions.BatchSize := 0;
                           TransportOptions.FlushPeriod := 0;
                           TransportOptions.Debug := Options.Debug options |})
             end;
           Client.scope :=
             Scope.with_maxBreadcrumbs Scope.NewScope (Options.MaxBreadcrumbs options) |}.

(** [Init]: an error when the SDK is initialized already or no DSN is given
    or found in the environment; otherwise [globalClient] is the new
    client. *)
Definition Init (g : globalClient (T := T + HTTPTransport.t)) (env : Env)
    (hostname : option string) (options : Options.t) (custom : option T)
  : option string * globalClient (T := T + HTTPTransport.t) :=
  match g with
  | Some _ => (Some "statly: SDK already initialized, call Close() first", g)
  | None =>
      let dsn :=
        if is_empty_string (Options.DSN options) then loadDSNFromEnv env
        else Options.DSN options in
      if is_empty_string dsn
      then (Some no_DSN_provided, None)
      else
        let environment :=
          if is_empty_string (Options.Environment options) then loadEnvironmentFromEnv env
          else Options.Environment options in
        match NewClient
                {| Options.DSN := dsn;
                   Options.Environment := environment;
                   Options.Release := Options.Release options;
                   Options.Debug := Options.Debug options;
                   Options.SampleRate := Options.SampleRate options;
                   Options.MaxBreadcrumbs := Options.MaxBreadcrumbs options;
                   Options.BeforeSend := Options.BeforeSend options;
                   Options.ServerName := Options.ServerName options;
                   Options.FlushTimeout := Options.FlushTimeout options |}
                custom hostname with
        | inl err => (Some err, None)
        | inr client => (None, Some client)
        end
  end.

End NewClient.

End Statly.

(* ===================================================================== *)
(** ** Package middleware (src/unnamed/part_004) *)
(* ===================================================================== *)

Module Middleware.

(** What [extractRequestInfo] reads of an [*http.Request]. *)
Record Request : Type := {
  Method : string;
  URL_String : string;                  (* r.URL.String() *)
  URL_Path : string;
  URL_RawQuery : string;
  Host : string;
  RemoteAddr : string;
  Header : gmap string (list string)    (* http.Header *)
}.

Definition sensitiveHeaders : gset string :=
  list_to_set ["authorization"; "cookie"; "x-api-key"; "x-auth-token"].

Section WithStrings.
Context `{StringsPkg}.

(** The body of the loop over [r.Header]: what [headers[key]] is set to, if
    it is set. *)
Definition sanitize (key : string) (values : list string) : option string :=
  if bool_decide (ToLower key ∈ sensitiveHeaders) then Some "[Filtered]"
  else if (0 <? List.length values)%nat then head values
  else None.

(** [extractRequestInfo]. *)
Definition extractRequestInfo (r : Request) : gmap string value :=
  let info : gmap string value :=
    list_to_map
      [ ("method", VString (Method r));
        ("url", VString (URL_String r));
        ("path", VString (URL_Path r));
        ("query_string", VString (URL_RawQuery r));
        ("host", VString (Host r));
        ("remote_addr", VString (RemoteAddr r)) ] in
  let headers : gmap string string := map_imap sanitize (Header r) in
  <["headers" := VOther (OStringMap headers)]> info.

End WithStrings.

(** A call on an [http.ResponseWriter]. *)
Inductive call : Type :=
| WriteHeader_ (code : Z)
| Write_ (b : string).

(** [responseWriter] wraps a response writer to capture the status code;
    [ResponseWriter] lists the calls passed on to the wrapped writer. *)
Record responseWriter : Type := {
  ResponseWriter : list call;
  statusCode : Z;
  written : bool
}.

Definition StatusOK : Z := 200.

(** [&responseWriter{ResponseWriter: w, statusCode: http.StatusOK}]. *)
Definition wrap : responseWriter :=
  {| ResponseWriter := []; statusCode := StatusOK; written := false |}.

Definition WriteHeader (w : responseWriter) (code : Z) : responseWriter :=
  {| ResponseWriter := ResponseWriter w ++ [WriteHeader_ code];
     statusCode := if negb (written w) then code else statusCode w;
     written := true |}.

Definition Write (w : responseWriter) (b : string) : responseWriter :=
  {| ResponseWriter := ResponseWriter w ++ [Write_ b];
     statusCode := statusCode w;
     written := true |}.

(** A handler's calls on the writer, in turn. *)
Definition serve (w : responseWriter) (calls : list call) : responseWriter :=
  fold_left (fun w c => match c with
                        | WriteHeader_ code => WriteHeader w code
                        | Write_ b => Write w b
                        end) calls w.

(** The level [RequestLogger] gives the response breadcrumb. *)
Definition response_level (w : responseWriter) : Statly.Level :=
  if (400 <=? statusCode w)%Z then Statly.LevelError else Statly.LevelInfo.

End Middleware.

(* ===================================================================== *)
(** ** Sample values *)
(* ===================================================================== *)

Module Samples.

(** 2023-11-14T22:13:20Z. *)
Definition now : Time := 1700000000000000000.

Definition entry (level : Logger.Level) (message : string) : Logger.Entry.t :=
  {| Logger.Entry.Level := level;
     Logger.Entry.Message := message;
     Logger.Entry.Timestamp := now;
     Logger.Entry.LoggerName := "default";
     Logger.Entry.Context := Some ∅;
     Logger.Entry.Tags := Some ∅;
     Logger.Entry.Source := None;
     Logger.Entry.TraceID := EmptyString;
     Logger.Entry.SpanID := EmptyString;
     Logger.Entry.SessionID := "0b9f3f5e-6c1d-4a53-9a7e-2f1f1c6f9f10";
     Logger.Entry.Environment := EmptyString;
     Logger.Entry.Release := EmptyString;
     Logger.Entry.SDKName := "statly-observe-go";
     Logger.Entry.SDKVersion := "0.2.0" |}.

(** Entries told apart by their message: one letter each. *)
Definition letter (i : nat) : string := String (ascii_of_nat (65 + i)) EmptyString.

Definition entries (level : Logger.Level) (n : nat) : list Logger.Entry.t :=
  map (fun i => entry level (letter i)) (seq 0 n).

Definition ambient (id : string) : Statly.Ambient :=
  {| Statly.rand_Float64 := 0.5%float;
     Statly.fresh_EventID := id;
     Statly.time_Now := now;
     Statly.stack := {| Statly.Stacktrace.Frames := None |};
     Statly.runtimeInfo := {[ "name" := VString "Go" ]} |}.

Definition event (id : string) : Statly.Event.t := Statly.NewEvent (ambient id).

Definition events (n : nat) : list Statly.Event.t :=
  map (fun i => event (letter i)) (seq 0 n).

Definition options : Statly.TransportOptions.t :=
  {| Statly.TransportOptions.DSN := "https://sk_live_xxx@statly.live/acme";
     Statly.TransportOptions.Timeout := 0;
     Statly.TransportOptions.MaxRetries := 0;
     Statly.TransportOptions.RetryDelay := 0;
     Statly.TransportOptions.BatchSize := 0;
     Statly.TransportOptions.FlushPeriod := 0;
     Statly.TransportOptions.Debug := false |}.

Definition options_with_batch (size : Z) : Statly.TransportOptions.t :=
  {| Statly.TransportOptions.DSN := "https://sk_live_xxx@statly.live/acme";
     Statly.TransportOptions.Timeout := 0;
     Statly.TransportOptions.MaxRetries := 0;
     Statly.TransportOptions.RetryDelay := 0;
     Statly.TransportOptions.BatchSize := size;
     Statly.TransportOptions.FlushPeriod := 0;
     Statly.TransportOptions.Debug := false |}.

Definition observe_config (size : Z) : Logger.ObserveConfig.t :=
  {| Logger.ObserveConfig.Enabled := true;
     Logger.ObserveConfig.BatchSize := size;
     Logger.ObserveConfig.FlushInterval := 5 * Logger.ObserveDestination.second;
     Logger.ObserveConfig.Sampling := ∅ |}.

Definition client_options : Statly.Options.t :=
  {| Statly.Options.DSN := "https://sk_test_xxx@statly.live/test";
     Statly.Options.Environment := "test";
     Statly.Options.Release := "1.0.0";
     Statly.Options.Debug := false;
     Statly.Options.SampleRate := 1.0%float;
     Statly.Options.MaxBreadcrumbs := 100;
     Statly.Options.BeforeSend := None;
     Statly.Options.ServerName := "host";
     Statly.Options.FlushTimeout := 5 * Statly.HTTPTransport.second |}.

(** A client over the tests' mock transport. *)
Definition client : Statly.Client.t Statly.MockTransport.t :=
  {| Statly.Client.options := client_options;
     Statly.Client.transport := Statly.MockTransport.NewMockTransport;
     Statly.Client.scope := Statly.Scope.NewScope |}.

(** The same options with another breadcrumb limit. *)
Definition client_options_with_breadcrumbs (limit : Z) : Statly.Options.t :=
  {| Statly.Options.DSN := "https://sk_test_xxx@statly.live/test";
     Statly.Options.Environment := "test";
     Statly.Options.Release := "1.0.0";
     Statly.Options.Debug := false;
     Statly.Options.SampleRate := 1.0%float;
     Statly.Options.MaxBreadcrumbs := limit;
     Statly.Options.BeforeSend := None;
     Statly.Options.ServerName := "host";
     Statly.Options.FlushTimeout := 5 * Statly.HTTPTransport.second |}.

(** A client over the HTTP transport whose queue holds a hundred events. *)
Definition busy_client : Statly.Client.t Statly.HTTPTransport.t :=
  {| Statly.Client.options := client_options;
     Statly.Client.transport :=
       Statly.HTTPTransport.with_queue (Statly.HTTPTransport.NewHTTPTransport options)
         (events 100);
     Statly.Client.scope := Statly.Scope.NewScope |}.

(** A log file rotated by size, of which two rotated files are kept. *)
Definition file_config : Logger.FileConfig.t :=
  {| Logger.FileConfig.Enabled := true;
     Logger.FileConfig.Path := "/var/log/app.log";
     Logger.FileConfig.Format := "json";
     Logger.FileConfig.RotationType := "size";
     Logger.FileConfig.MaxSize := "10MB";
     Logger.FileConfig.MaxFiles := 2;
     Logger.FileConfig.RotationInterval := EmptyString;
     Logger.FileConfig.RetentionDays := 0;
     Logger.FileConfig.Compress := false |}.

(** [url.Parse] at the URLs of the examples: a DSN, the endpoint derived
    from it, a DSN written without its scheme (a path, to [url.Parse]), and
    the endpoint derived from that, which has no scheme and is refused. *)
#[global] Instance urls : UrlPkg :=
  {| url_Parse u :=
       if String.eqb u "https://sk_live_xxx@statly.live/acme" then Some ("https", "statly.live")
       else if String.eqb u "https://statly.live/api/v1/logs/ingest"
            then Some ("https", "statly.live")
       else if String.eqb u "sk_live_xxx@statly.live/acme" then Some (EmptyString, EmptyString)
       else None |}.

(** A peer that answers every request with the same status. *)
Definition always (code : Z) : Z -> Statly.reply := fun _ => Statly.Status code.

(** A peer that answers 503 to the first two attempts and 200 from then on. *)
Definition recovering : Z -> Statly.reply :=
  fun attempt => if (attempt <? 2)%Z then Statly.Status 503 else Statly.Status 200.

(** A destination of the caller's own that keeps the entries it is given. *)
Record recorder : Type := {
  recorder_name : string;
  recorded : list Logger.Entry.t;
  recorder_closed : bool
}.

#[global] Instance recorder_Destination : Logger.Destination.t recorder :=
  {| Logger.Destination.Name r := recorder_name r;
     Logger.Destination.Write r entry :=
       Returned {| recorder_name := recorder_name r; recorded := recorded r ++ [entry];
                   recorder_closed := recorder_closed r |};
     Logger.Destination.Flush r := Returned r;
     Logger.Destination.Close r :=
       Returned {| recorder_name := recorder_name r; recorded := recorded r;
                   recorder_closed := true |} |}.

(** Every destination a logger asks for is a recorder named after its
    kind. *)
Definition start (c : Logger.created) : recorder :=
  {| recorder_name := match c with
                      | Logger.ConsoleFor _ => "console"
                      | Logger.FileFor _ => "file"
                      | Logger.ObserveFor _ _ => "observe"
                      end;
     recorded := [];
     recorder_closed := false |}.

Definition no_env : Env := fun _ => EmptyString.

Definition logger_config (level : Logger.Level) : Logger.Config.t :=
  {| Logger.Config.DSN := EmptyString;
     Logger.Config.Level := level;
     Logger.Config.Name := "my-app";
     Logger.Config.Environment := "production";
     Logger.Config.Release := EmptyString;
     Logger.Config.Console := None;
     Logger.Config.File := None;
     Logger.Config.Observe := None;
     Logger.Config.Scrubbing := None;
     Logger.Config.Context := None;
     Logger.Config.Tags := None |}.

Definition logger (level : Logger.Level) : Logger.Logger recorder :=
  Logger.New start no_env "0b9f3f5e-6c1d-4a53-9a7e-2f1f1c6f9f10" (logger_config level).

Definition runtime : Logger.Runtime :=
  {| Logger.time_Now := now;
     Logger.caller :=
       Some {| Logger.caller_file := "/srv/app/main.go"; Logger.caller_line := 42;
               Logger.caller_func := Some "acme/app.Server.handle" |} |}.

Definition crumb (message : string) : Statly.Breadcrumb.t :=
  {| Statly.Breadcrumb.Message := message;
     Statly.Breadcrumb.Category := EmptyString;
     Statly.Breadcrumb.Level := EmptyString;
     Statly.Breadcrumb.Type_ := EmptyString;
     Statly.Breadcrumb.Data := ∅;
     Statly.Breadcrumb.Timestamp := zero_Time |}.

Definition request : Middleware.Request :=
  {| Middleware.Method := "GET";
     Middleware.URL_String := "/users?id=7";
     Middleware.URL_Path := "/users";
     Middleware.URL_RawQuery := "id=7";
     Middleware.Host := "example.com";
     Middleware.RemoteAddr := "10.0.0.1:5000";
     Middleware.Header :=
       {[ "Authorization" := ["Bearer abc"]; "Accept" := ["text/html"; "*/*"] ]} |}.

End Samples.

(* ===================================================================== *)
(** * Properties *)
(* ===================================================================== *)

(** ** Regular expressions *)

Section RegexFacts.
Import Regex.
Variables (r : re) (repl : list ascii).

(** Where the pattern matches nowhere, the scan copies its input. *)
Lemma replace_from_no_match (s : list ascii) :
  forall prev after, matches_from r prev s = false ->
  replace_from r repl prev s O after = s.
Proof.
  induction s as [|a s IH]; intros prev after Hno; simpl in *.
  - destruct (match_at r (prev, [])); [discriminate | reflexivity].
  - destruct (match_at r (prev, a :: s)); [discriminate |].
    f_equal. now apply IH.
Qed.

(** Inside a match the scan drops characters until the match ends. *)
Lemma replace_from_skip (m : list ascii) :
  forall prev rest after,
  replace_from r repl prev (m ++ rest) (List.length m) after
  = replace_from r repl (advance prev m) rest O
                 (match m with [] => after | _ => true end).
Proof.
  induction m as [|a m IH]; intros prev rest after; [reflexivity |].
  cbn [List.length app replace_from advance]. rewrite IH.
  destruct m as [|b m]; reflexivity.
Qed.

(** The text before the first match is kept, the match is replaced, and the
    scan resumes where the match ended. *)
Lemma replace_from_first_match (gap m rest : list ascii) (prev q : option ascii) after :
  (forall g1 g2, gap = g1 ++ g2 -> g2 <> [] ->
     match_at r (advance prev g1, g2 ++ m ++ rest) = None) ->
  m <> [] ->
  match_at r (advance prev gap, m ++ rest) = Some (q, rest) ->
  replace_from r repl prev (gap ++ m ++ rest) O after
  = gap ++ repl ++ replace_from r repl (advance (advance prev gap) m) rest O true.
Proof.
  revert prev after. induction gap as [|a gap IH]; intros prev after Hgap Hm Hat.
  - cbn [app advance] in *.
    destruct m as [|b m]; [congruence |].
    cbn [app replace_from advance] in *. rewrite Hat.
    unfold consumed. cbn [List.length].
    rewrite length_app.
    replace (S (List.length m + List.length rest) - List.length rest)%nat
      with (S (List.length m)) by lia.
    f_equal. rewrite replace_from_skip.
    destruct m; reflexivity.
  - cbn [app replace_from advance].
    assert (H0 := Hgap [] (a :: gap) eq_refl ltac:(discriminate)).
    cbn [app advance] in H0. rewrite H0.
    f_equal. apply IH; [| assumption | assumption].
    intros g1 g2 -> Hg2.
    apply (Hgap (a :: g1) g2); [reflexivity | assumption].
Qed.

End RegexFacts.

(** ** Scrubber *)

Section ScrubberFacts.
Import Regex Logger.
Context `{StringsPkg}.

Lemma ReplaceAllString_no_match (r : re) (s repl : string) :
  MatchString r s = false -> ReplaceAllString r s repl = s.
Proof.
  unfold MatchString, ReplaceAllString. intros Hno.
  rewrite replace_from_no_match by assumption.
  apply string_of_list_ascii_of_string.
Qed.

Lemma scrubString_clean (sc : Scrubber) (s : string) :
  clean sc s = true -> scrubString sc s = s.
Proof.
  unfold clean, scrubString.
  induction (patterns sc) as [|p ps IH]; intros Hclean; [reflexivity |].
  cbn [forallb fold_left] in *.
  apply andb_true_iff in Hclean as [Hp Hps].
  rewrite ReplaceAllString_no_match by now apply negb_true_iff.
  now apply IH.
Qed.

Lemma ScrubString_enabled (sc : Scrubber) (s : string) :
  enabled sc = true -> ScrubString sc s = scrubString sc s.
Proof. unfold ScrubString, scrubString. now intros ->. Qed.

Lemma ScrubString_disabled (sc : Scrubber) (s : string) :
  enabled sc = false -> ScrubString sc s = s.
Proof. unfold ScrubString. now intros ->. Qed.

Lemma scrubValue_eq (sc : Scrubber) (v : value) (key : string) :
  scrubValue sc v key
  = if kept sc key then v
    else if nonempty key && isSensitiveKey key then VString REDACTED
    else match v with
         | VNil => VNil
         | VString str => VString (scrubString sc str)
         | VList l => VList (map (fun item => scrubValue sc item EmptyString) l)
         | VMap m => VMap (map_imap (fun k val => Some (scrubValue sc val k)) m)
         | VNilList => VList []
         | VNilMap => VMap ∅
         | VOther o => VOther o
         end.
Proof. destruct v; reflexivity. Qed.

Lemma scrubValue_kept (sc : Scrubber) (v : value) (key : string) :
  kept sc key = true -> scrubValue sc v key = v.
Proof. intros Hk. now rewrite scrubValue_eq, Hk. Qed.

Lemma scrubValue_redacted (sc : Scrubber) (v : value) (key : string) :
  redacted sc key = true -> scrubValue sc v key = VString REDACTED.
Proof.
  unfold redacted. intros [Hk Hs]%andb_true_iff.
  apply negb_true_iff in Hk. now rewrite scrubValue_eq, Hk, Hs.
Qed.

Lemma scrubValue_traversed (sc : Scrubber) (v : value) (key : string) :
  traversed sc key = true ->
  scrubValue sc v key
  = match v with
    | VNil => VNil
    | VString str => VString (scrubString sc str)
    | VList l => VList (map (fun item => scrubValue sc item EmptyString) l)
    | VMap m => VMap (map_imap (fun k val => Some (scrubValue sc val k)) m)
    | VNilList => VList []
    | VNilMap => VMap ∅
    | VOther o => VOther o
    end.
Proof.
  unfold traversed. intros [Hk Hs]%andb_true_iff.
  apply negb_true_iff in Hk, Hs. now rewrite scrubValue_eq, Hk, Hs.
Qed.

Lemma kept_redacted_traversed (sc : Scrubber) (key : string) :
  kept sc key = false -> redacted sc key = false -> traversed sc key = true.
Proof.
  unfold redacted, traversed. intros ->. cbn.
  now intros ->.
Qed.

Lemma sensitive_nonempty (key : string) : isSensitiveKey key = true -> nonempty key = true.
Proof.
  destruct key; [| reflexivity].
  unfold isSensitiveKey. rewrite ToLower_empty. vm_compute. discriminate.
Qed.

Lemma lookup_map {A B} (f : A -> B) (l : list A) (i : nat) :
  map f l !! i = f <$> l !! i.
Proof.
  revert i. induction l as [|a l IH]; intros [|i]; cbn; try reflexivity. apply IH.
Qed.

(** One step down: the value a step enters is scrubbed with the step's key. *)
Lemma lookup_scrubValue_step (sc : Scrubber) (v x : value) (key : string) (st : step)
    (p : list step) :
  traversed sc key = true ->
  lookup_path v [st] = Some x ->
  lookup_path (scrubValue sc v key) (st :: p)
  = lookup_path (scrubValue sc x (key_of st)) p.
Proof.
  intros Ht Hx. rewrite scrubValue_traversed by assumption.
  destruct st as [k|i]; cbn [lookup_path key_of] in *.
  - destruct v as [| | |m| | |]; try discriminate.
    rewrite map_lookup_imap.
    destruct (m !! k) as [y|]; cbn in *; [| discriminate].
    now injection Hx as ->.
  - destruct v as [| |l| | | |]; try discriminate.
    rewrite lookup_map.
    destruct (l !! i) as [y|]; cbn in *; [| discriminate].
    now injection Hx as ->.
Qed.

Lemma lookup_path_cons (v : value) (st : step) (p : list step) :
  lookup_path v (st :: p) = lookup_path v [st] ≫= fun x => lookup_path x p.
Proof.
  destruct st as [k|i], v; cbn; try reflexivity.
  - now destruct (_ !! k).
  - now destruct (_ !! i).
Qed.

(** Below traversed keys, the value at the end of a path is scrubbed with
    the key of the path's last step. *)
Lemma lookup_scrubValue_traversed (sc : Scrubber) (p : list step) :
  forall (v x : value) (key : string) (st : step),
  traversed sc key = true ->
  forallb (fun s => traversed sc (key_of s)) p = true ->
  lookup_path v (p ++ [st]) = Some x ->
  lookup_path (scrubValue sc v key) (p ++ [st]) = Some (scrubValue sc x (key_of st)).
Proof.
  induction p as [|st0 p IH]; intros v x key st Hkey Hp Hx.
  - cbn [app] in *. now rewrite (lookup_scrubValue_step sc v x).
  - cbn [app forallb] in *. apply andb_true_iff in Hp as [Hst0 Hp].
    rewrite lookup_path_cons in Hx.
    destruct (lookup_path v [st0]) as [y|] eqn:Hy; [| discriminate].
    cbn in Hx.
    rewrite (lookup_scrubValue_step sc v y) by assumption.
    now apply IH.
Qed.

(** Below keys that are not redacted, an entry with an allowlisted key is
    still there, with the value it had. *)
Lemma lookup_scrubValue_kept (sc : Scrubber) (p : list step) :
  forall (v x : value) (key k : string),
  redacted sc key = false ->
  forallb (fun s => negb (redacted sc (key_of s))) p = true ->
  kept sc k = true ->
  lookup_path v (p ++ [Field k]) = Some x ->
  lookup_path (scrubValue sc v key) (p ++ [Field k]) = Some x.
Proof.
  induction p as [|st0 p IH]; intros v x key k Hkey Hp Hk Hx.
  - destruct (kept sc key) eqn:Hkk.
    + now rewrite scrubValue_kept.
    + cbn [app] in *.
      rewrite (lookup_scrubValue_step sc v x) by auto using kept_redacted_traversed.
      cbn [key_of lookup_path]. now rewrite scrubValue_kept.
  - destruct (kept sc key) eqn:Hkk.
    + now rewrite scrubValue_kept.
    + cbn [app forallb] in *. apply andb_true_iff in Hp as [Hst0 Hp].
      apply negb_true_iff in Hst0.
      rewrite lookup_path_cons in Hx.
      destruct (lookup_path v [st0]) as [y|] eqn:Hy; [| discriminate].
      cbn in Hx.
      rewrite (lookup_scrubValue_step sc v y) by auto using kept_redacted_traversed.
      now apply IH.
Qed.

Lemma traversed_root (sc : Scrubber) : traversed sc EmptyString = true.
Proof. reflexivity. Qed.

Lemma redacted_root (sc : Scrubber) : redacted sc EmptyString = false.
Proof. reflexivity. Qed.

End ScrubberFacts.

Section ScrubberClaims.
Import Regex Logger.

(** C8, as stated, fails: with the default patterns, redacting an AWS access
    key that is followed by nine digits leaves the digits at a word boundary,
    where a second pass takes them for a social security number. *)
Lemma ScrubString_second_pass_redacts_more :
  ScrubString (NewScrubber None) "AKIAABCDEFGHIJKLMNOP123456789"
    = "[REDACTED]123456789"
  /\ ScrubString (NewScrubber None)
       (ScrubString (NewScrubber None) "AKIAABCDEFGHIJKLMNOP123456789")
    = "[REDACTED][REDACTED]"
  /\ ScrubString (NewScrubber None)
       (ScrubString (NewScrubber None) "AKIAABCDEFGHIJKLMNOP123456789")
    <> ScrubString (NewScrubber None) "AKIAABCDEFGHIJKLMNOP123456789".
Proof.
  assert (H1 : ScrubString (NewScrubber None) "AKIAABCDEFGHIJKLMNOP123456789"
               = "[REDACTED]123456789") by (vm_compute; reflexivity).
  assert (H2 : ScrubString (NewScrubber None) "[REDACTED]123456789"
               = "[REDACTED][REDACTED]") by (vm_compute; reflexivity).
  rewrite H1, H2. repeat split. discriminate.
Qed.

(** C5, as stated, fails: an entry with a sensitive key inside the value of
    an allowlisted key is returned as it is. *)
Lemma Scrub_keeps_sensitive_entry_below_allowlisted_key :
  isSensitiveKey "password" = true
  /\ allowlisted
       (NewScrubber (Some {| Enabled := true; Patterns := []; CustomRegexps := [];
                             Allowlist := ["meta"] |})) "password" = false
  /\ lookup_path
       (Scrub (NewScrubber (Some {| Enabled := true; Patterns := []; CustomRegexps := [];
                                    Allowlist := ["meta"] |}))
              (VMap {[ "meta" := VMap {[ "password" := VString "hunter2" ]} ]}))
       [Field "meta"; Field "password"]
     = Some (VString "hunter2").
Proof. repeat split; vm_compute; reflexivity. Qed.

(** C9, as stated, fails: the empty key stands for no key, so an entry whose
    key is the empty string is scrubbed even when the allowlist holds the
    empty string. *)
Lemma Scrub_scrubs_entry_with_allowlisted_empty_key :
  allowlisted
    (NewScrubber (Some {| Enabled := true; Patterns := []; CustomRegexps := [];
                          Allowlist := [EmptyString] |})) EmptyString = true
  /\ lookup_path
       (Scrub (NewScrubber (Some {| Enabled := true; Patterns := []; CustomRegexps := [];
                                    Allowlist := [EmptyString] |}))
              (VMap {[ EmptyString := VString "password=hunter2" ]}))
       [Field EmptyString]
     = Some (VString "[REDACTED]").
Proof. repeat split; vm_compute; reflexivity. Qed.

Context `{StringsPkg}.

(** C8 (amended): [ScrubString] applies the configured patterns in order to
    the text and returns its input when scrubbing is disabled. A pattern's
    replacement keeps the text before the first match, writes the marker for
    the match and goes on after it, so every non-overlapping match is
    replaced; where the pattern matches nowhere the text stays as it is.
    Scrubbing a scrubbed string again returns it unchanged whenever no
    configured pattern matches in it. *)
Theorem ScrubString_idempotent_when_clean (sc : Scrubber) (s : string) :
  ScrubString sc s
    = (if enabled sc
       then fold_left (fun text p => ReplaceAllString p text REDACTED) (patterns sc) s
       else s)
  /\ (forall (p : re) (marker gap m rest : list ascii) (prev q : option ascii)
             (after : bool),
        (forall g1 g2, gap = g1 ++ g2 -> g2 <> [] ->
           match_at p (advance prev g1, g2 ++ m ++ rest) = None) ->
        m <> [] ->
        match_at p (advance prev gap, m ++ rest) = Some (q, rest) ->
        replace_from p marker prev (gap ++ m ++ rest) O after
        = gap ++ marker ++ replace_from p marker (advance (advance prev gap) m) rest O true)
  /\ (forall p, MatchString p s = false -> ReplaceAllString p s REDACTED = s)
  /\ (enabled sc = false -> ScrubString sc (ScrubString sc s) = ScrubString sc s)
  /\ (clean sc (ScrubString sc s) = true ->
      ScrubString sc (ScrubString sc s) = ScrubString sc s).
Proof.
  split; [| split; [| split; [| split]]].
  - unfold ScrubString. now destruct (enabled sc).
  - intros p marker gap m rest prev q after. apply replace_from_first_match.
  - intros p. apply ReplaceAllString_no_match.
  - intros Hoff. now rewrite !ScrubString_disabled.
  - intros Hclean. destruct (enabled sc) eqn:Hon.
    + rewrite (ScrubString_enabled sc (ScrubString sc s)) by assumption.
      now apply scrubString_clean.
    + now rewrite !ScrubString_disabled.
Qed.

(** C5 (amended): in a value scrubbed by an enabled scrubber, every entry of
    a [map[string]interface{}] that the traversal reaches and whose key is,
    in lower case, in the sensitive-key set and not in the allowlist holds
    the redaction marker, whatever the value was. The traversal reaches an
    entry through maps of type [map[string]interface{}] and slices of type
    [[]interface{}] only (a path of [lookup_path]), below no key that is
    allowlisted or sensitive. A value of any other type, a
    [map[string]string] or a [[]string] for one, is not entered: it is
    returned as it is unless the key it comes with is redacted, whatever
    keys it holds. *)
Theorem Scrub_redacts_reached_sensitive_entry (sc : Scrubber) (root : value)
    (p : list step) (k : string) (v : value) :
  enabled sc = true ->
  forallb (fun st => traversed sc (key_of st)) p = true ->
  lookup_path root (p ++ [Field k]) = Some v ->
  isSensitiveKey k = true ->
  allowlisted sc k = false ->
  (forall v' : value, scrubValue sc v' k = VString REDACTED)
  /\ lookup_path (Scrub sc root) (p ++ [Field k]) = Some (VString REDACTED)
  /\ (forall (o : other) (key : string),
        redacted sc key = false -> scrubValue sc (VOther o) key = VOther o).
Proof.
  intros Hon Hp Hv Hs Ha.
  assert (Hred : redacted sc k = true).
  { unfold redacted, kept. now rewrite Ha, Hs, (sensitive_nonempty k Hs). }
  split; [| split].
  - intros v'. now apply scrubValue_redacted.
  - unfold Scrub. rewrite Hon. cbn [negb].
    rewrite (lookup_scrubValue_traversed sc p root v) by auto using traversed_root.
    cbn [key_of]. now rewrite scrubValue_redacted.
  - intros o key Hkey. destruct (kept sc key) eqn:Hkept.
    + now apply scrubValue_kept.
    + now rewrite scrubValue_traversed by now apply kept_redacted_traversed.
Qed.

(** C9 (amended): every map entry whose key is not empty and is, in lower
    case, in the allowlist, and that lies below no redacted key, is returned
    with its value unchanged: no redaction by key, no pattern scrubbing, no
    descent into the value. *)
Theorem Scrub_keeps_allowlisted_entry (sc : Scrubber) (root : value)
    (p : list step) (k : string) (v : value) :
  forallb (fun st => negb (redacted sc (key_of st))) p = true ->
  lookup_path root (p ++ [Field k]) = Some v ->
  nonempty k = true ->
  allowlisted sc k = true ->
  scrubValue sc v k = v
  /\ lookup_path (Scrub sc root) (p ++ [Field k]) = Some v.
Proof.
  intros Hp Hv Hne Ha.
  assert (Hk : kept sc k = true) by (unfold kept; now rewrite Hne, Ha).
  split.
  - now apply scrubValue_kept.
  - unfold Scrub. destruct (enabled sc); cbn [negb]; [| assumption].
    now apply lookup_scrubValue_kept.
Qed.

End ScrubberClaims.

(** A scrubbed password assignment is clean, so scrubbing it again changes
    nothing. *)
Lemma ScrubString_idempotent_on_password_assignment :
  Logger.ScrubString (Logger.NewScrubber None)
    (Logger.ScrubString (Logger.NewScrubber None) "login password=hunter2 ok")
  = Logger.ScrubString (Logger.NewScrubber None) "login password=hunter2 ok".
Proof.
  refine (proj2 (proj2 (proj2 (proj2
            (ScrubString_idempotent_when_clean (Logger.NewScrubber None)
               "login password=hunter2 ok")))) _).
  vm_compute. reflexivity.
Defined.

(** A password two levels down, in a list, is redacted; the same entry in a
    [map[string]string] beside it is not: the scrubber returns that map as
    it is. *)
Lemma Scrub_redacts_nested_password :
  Logger.lookup_path
    (Logger.Scrub (Logger.NewScrubber None)
       (VMap {[ "request" :=
                  VList [VNil; VMap {[ "Password" := VList [VString "hunter2"] ]}] ]}))
    ([Logger.Field "request"; Logger.Item 1] ++ [Logger.Field "Password"])
  = Some (VString Logger.REDACTED)
  /\ Logger.scrubValue (Logger.NewScrubber None)
       (VOther (OStringMap {[ "Password" := "hunter2" ]})) "headers"
     = VOther (OStringMap {[ "Password" := "hunter2" ]}).
Proof.
  split.
  - refine (proj1 (proj2 (Scrub_redacts_reached_sensitive_entry (Logger.NewScrubber None) _
                     [Logger.Field "request"; Logger.Item 1] "Password"
                     (VList [VString "hunter2"]) _ _ _ _ _)));
      vm_compute; reflexivity.
  - refine (proj2 (proj2 (Scrub_redacts_reached_sensitive_entry (Logger.NewScrubber None)
                     (VMap {[ "request" :=
                                VList [VNil;
                                       VMap {[ "Password" := VList [VString "hunter2"] ]}] ]})
                     [Logger.Field "request"; Logger.Item 1] "Password"
                     (VList [VString "hunter2"]) _ _ _ _ _))
                  (OStringMap {[ "Password" := "hunter2" ]}) "headers" _);
      vm_compute; reflexivity.
Defined.

(** An allowlisted entry keeps a value that holds a sensitive key and a
    string a pattern matches. *)
Lemma Scrub_keeps_allowlisted_debug_entry :
  Logger.lookup_path
    (Logger.Scrub
       (Logger.NewScrubber
          (Some {| Logger.Enabled := true; Logger.Patterns := [];
                   Logger.CustomRegexps := []; Logger.Allowlist := ["Debug"] |}))
       (VMap {[ "outer" :=
                  VMap {[ "debug" := VMap {[ "token" := VString "password=hunter2" ]} ]} ]}))
    ([Logger.Field "outer"] ++ [Logger.Field "debug"])
  = Some (VMap {[ "token" := VString "password=hunter2" ]}).
Proof.
  refine (proj2 (Scrub_keeps_allowlisted_entry _ _ [Logger.Field "outer"] "debug" _ _ _ _ _));
    vm_compute; reflexivity.
Defined.

(** ** Sampling *)

Section FloatFacts.

Lemma SFcompare_antisym (x y : spec_float) :
  SFcompare y x = option_map CompOpp (SFcompare x y).
Proof.
  destruct x as [sx|sx| |sx mx ex], y as [sy|sy| |sy my ey]; cbn;
    try (destruct sx); try (destruct sy); try reflexivity;
    rewrite (Z.compare_antisym ex ey); destruct (ex ?= ey)%Z; cbn; try reflexivity;
    pose proof (Pos.compare_cont_antisym mx my Eq) as Hp; cbn [CompOpp] in Hp;
    rewrite <- Hp; now destruct (Pos.compare_cont Eq mx my).
Qed.

Lemma is_nan_false (x : float) : PrimFloat.is_nan x = false -> Prim2SF x <> S754_nan.
Proof.
  unfold PrimFloat.is_nan. rewrite FloatAxioms.eqb_spec. intros Hx Hnan.
  rewrite Hnan in Hx. discriminate.
Qed.

Lemma SFcompare_defined (x y : spec_float) :
  x <> S754_nan -> y <> S754_nan -> SFcompare x y <> None.
Proof. destruct x, y; cbn; congruence. Qed.

(** [a < b] is the negation of [b <= a], NaN apart. *)
Lemma ltb_negb_leb (a b : float) :
  PrimFloat.is_nan a = false -> PrimFloat.is_nan b = false ->
  PrimFloat.ltb a b = negb (PrimFloat.leb b a).
Proof.
  intros Ha%is_nan_false Hb%is_nan_false.
  rewrite FloatAxioms.ltb_spec, FloatAxioms.leb_spec. unfold SFltb, SFleb.
  rewrite (SFcompare_antisym (Prim2SF a) (Prim2SF b)).
  pose proof (SFcompare_defined _ _ Ha Hb) as Hdef.
  destruct (SFcompare (Prim2SF a) (Prim2SF b)) as [[]|]; cbn; congruence.
Qed.

End FloatFacts.

Section SamplingClaims.
Import Logger Logger.ObserveDestination.

Lemma enqueue_not_SampledOut (o : t) (entry : Entry.t) :
  fst (enqueue o entry) = Queued \/ fst (enqueue o entry) = QueueFull.
Proof.
  unfold enqueue. destruct (try_send _ _ _) as [[] q']; cbn; auto.
Qed.

(** C4: an audit record passes [shouldLog] at every minimum level and is
    never sampled out, whatever the rate table and the draw are, so [Write]
    on an enabled destination hands it to the queue; a record at another
    level is sampled out exactly when the draw exceeds the rate of its
    level, so [Write] hands it to the queue exactly when the draw is at most
    the rate (the rate and the draw being numbers, not NaN). *)
Theorem Write_admits_by_level_and_draw (o : t) (entry : Entry.t) (draw : float) :
  (Entry.Level entry = LevelAudit ->
     (forall minLevel, shouldLog minLevel (Entry.Level entry) = true)
     /\ sampled_out o entry draw = false
     /\ (ObserveConfig.Enabled (config o) = true ->
         Write o entry draw = enqueue o entry))
  /\ (Entry.Level entry <> LevelAudit ->
      PrimFloat.is_nan draw = false ->
      PrimFloat.is_nan (rate o (Entry.Level entry)) = false ->
      sampled_out o entry draw = negb (PrimFloat.leb draw (rate o (Entry.Level entry)))
      /\ (ObserveConfig.Enabled (config o) = true ->
          (PrimFloat.leb draw (rate o (Entry.Level entry)) = true ->
             Write o entry draw = enqueue o entry)
          /\ (PrimFloat.leb draw (rate o (Entry.Level entry)) = false ->
                Write o entry draw = (SampledOut, o)))).
Proof.
  split.
  - intros Haudit.
    assert (Hin : sampled_out o entry draw = false)
      by (unfold sampled_out; now rewrite Haudit).
    split; [| split; [exact Hin |]].
    + intros minLevel. unfold shouldLog. now rewrite Haudit.
    + intros Hon. unfold Write. now rewrite Hon, Hin.
  - intros Hlevel Hdraw Hrate.
    assert (Hout : sampled_out o entry draw
                   = negb (PrimFloat.leb draw (rate o (Entry.Level entry)))).
    { unfold sampled_out. rewrite (bool_decide_eq_false_2 _ Hlevel). cbn [negb andb].
      now apply ltb_negb_leb. }
    split; [exact Hout |].
    intros Hon. unfold Write. rewrite Hon, Hout. cbn [negb].
    split; intros ->; reflexivity.
Qed.

End SamplingClaims.

(** An info record with the default rate 0.5 and the draw 0.25 is queued. *)
Lemma Write_queues_info_under_rate :
  Logger.ObserveDestination.Write
    (Logger.ObserveDestination.NewObserveDestination "https://sk_live_xxx@statly.live/acme" None)
    (Samples.entry Logger.LevelInfo "started") 0.25%float
  = Logger.ObserveDestination.enqueue
      (Logger.ObserveDestination.NewObserveDestination
         "https://sk_live_xxx@statly.live/acme" None)
      (Samples.entry Logger.LevelInfo "started").
Proof.
  refine (proj1 (proj2 (proj2 (Write_admits_by_level_and_draw _ _ 0.25%float) _ _ _) _) _);
    try (vm_compute; reflexivity).
  discriminate.
Defined.

(** ** Bounded queue *)

Section QueueFacts.
Context {A : Type}.

Lemma try_send_full (cap : nat) (q : list A) (x : A) :
  (cap <= List.length q)%nat -> try_send cap q x = (false, q).
Proof.
  intros Hfull. unfold try_send, chan_full.
  now rewrite (proj2 (Nat.leb_le _ _) Hfull).
Qed.

Lemma try_send_free (cap : nat) (q : list A) (x : A) :
  (List.length q < cap)%nat -> try_send cap q x = (true, q ++ [x]).
Proof.
  intros Hfree. unfold try_send, chan_full.
  now rewrite (proj2 (Nat.leb_gt _ _) Hfree).
Qed.

(** With no receiver, the channel takes what fits, in order, and refuses
    the rest. *)
Lemma offer_all_stalled (cap : nat) (xs : list A) :
  forall q : list A,
  offer_all cap q xs
  = (repeat true (Nat.min (cap - List.length q) (List.length xs))
       ++ repeat false (List.length xs - (cap - List.length q)),
     q ++ firstn (cap - List.length q) xs).
Proof.
  induction xs as [|x xs IH]; intros q.
  - cbn [offer_all List.length]. rewrite Nat.min_0_r, firstn_nil, !app_nil_r. reflexivity.
  - cbn [offer_all List.length].
    destruct (Nat.le_gt_cases cap (List.length q)) as [Hfull|Hfree].
    + rewrite try_send_full by assumption. cbn [fst snd]. rewrite IH.
      replace (cap - List.length q)%nat with 0%nat by lia.
      cbn. rewrite ?Nat.sub_0_r, ?app_nil_r. reflexivity.
    + rewrite try_send_free by assumption. cbn [fst snd]. rewrite IH.
      rewrite length_app. cbn [List.length].
      replace (cap - List.length q)%nat with (S (cap - (List.length q + 1))) by lia.
      cbn [Nat.min repeat firstn app Nat.sub].
      rewrite <- app_assoc. reflexivity.
Qed.

End QueueFacts.

Section QueueClaims.
Import Logger Statly.

Lemma Send_running (pick : bool) (t0 : HTTPTransport.t) (event : Event.t) :
  HTTPTransport.done t0 = false ->
  HTTPTransport.Send pick t0 event
  = (fst (try_send (HTTPTransport.queue_cap t0) (HTTPTransport.queue t0) event),
     HTTPTransport.with_queue t0
       (snd (try_send (HTTPTransport.queue_cap t0) (HTTPTransport.queue t0) event))).
Proof.
  intros Hrun. unfold HTTPTransport.Send, try_send. rewrite Hrun.
  destruct (chan_full _ _); [| reflexivity].
  cbn. now destruct t0.
Qed.

Lemma SendAll_running (pick : bool) (events : list Event.t) :
  forall t0 : HTTPTransport.t,
  HTTPTransport.done t0 = false ->
  HTTPTransport.SendAll pick t0 events
  = (fst (offer_all (HTTPTransport.queue_cap t0) (HTTPTransport.queue t0) events),
     HTTPTransport.with_queue t0
       (snd (offer_all (HTTPTransport.queue_cap t0) (HTTPTransport.queue t0) events))).
Proof.
  induction events as [|event events IH]; intros t0 Hrun.
  - cbn. now destruct t0.
  - cbn [HTTPTransport.SendAll offer_all]. rewrite Send_running by assumption.
    cbn [fst snd]. rewrite IH by assumption. reflexivity.
Qed.

Lemma Write_admitted (o : ObserveDestination.t) (entry : Entry.t) (draw : float) :
  ObserveConfig.Enabled (ObserveDestination.config o) = true ->
  ObserveDestination.sampled_out o entry draw = false ->
  ObserveDestination.Write o entry draw
  = ((if fst (try_send (ObserveDestination.queue_cap o) (ObserveDestination.queue o) entry)
      then Queued else QueueFull),
     ObserveDestination.with_queue o
       (snd (try_send (ObserveDestination.queue_cap o) (ObserveDestination.queue o) entry))).
Proof.
  intros Hon Hin. unfold ObserveDestination.Write, ObserveDestination.enqueue.
  rewrite Hon, Hin. cbn [negb]. unfold try_send.
  destruct (chan_full _ _); [| reflexivity].
  cbn. now destruct o.
Qed.

Lemma WriteAll_admitted (writes : list (Entry.t * float)) :
  forall o : ObserveDestination.t,
  ObserveConfig.Enabled (ObserveDestination.config o) = true ->
  (forall entry draw, In (entry, draw) writes ->
     ObserveDestination.sampled_out o entry draw = false) ->
  ObserveDestination.WriteAll o writes
  = (map (fun ok : bool => if ok then Queued else QueueFull)
         (fst (offer_all (ObserveDestination.queue_cap o) (ObserveDestination.queue o)
                 (map fst writes))),
     ObserveDestination.with_queue o
       (snd (offer_all (ObserveDestination.queue_cap o) (ObserveDestination.queue o)
               (map fst writes)))).
Proof.
  induction writes as [|[entry draw] writes IH]; intros o Hon Hin.
  - cbn. now destruct o.
  - cbn [ObserveDestination.WriteAll offer_all map fst].
    rewrite Write_admitted by (auto; apply Hin; now left).
    cbn [fst snd]. rewrite IH; [reflexivity | assumption |].
    intros e d Hed. apply (Hin e d). now right.
Qed.

Lemma map_repeat_app {B C} (f : B -> C) (x y : B) (n m : nat) :
  map f (repeat x n ++ repeat y m) = repeat (f x) n ++ repeat (f y) m.
Proof.
  rewrite map_app. f_equal; [induction n | induction m]; cbn; congruence.
Qed.

(** C2: a [Send] or [Write] on a queue that holds as many records as its
    capacity [K] leaves the destination as it was and reports the record as
    not queued, without waiting; and [K + 5] of them in turn on an empty
    queue, with the worker taking no step, leave the first [K] records in the
    queue in arrival order and the last 5 dropped. *)
Theorem full_queue_drops_incoming_record :
  (forall (t0 : HTTPTransport.t) (pick : bool) (event : Event.t),
     List.length (HTTPTransport.queue t0) = HTTPTransport.queue_cap t0 ->
     HTTPTransport.Send pick t0 event = (false, t0))
  /\ (forall (o : ObserveDestination.t) (entry : Entry.t) (draw : float),
        List.length (ObserveDestination.queue o) = ObserveDestination.queue_cap o ->
        snd (ObserveDestination.Write o entry draw) = o
        /\ fst (ObserveDestination.Write o entry draw) <> Queued)
  /\ (forall (t0 : HTTPTransport.t) (pick : bool) (events : list Event.t),
        HTTPTransport.done t0 = false ->
        HTTPTransport.queue t0 = [] ->
        List.length events = (HTTPTransport.queue_cap t0 + 5)%nat ->
        HTTPTransport.SendAll pick t0 events
        = (repeat true (HTTPTransport.queue_cap t0) ++ repeat false 5,
           HTTPTransport.with_queue t0 (firstn (HTTPTransport.queue_cap t0) events))
        /\ List.length (firstn (HTTPTransport.queue_cap t0) events)
           = HTTPTransport.queue_cap t0)
  /\ (forall (o : ObserveDestination.t) (writes : list (Entry.t * float)),
        ObserveConfig.Enabled (ObserveDestination.config o) = true ->
        ObserveDestination.queue o = [] ->
        (forall entry draw, In (entry, draw) writes ->
           ObserveDestination.sampled_out o entry draw = false) ->
        List.length writes = (ObserveDestination.queue_cap o + 5)%nat ->
        ObserveDestination.WriteAll o writes
        = (repeat Queued (ObserveDestination.queue_cap o) ++ repeat QueueFull 5,
           ObserveDestination.with_queue o
             (firstn (ObserveDestination.queue_cap o) (map fst writes)))
        /\ List.length (firstn (ObserveDestination.queue_cap o) (map fst writes))
           = ObserveDestination.queue_cap o).
Proof.
  split; [| split; [| split]].
  - intros t0 pick event Hfull. unfold HTTPTransport.Send, chan_full.
    rewrite Hfull, Nat.leb_refl. reflexivity.
  - intros o entry draw Hfull.
    unfold ObserveDestination.Write, ObserveDestination.enqueue, try_send, chan_full.
    rewrite Hfull, Nat.leb_refl.
    destruct (negb _); [split; [reflexivity | discriminate] |].
    destruct (ObserveDestination.sampled_out _ _ _); split;
      first [reflexivity | discriminate].
  - intros t0 pick events Hrun Hempty Hlen. split.
    + rewrite SendAll_running by assumption.
      rewrite offer_all_stalled, Hempty, Hlen. cbn [List.length app fst snd].
      rewrite Nat.sub_0_r.
      replace (Nat.min (HTTPTransport.queue_cap t0) (HTTPTransport.queue_cap t0 + 5))
        with (HTTPTransport.queue_cap t0) by lia.
      replace (HTTPTransport.queue_cap t0 + 5 - HTTPTransport.queue_cap t0)%nat
        with 5%nat by lia.
      reflexivity.
    + rewrite length_firstn. lia.
  - intros o writes Hon Hempty Hin Hlen. split.
    + rewrite WriteAll_admitted by assumption.
      rewrite offer_all_stalled, Hempty, length_map, Hlen. cbn [List.length app fst snd].
      rewrite Nat.sub_0_r.
      replace (Nat.min (ObserveDestination.queue_cap o) (ObserveDestination.queue_cap o + 5))
        with (ObserveDestination.queue_cap o) by lia.
      replace (ObserveDestination.queue_cap o + 5 - ObserveDestination.queue_cap o)%nat
        with 5%nat by lia.
      rewrite map_repeat_app. reflexivity.
    + rewrite length_firstn, length_map. lia.
Qed.

End QueueClaims.

(** ** Worker: batching and shutdown *)

Section TransportWorkerFacts.
Import Statly Statly.HTTPTransport.
Variable net : nat -> Z -> reply.

Lemma threshold_reached (opts : TransportOptions.t) (B n : nat) :
  TransportOptions.BatchSize opts = Z.of_nat B ->
  (TransportOptions.BatchSize opts <=? Z.of_nat n)%Z = (B <=? n)%nat.
Proof.
  intros ->. destruct (Nat.leb_spec B n); [apply Z.leb_le | apply Z.leb_gt]; lia.
Qed.

(** Receiving fewer records than the threshold asks for only grows the batch. *)
Lemma worker_receive_partial (opts : TransportOptions.t) (cap : nat) (d : bool)
    (s : list (list Event.t * report)) (B : nat) (rest c : list Event.t) :
  TransportOptions.BatchSize opts = Z.of_nat B ->
  forall b : list Event.t,
  (List.length b + List.length c < B)%nat ->
  worker net (repeat OnQueue (List.length c))
    {| options := opts; queue_cap := cap; queue := c ++ rest; done := d;
       batch := b; exited := false; sent := s |}
  = {| options := opts; queue_cap := cap; queue := rest; done := d;
       batch := b ++ c; exited := false; sent := s |}.
Proof.
  intros HB. induction c as [|e c IH]; intros b Hlen.
  - cbn. now rewrite app_nil_r.
  - cbn [List.length repeat worker worker_step exited queue app batch options].
    rewrite (threshold_reached opts B) by assumption.
    rewrite length_app. cbn [List.length] in *.
    rewrite (proj2 (Nat.leb_gt _ _)) by lia.
    unfold with_batch, with_queue; cbn.
    rewrite IH by (rewrite length_app; cbn; lia).
    now rewrite <- app_assoc.
Qed.

(** Receiving the records that fill the batch sends it and starts an empty
    one. *)
Lemma worker_receive_block (opts : TransportOptions.t) (cap : nat) (d : bool)
    (s : list (list Event.t * report)) (B : nat) (rest c : list Event.t) :
  TransportOptions.BatchSize opts = Z.of_nat B ->
  forall b : list Event.t,
  (List.length b + List.length c = B)%nat ->
  (List.length b < B)%nat ->
  worker net (repeat OnQueue (List.length c))
    {| options := opts; queue_cap := cap; queue := c ++ rest; done := d;
       batch := b; exited := false; sent := s |}
  = {| options := opts; queue_cap := cap; queue := rest; done := d;
       batch := []; exited := false;
       sent := s ++ [(b ++ c, sendBatch opts (b ++ c) (net (List.length s)))] |}.
Proof.
  intros HB. induction c as [|e c IH]; intros b Hlen Hb.
  - cbn in Hlen. lia.
  - cbn [List.length repeat worker worker_step exited queue app batch options].
    rewrite (threshold_reached opts B) by assumption.
    rewrite length_app. cbn [List.length] in *.
    destruct c as [|e' c]; cbn [List.length] in *.
    + rewrite (proj2 (Nat.leb_le _ _)) by lia. reflexivity.
    + rewrite (proj2 (Nat.leb_gt _ _)) by (cbn [List.length] in *; lia).
      unfold with_batch, with_queue; cbn [options queue_cap queue done batch exited sent].
      rewrite IH by (rewrite ?length_app; cbn [List.length] in *; lia).
      now rewrite <- app_assoc.
Qed.

(** The drain loop on fewer records than the threshold asks for: one last
    batch, if there is any record, and the worker returns. *)
Lemma drain_partial (opts : TransportOptions.t) (cap : nat) (d : bool)
    (s : list (list Event.t * report)) (B : nat) (q c : list Event.t) :
  TransportOptions.BatchSize opts = Z.of_nat B ->
  forall b : list Event.t,
  (0 < List.length b + List.length c < B)%nat ->
  drain net {| options := opts; queue_cap := cap; queue := q; done := d;
               batch := []; exited := false; sent := s |} c b
  = {| options := opts; queue_cap := cap; queue := []; done := d;
       batch := b ++ c; exited := true;
       sent := s ++ [(b ++ c, sendBatch opts (b ++ c) (net (List.length s)))] |}.
Proof.
  intros HB. induction c as [|e c IH]; intros b Hlen.
  - cbn [drain]. cbn [List.length] in Hlen.
    rewrite (proj2 (Nat.ltb_lt _ _)) by lia.
    now rewrite app_nil_r.
  - cbn [drain options].
    rewrite (threshold_reached opts B) by assumption.
    rewrite length_app. cbn [List.length] in *.
    rewrite (proj2 (Nat.leb_gt _ _)) by lia.
    rewrite IH by (rewrite length_app; cbn; lia).
    now rewrite <- app_assoc.
Qed.

(** The drain loop on the records that fill the batch: the batch is sent and
    the loop goes on with an empty one. *)
Lemma drain_block (opts : TransportOptions.t) (cap : nat) (d : bool)
    (s : list (list Event.t * report)) (B : nat) (q rest c : list Event.t) :
  TransportOptions.BatchSize opts = Z.of_nat B ->
  forall b : list Event.t,
  (List.length b + List.length c = B)%nat ->
  (List.length b < B)%nat ->
  drain net {| options := opts; queue_cap := cap; queue := q; done := d;
               batch := []; exited := false; sent := s |} (c ++ rest) b
  = drain net {| options := opts; queue_cap := cap; queue := q; done := d;
                 batch := []; exited := false;
                 sent := s ++ [(b ++ c, sendBatch opts (b ++ c) (net (List.length s)))] |}
          rest [].
Proof.
  intros HB. induction c as [|e c IH]; intros b Hlen Hb.
  - cbn in Hlen. lia.
  - cbn [drain options app].
    rewrite (threshold_reached opts B) by assumption.
    rewrite length_app. cbn [List.length] in *.
    destruct c as [|e' c]; cbn [List.length] in *.
    + rewrite (proj2 (Nat.leb_le _ _)) by lia. reflexivity.
    + rewrite (proj2 (Nat.leb_gt _ _)) by (cbn [List.length] in *; lia).
      rewrite IH by (rewrite ?length_app; cbn [List.length] in *; lia).
      now rewrite <- app_assoc.
Qed.

(** The drain loop on an empty queue and an empty batch sends nothing. *)
Lemma drain_nothing (t0 : t) :
  drain net t0 [] [] = with_exited (with_batch (with_queue t0 []) []) true.
Proof. reflexivity. Qed.

(** The drain loop reads the batch it is given, not the one of the state. *)
Lemma drain_batch_field (pending : list Event.t) :
  forall (t0 : t) (x b : list Event.t),
  drain net (with_batch t0 x) pending b = drain net t0 pending b.
Proof.
  induction pending as [|e pending IH]; intros t0 x b; cbn [drain].
  - now destruct (0 <? List.length b)%nat.
  - cbn [options with_batch]. destruct (_ <=? _)%Z.
    + apply (IH (call_sendBatch net t0 (b ++ [e])) x []).
    + apply IH.
Qed.

End TransportWorkerFacts.

Section TransportShutdownFacts.
Import Statly Statly.HTTPTransport.
Variable net : nat -> Z -> reply.

Lemma worker_app (s1 s2 : list wake) :
  forall t0 : t, worker net (s1 ++ s2) t0 = worker net s2 (worker net s1 t0).
Proof.
  induction s1 as [|w s1 IH]; intros t0; [reflexivity |].
  cbn [app worker]. destruct (worker_step net w t0); apply IH.
Qed.

Lemma call_sendBatch_done (t0 : t) (b : list Event.t) :
  done (call_sendBatch net t0 b) = done t0.
Proof. reflexivity. Qed.

Lemma drain_done (pending : list Event.t) :
  forall (t0 : t) (b : list Event.t), done (drain net t0 pending b) = done t0.
Proof.
  induction pending as [|e pending IH]; intros t0 b; cbn [drain].
  - now destruct (0 <? List.length b)%nat.
  - destruct (_ <=? _)%Z; now rewrite IH.
Qed.

Lemma worker_step_done (w : wake) (t0 t1 : t) :
  worker_step net w t0 = Some t1 -> done t1 = done t0.
Proof.
  unfold worker_step. destruct (exited t0); [discriminate |].
  destruct w.
  - destruct (queue t0); [discriminate |].
    destruct (_ <=? _)%Z; intros [= <-]; reflexivity.
  - destruct (0 <? _)%nat; intros [= <-]; reflexivity.
  - destruct (done t0) eqn:Hd; [| discriminate].
    intros [= <-]. rewrite drain_done.
    now destruct (0 <? _)%nat.
Qed.

Lemma worker_done (sched : list wake) :
  forall t0 : t, done (worker net sched t0) = done t0.
Proof.
  induction sched as [|w sched IH]; intros t0; [reflexivity |].
  cbn [worker]. destruct (worker_step net w t0) as [t1|] eqn:Hstep.
  - rewrite IH. now apply worker_step_done with (w := w).
  - apply IH.
Qed.

End TransportShutdownFacts.

Section ObserveWorkerFacts.
Import Logger Logger.ObserveDestination.

Lemma observe_threshold_reached (c : ObserveConfig.t) (B n : nat) :
  ObserveConfig.BatchSize c = Z.of_nat B ->
  (ObserveConfig.BatchSize c <=? Z.of_nat n)%Z = (B <=? n)%nat.
Proof.
  intros ->. destruct (Nat.leb_spec B n); [apply Z.leb_le | apply Z.leb_gt]; lia.
Qed.

Lemma observe_receive_partial (u : string) (c : ObserveConfig.t) (sm : gmap Level float)
    (cap : nat) (d : bool) (s : list (list Entry.t)) (B : nat) (rest es : list Entry.t) :
  ObserveConfig.BatchSize c = Z.of_nat B ->
  forall b : list Entry.t,
  (List.length b + List.length es < B)%nat ->
  worker (repeat OnQueue (List.length es))
    {| dsn := u; config := c; sampling := sm; queue_cap := cap; queue := es ++ rest;
       done := d; batch := b; exited := false; sent := s |}
  = {| dsn := u; config := c; sampling := sm; queue_cap := cap; queue := rest;
       done := d; batch := b ++ es; exited := false; sent := s |}.
Proof.
  intros HB. induction es as [|e es IH]; intros b Hlen.
  - cbn. now rewrite app_nil_r.
  - cbn [List.length repeat worker worker_step exited queue app batch config].
    rewrite (observe_threshold_reached c B) by assumption.
    rewrite length_app. cbn [List.length] in *.
    rewrite (proj2 (Nat.leb_gt _ _)) by lia.
    unfold with_batch, with_queue; cbn.
    rewrite IH by (rewrite length_app; cbn; lia).
    now rewrite <- app_assoc.
Qed.

Lemma observe_receive_block (u : string) (c : ObserveConfig.t) (sm : gmap Level float)
    (cap : nat) (d : bool) (s : list (list Entry.t)) (B : nat) (rest es : list Entry.t) :
  ObserveConfig.BatchSize c = Z.of_nat B ->
  forall b : list Entry.t,
  (List.length b + List.length es = B)%nat ->
  (List.length b < B)%nat ->
  worker (repeat OnQueue (List.length es))
    {| dsn := u; config := c; sampling := sm; queue_cap := cap; queue := es ++ rest;
       done := d; batch := b; exited := false; sent := s |}
  = {| dsn := u; config := c; sampling := sm; queue_cap := cap; queue := rest;
       done := d; batch := []; exited := false; sent := s ++ [b ++ es] |}.
Proof.
  intros HB. induction es as [|e es IH]; intros b Hlen Hb.
  - cbn in Hlen. lia.
  - cbn [List.length repeat worker worker_step exited queue app batch config].
    rewrite (observe_threshold_reached c B) by assumption.
    rewrite length_app. cbn [List.length] in *.
    destruct es as [|e' es]; cbn [List.length] in *.
    + rewrite (proj2 (Nat.leb_le _ _)) by lia.
      cbn. now destruct (b ++ [e]) eqn:Hbe; [destruct b; discriminate |].
    + rewrite (proj2 (Nat.leb_gt _ _)) by (cbn [List.length] in *; lia).
      unfold with_batch, with_queue; cbn [dsn config sampling queue_cap queue done batch exited sent].
      rewrite IH by (rewrite ?length_app; cbn [List.length] in *; lia).
      now rewrite <- app_assoc.
Qed.

Lemma observe_worker_app (s1 s2 : list wake) :
  forall o : t, worker (s1 ++ s2) o = worker s2 (worker s1 o).
Proof.
  induction s1 as [|w s1 IH]; intros o; [reflexivity |].
  cbn [app worker]. destruct (worker_step w o); apply IH.
Qed.

(** The drain loop puts everything the queue holds into the current batch
    and sends it as one batch. *)
Lemma observe_drain_one_batch (pending : list Entry.t) :
  forall (o : t) (b : list Entry.t),
  drain o pending b
  = with_exited (with_batch (with_queue (sendBatch o (b ++ pending)) []) (b ++ pending)) true.
Proof.
  induction pending as [|e pending IH]; intros o b; cbn [drain].
  - now rewrite app_nil_r.
  - rewrite IH. now rewrite <- app_assoc.
Qed.

Lemma observe_drain_done (pending : list Entry.t) (o : t) (b : list Entry.t) :
  done (drain o pending b) = done o.
Proof.
  rewrite observe_drain_one_batch. unfold sendBatch. now destruct (b ++ pending).
Qed.

Lemma observe_worker_step_done (w : wake) (o o' : t) :
  worker_step w o = Some o' -> done o' = done o.
Proof.
  unfold worker_step. destruct (exited o); [discriminate |].
  destruct w.
  - destruct (queue o); [discriminate |].
    destruct (_ <=? _)%Z; intros [= <-]; [| reflexivity].
    unfold sendBatch. now destruct (batch o ++ _).
  - destruct (0 <? _)%nat; intros [= <-]; [| reflexivity].
    unfold sendBatch. now destruct (batch o).
  - destruct (done o) eqn:Hd; [| discriminate].
    intros [= <-]. now rewrite observe_drain_done.
Qed.

Lemma observe_worker_done (sched : list wake) :
  forall o : t, done (worker sched o) = done o.
Proof.
  induction sched as [|w sched IH]; intros o; [reflexivity |].
  cbn [worker]. destruct (worker_step w o) as [o'|] eqn:Hstep.
  - rewrite IH. now apply observe_worker_step_done with (w := w).
  - apply IH.
Qed.

End ObserveWorkerFacts.

Section ShutdownClaims.
Import Logger Statly.

(** C3 (the code panics): [Close] of a destination that a first [Close]
    returned from runs [close] on the closed [done] channel, which panics.
    It does so for the Observe destination and for the HTTP transport, from
    every state and whatever the worker did before it returned. *)
Theorem Close_of_closed_destination_panics :
  (forall (o : ObserveDestination.t) (sched sched' : list wake),
     match ObserveDestination.Close sched o with
     | Returned o' =>
         ObserveDestination.Close sched' o' = Panicked "close of closed channel"
     | Panicked _ => ObserveDestination.done o = true
     end)
  /\ (forall (net net' : nat -> Z -> reply) (t0 : HTTPTransport.t)
             (sched sched' : list wake) (timeout timeout' : Z),
        match HTTPTransport.Close net sched t0 timeout with
        | Returned t1 =>
            HTTPTransport.Close net' sched' t1 timeout' = Panicked "close of closed channel"
        | Panicked _ => HTTPTransport.done t0 = true
        end)
  /\ ObserveDestination.Close []
       (ObserveDestination.NewObserveDestination "https://sk_live_xxx@statly.live/acme" None)
     = Returned
         (ObserveDestination.with_exited
            (ObserveDestination.with_done
               (ObserveDestination.NewObserveDestination
                  "https://sk_live_xxx@statly.live/acme" None) true) true)
  /\ ObserveDestination.Close []
       (ObserveDestination.with_exited
          (ObserveDestination.with_done
             (ObserveDestination.NewObserveDestination
                "https://sk_live_xxx@statly.live/acme" None) true) true)
     = Panicked "close of closed channel".
Proof.
  split; [| split; [| split]].
  - intros o sched sched'. unfold ObserveDestination.Close at 1.
    destruct (ObserveDestination.done o) eqn:Hd; [reflexivity |].
    unfold ObserveDestination.Close. now rewrite observe_worker_done.
  - intros net net' t0 sched sched' timeout timeout'. unfold HTTPTransport.Close at 1.
    destruct (HTTPTransport.done t0) eqn:Hd; [reflexivity |].
    unfold HTTPTransport.Close. now rewrite worker_done.
  - reflexivity.
  - reflexivity.
Qed.

End ShutdownClaims.

Section BatchingFacts.
Import Logger Statly.

(** The Observe worker after it received [2B + 3] records in a row: two
    batches sent, and the last three records either held (3 < B) or sent
    (B = 3). *)
Lemma observe_receive_2B_3 (u : string) (c : ObserveConfig.t) (sm : gmap Logger.Level float)
    (cap : nat) (d : bool) (s : list (list Entry.t)) (B : nat) (b1 b2 b3 : list Entry.t) :
  (3 <= B)%nat ->
  ObserveConfig.BatchSize c = Z.of_nat B ->
  List.length b1 = B -> List.length b2 = B -> List.length b3 = 3%nat ->
  exists held st,
    ObserveDestination.worker (repeat OnQueue (2 * B + 3))
      {| ObserveDestination.dsn := u; ObserveDestination.config := c;
         ObserveDestination.sampling := sm; ObserveDestination.queue_cap := cap;
         ObserveDestination.queue := b1 ++ b2 ++ b3; ObserveDestination.done := d;
         ObserveDestination.batch := []; ObserveDestination.exited := false;
         ObserveDestination.sent := s |}
    = {| ObserveDestination.dsn := u; ObserveDestination.config := c;
         ObserveDestination.sampling := sm; ObserveDestination.queue_cap := cap;
         ObserveDestination.queue := []; ObserveDestination.done := d;
         ObserveDestination.batch := held; ObserveDestination.exited := false;
         ObserveDestination.sent := st |}
    /\ ((held = [] /\ st = s ++ [b1; b2; b3]) \/ (held = b3 /\ st = s ++ [b1; b2])).
Proof.
  intros HB3 HB Hb1 Hb2 Hb3.
  replace (2 * B + 3)%nat with (B + (B + 3))%nat by lia.
  rewrite !repeat_app, !observe_worker_app.
  pose proof (observe_receive_block u c sm cap d s B (b2 ++ b3) b1 HB []) as H1.
  rewrite Hb1 in H1. cbn [app List.length] in H1. rewrite H1 by lia. clear H1.
  pose proof (observe_receive_block u c sm cap d (s ++ [b1]) B b3 b2 HB []) as H2.
  rewrite Hb2 in H2. cbn [app List.length] in H2. rewrite H2 by lia. clear H2.
  rewrite <- !app_assoc. cbn [app].
  destruct (Nat.eq_dec B 3%nat) as [->|Hne].
  - pose proof (observe_receive_block u c sm cap d (s ++ [b1; b2]) 3%nat [] b3 HB []) as H3.
    rewrite Hb3, app_nil_r in H3. cbn [app List.length] in H3. rewrite H3 by lia.
    exists [], (s ++ [b1; b2; b3]). split; [| left; auto].
    now rewrite <- app_assoc.
  - pose proof (observe_receive_partial u c sm cap d (s ++ [b1; b2]) B [] b3 HB []) as H3.
    rewrite Hb3, app_nil_r in H3. cbn [app List.length] in H3. rewrite H3 by lia.
    exists b3, (s ++ [b1; b2]). split; [reflexivity | right; auto].
Qed.

(** The same for the HTTP transport's worker. *)
Lemma transport_receive_2B_3 (net : nat -> Z -> reply) (opts : TransportOptions.t)
    (cap : nat) (d : bool) (s : list (list Event.t * report)) (B : nat)
    (b1 b2 b3 : list Event.t) :
  (3 <= B)%nat ->
  TransportOptions.BatchSize opts = Z.of_nat B ->
  List.length b1 = B -> List.length b2 = B -> List.length b3 = 3%nat ->
  exists held st,
    HTTPTransport.worker net (repeat OnQueue (2 * B + 3))
      {| HTTPTransport.options := opts; HTTPTransport.queue_cap := cap;
         HTTPTransport.queue := b1 ++ b2 ++ b3; HTTPTransport.done := d;
         HTTPTransport.batch := []; HTTPTransport.exited := false;
         HTTPTransport.sent := s |}
    = {| HTTPTransport.options := opts; HTTPTransport.queue_cap := cap;
         HTTPTransport.queue := []; HTTPTransport.done := d;
         HTTPTransport.batch := held; HTTPTransport.exited := false;
         HTTPTransport.sent := st |}
    /\ ((held = [] /\ map fst st = map fst s ++ [b1; b2; b3])
        \/ (held = b3 /\ map fst st = map fst s ++ [b1; b2])).
Proof.
  intros HB3 HB Hb1 Hb2 Hb3.
  replace (2 * B + 3)%nat with (B + (B + 3))%nat by lia.
  rewrite !repeat_app, !worker_app.
  pose proof (worker_receive_block net opts cap d s B (b2 ++ b3) b1 HB []) as H1.
  rewrite Hb1 in H1. cbn [app List.length] in H1. rewrite H1 by lia. clear H1.
  pose proof (worker_receive_block net opts cap d (s ++ [(b1, sendBatch opts b1 (net (List.length s)))])
                B b3 b2 HB []) as H2.
  rewrite Hb2 in H2. cbn [app List.length] in H2. rewrite H2 by lia. clear H2.
  destruct (Nat.eq_dec B 3%nat) as [->|Hne].
  - pose proof (worker_receive_block net opts cap d
                  ((s ++ [(b1, sendBatch opts b1 (net (List.length s)))])
                     ++ [(b2, sendBatch opts b2
                               (net (List.length (s ++ [(b1, sendBatch opts b1 (net (List.length s)))]))))])
                  3%nat [] b3 HB []) as H3.
    rewrite Hb3, app_nil_r in H3. cbn [app List.length] in H3. rewrite H3 by lia.
    eexists [], _. split; [reflexivity | left; split; [reflexivity |]].
    rewrite !map_app. cbn [map fst]. now rewrite <- !app_assoc.
  - pose proof (worker_receive_partial net opts cap d
                  ((s ++ [(b1, sendBatch opts b1 (net (List.length s)))])
                     ++ [(b2, sendBatch opts b2
                               (net (List.length (s ++ [(b1, sendBatch opts b1 (net (List.length s)))]))))])
                  B [] b3 HB []) as H3.
    rewrite Hb3, app_nil_r in H3. cbn [app List.length] in H3. rewrite H3 by lia.
    eexists b3, _. split; [reflexivity | right; split; [reflexivity |]].
    rewrite !map_app. cbn [map fst]. now rewrite <- !app_assoc.
Qed.

End BatchingFacts.

Section BatchingClaims.
Import Logger Statly.

(** With a threshold below 3 the count of batches is another: with
    [BatchSize = 1], five records ([2B + 3]) received in a row are sent as
    five batches of one. *)
Lemma worker_sends_five_batches_at_threshold_1 :
  ObserveDestination.sent
    (ObserveDestination.worker (repeat OnQueue 5 ++ [OnTimer])
       (ObserveDestination.with_queue
          (ObserveDestination.NewObserveDestination "https://sk_live_xxx@statly.live/acme"
             (Some (Samples.observe_config 1)))
          (Samples.entries Logger.LevelError 5)))
  = [ [Samples.entry Logger.LevelError "A"]; [Samples.entry Logger.LevelError "B"];
      [Samples.entry Logger.LevelError "C"]; [Samples.entry Logger.LevelError "D"];
      [Samples.entry Logger.LevelError "E"] ]
  /\ HTTPTransport.batches
       (HTTPTransport.worker (fun _ => Samples.always 200) (repeat OnQueue 5 ++ [OnTimer])
          (HTTPTransport.with_queue
             (HTTPTransport.NewHTTPTransport (Samples.options_with_batch 1))
             (Samples.events 5)))
     = [ [Samples.event "A"]; [Samples.event "B"]; [Samples.event "C"];
         [Samples.event "D"]; [Samples.event "E"] ].
Proof. split; reflexivity. Qed.

(** Where the batching rule holds: for a threshold [B] of at least 3 and
    [2B + 3] queued records, a worker that receives them in a row and then
    sees its timer fire has sent exactly the batches of the first [B], the
    next [B] and the last 3 records, in this order; so has the worker of the
    model of the Observe destination closed after it received them, and
    the HTTP transport closed before its worker took any of them. The HTTP
    transport's drain loop, started with an empty batch, sends each run of
    [B] queued records as a batch of its own, then the remaining records, if
    any, as a last batch, and the worker returns. *)
Lemma worker_sends_batches_B_B_3 (B : nat) :
  (3 <= B)%nat ->
  (forall (u : string) (c : ObserveConfig.t) (sm : gmap Logger.Level float) (cap : nat)
          (s : list (list Entry.t)) (b1 b2 b3 : list Entry.t),
     ObserveConfig.BatchSize c = Z.of_nat B ->
     List.length b1 = B -> List.length b2 = B -> List.length b3 = 3%nat ->
     let o := {| ObserveDestination.dsn := u; ObserveDestination.config := c;
                 ObserveDestination.sampling := sm; ObserveDestination.queue_cap := cap;
                 ObserveDestination.queue := b1 ++ b2 ++ b3;
                 ObserveDestination.done := false;
                 ObserveDestination.batch := []; ObserveDestination.exited := false;
                 ObserveDestination.sent := s |} in
     ObserveDestination.sent
       (ObserveDestination.worker (repeat OnQueue (2 * B + 3) ++ [OnTimer]) o)
     = s ++ [b1; b2; b3]
     /\ exists o',
          ObserveDestination.Close (repeat OnQueue (2 * B + 3)) o = Returned o'
          /\ ObserveDestination.sent o' = s ++ [b1; b2; b3]
          /\ ObserveDestination.exited o' = true
          /\ ObserveDestination.queue o' = [])
  /\ (forall (net : nat -> Z -> reply) (opts : TransportOptions.t) (cap : nat)
             (s : list (list Event.t * report)) (b1 b2 b3 : list Event.t) (timeout : Z),
        TransportOptions.BatchSize opts = Z.of_nat B ->
        List.length b1 = B -> List.length b2 = B -> List.length b3 = 3%nat ->
        let t0 := {| HTTPTransport.options := opts; HTTPTransport.queue_cap := cap;
                     HTTPTransport.queue := b1 ++ b2 ++ b3; HTTPTransport.done := false;
                     HTTPTransport.batch := []; HTTPTransport.exited := false;
                     HTTPTransport.sent := s |} in
        HTTPTransport.batches
          (HTTPTransport.worker net (repeat OnQueue (2 * B + 3) ++ [OnTimer]) t0)
        = HTTPTransport.batches t0 ++ [b1; b2; b3]
        /\ exists t1,
             HTTPTransport.Close net [] t0 timeout = Returned t1
             /\ HTTPTransport.batches t1 = HTTPTransport.batches t0 ++ [b1; b2; b3]
             /\ HTTPTransport.exited t1 = true
             /\ HTTPTransport.queue t1 = [])
  /\ (forall (net : nat -> Z -> reply) (opts : TransportOptions.t) (cap : nat) (d : bool)
             (s : list (list Event.t * report)) (q : list Event.t),
        TransportOptions.BatchSize opts = Z.of_nat B ->
        let t0 := {| HTTPTransport.options := opts; HTTPTransport.queue_cap := cap;
                     HTTPTransport.queue := q; HTTPTransport.done := d;
                     HTTPTransport.batch := []; HTTPTransport.exited := false;
                     HTTPTransport.sent := s |} in
        (forall c rest : list Event.t,
           List.length c = B ->
           HTTPTransport.drain net t0 (c ++ rest) []
           = HTTPTransport.drain net (HTTPTransport.call_sendBatch net t0 c) rest [])
        /\ (forall c : list Event.t,
              (0 < List.length c < B)%nat ->
              HTTPTransport.drain net t0 c []
              = HTTPTransport.with_exited
                  (HTTPTransport.with_batch
                     (HTTPTransport.with_queue (HTTPTransport.call_sendBatch net t0 c) []) c)
                  true)
        /\ HTTPTransport.drain net t0 [] []
           = HTTPTransport.with_exited (HTTPTransport.with_queue t0 []) true).
Proof.
  intros HB3. split; [| split].
  - intros u c sm cap s b1 b2 b3 HB Hb1 Hb2 Hb3 o. subst o. split.
    + rewrite observe_worker_app.
      destruct (observe_receive_2B_3 u c sm cap false s B b1 b2 b3 HB3 HB Hb1 Hb2 Hb3)
        as (held & st & -> & [[-> ->]|[-> ->]]).
      * reflexivity.
      * destruct b3 as [|x b3]; [discriminate |]. cbn.
        now rewrite <- app_assoc.
    + unfold ObserveDestination.Close. cbn [ObserveDestination.done].
      eexists. split; [reflexivity |].
      unfold ObserveDestination.with_done. cbn -[Nat.mul repeat].
      rewrite observe_worker_app.
      destruct (observe_receive_2B_3 u c sm cap true s B b1 b2 b3 HB3 HB Hb1 Hb2 Hb3)
        as (held & st & -> & [[-> ->]|[-> ->]]).
      * cbn. auto.
      * destruct b3 as [|x b3]; [discriminate |]. cbn.
        rewrite <- app_assoc. auto.
  - intros net opts cap s b1 b2 b3 timeout HB Hb1 Hb2 Hb3 t0. subst t0. split.
    + rewrite worker_app.
      destruct (transport_receive_2B_3 net opts cap false s B b1 b2 b3 HB3 HB Hb1 Hb2 Hb3)
        as (held & st & -> & [[-> Hst]|[-> Hst]]).
      * cbn. exact Hst.
      * destruct b3 as [|x b3]; [discriminate |].
        unfold HTTPTransport.batches. cbn. rewrite map_app, Hst. cbn.
        now rewrite <- app_assoc.
    + unfold HTTPTransport.Close. cbn [HTTPTransport.done].
      eexists. split; [reflexivity |].
      unfold HTTPTransport.with_done, HTTPTransport.batches.
      cbn [app HTTPTransport.worker HTTPTransport.worker_step HTTPTransport.options
           HTTPTransport.queue_cap HTTPTransport.queue HTTPTransport.done
           HTTPTransport.batch HTTPTransport.exited HTTPTransport.sent List.length Nat.ltb
           Nat.leb].
      pose proof (drain_block net opts cap true s B (b1 ++ b2 ++ b3) (b2 ++ b3) b1 HB []) as H1.
      cbn [app List.length] in H1. rewrite H1 by lia. clear H1.
      pose proof (drain_block net opts cap true
                    (s ++ [(b1, sendBatch opts b1 (net (List.length s)))])
                    B (b1 ++ b2 ++ b3) b3 b2 HB []) as H2.
      cbn [app List.length] in H2. rewrite H2 by lia. clear H2.
      destruct (Nat.eq_dec B 3%nat) as [->|Hne].
      * pose proof (drain_block net opts cap true
                      ((s ++ [(b1, sendBatch opts b1 (net (List.length s)))])
                         ++ [(b2, sendBatch opts b2
                                   (net (List.length
                                           (s ++ [(b1, sendBatch opts b1 (net (List.length s)))]))))])
                      3%nat (b1 ++ b2 ++ b3) [] b3 HB []) as H3.
        rewrite app_nil_r in H3. cbn [app List.length] in H3. rewrite H3 by lia. clear H3.
        cbn. rewrite !map_app. cbn. rewrite <- !app_assoc. auto.
      * pose proof (drain_partial net opts cap true
                      ((s ++ [(b1, sendBatch opts b1 (net (List.length s)))])
                         ++ [(b2, sendBatch opts b2
                                   (net (List.length
                                           (s ++ [(b1, sendBatch opts b1 (net (List.length s)))]))))])
                      B (b1 ++ b2 ++ b3) b3 HB []) as H3.
        cbn [app List.length] in H3. rewrite H3 by lia. clear H3.
        cbn. rewrite !map_app. cbn. rewrite <- !app_assoc. auto.
  - intros net opts cap d s q HB t0. subst t0. split; [| split].
    + intros c rest Hc.
      pose proof (drain_block net opts cap d s B q rest c HB []) as H1.
      cbn [app List.length] in H1. now rewrite H1 by lia.
    + intros c Hc.
      pose proof (drain_partial net opts cap d s B q c HB []) as H1.
      cbn [app List.length] in H1. now rewrite H1 by lia.
    + reflexivity.
Qed.

(** C6 (the code departs from the claim at shutdown): for every threshold
    [B] of at least 3 and [2B + 3] records in the queue, the batches are not
    the first [B], the next [B] and the last 3 records when the destination
    is closed while records are pending.

    The worker of the Observe destination, taking the [done] case with the
    records still queued, hands all [2B + 3] of them to [sendBatch] as one
    batch: its drain loop has no threshold.

    The HTTP transport, closed when its worker has taken the first record,
    hands four batches to [sendBatch]: the first record alone, the first
    [B] records, the next [B] and the last 3. The batch pending in the
    [done] case is sent and not reset, so the first record is sent twice. *)
Theorem Close_departs_from_batches_B_B_3 (B : nat) :
  (3 <= B)%nat ->
  (forall (u : string) (c : ObserveConfig.t) (sm : gmap Logger.Level float) (cap : nat)
          (s : list (list Entry.t)) (b1 b2 b3 : list Entry.t),
     ObserveConfig.BatchSize c = Z.of_nat B ->
     List.length b1 = B -> List.length b2 = B -> List.length b3 = 3%nat ->
     let o := {| ObserveDestination.dsn := u; ObserveDestination.config := c;
                 ObserveDestination.sampling := sm; ObserveDestination.queue_cap := cap;
                 ObserveDestination.queue := b1 ++ b2 ++ b3;
                 ObserveDestination.done := true;
                 ObserveDestination.batch := []; ObserveDestination.exited := false;
                 ObserveDestination.sent := s |} in
     ObserveDestination.sent (ObserveDestination.worker [OnDone] o) = s ++ [b1 ++ b2 ++ b3]
     /\ ObserveDestination.sent (ObserveDestination.worker [OnDone] o) <> s ++ [b1; b2; b3]
     /\ ObserveDestination.exited (ObserveDestination.worker [OnDone] o) = true)
  /\ (forall (net : nat -> Z -> reply) (opts : TransportOptions.t) (cap : nat)
             (s : list (list Event.t * report)) (r : Event.t) (c1 b2 b3 : list Event.t)
             (timeout : Z),
        TransportOptions.BatchSize opts = Z.of_nat B ->
        S (List.length c1) = B -> List.length b2 = B -> List.length b3 = 3%nat ->
        let t0 := {| HTTPTransport.options := opts; HTTPTransport.queue_cap := cap;
                     HTTPTransport.queue := (r :: c1) ++ b2 ++ b3;
                     HTTPTransport.done := false;
                     HTTPTransport.batch := []; HTTPTransport.exited := false;
                     HTTPTransport.sent := s |} in
        exists t1,
          HTTPTransport.Close net [OnQueue] t0 timeout = Returned t1
          /\ HTTPTransport.batches t1
             = HTTPTransport.batches t0 ++ [[r]; r :: c1; b2; b3]
          /\ HTTPTransport.batches t1 <> HTTPTransport.batches t0 ++ [r :: c1; b2; b3]
          /\ HTTPTransport.exited t1 = true
          /\ HTTPTransport.queue t1 = []).
Proof.
  intros HB3. split.
  - intros u c sm cap s b1 b2 b3 HB Hb1 Hb2 Hb3 o. subst o.
    cbn [ObserveDestination.worker ObserveDestination.worker_step ObserveDestination.exited
         ObserveDestination.done ObserveDestination.queue ObserveDestination.batch].
    rewrite observe_drain_one_batch. cbn [app].
    assert (Hsent : ObserveDestination.sent
                      (ObserveDestination.sendBatch
                         {| ObserveDestination.dsn := u; ObserveDestination.config := c;
                            ObserveDestination.sampling := sm;
                            ObserveDestination.queue_cap := cap;
                            ObserveDestination.queue := b1 ++ b2 ++ b3;
                            ObserveDestination.done := true;
                            ObserveDestination.batch := [];
                            ObserveDestination.exited := false;
                            ObserveDestination.sent := s |} (b1 ++ b2 ++ b3))
                    = s ++ [b1 ++ b2 ++ b3]).
    { unfold ObserveDestination.sendBatch.
      destruct (b1 ++ b2 ++ b3) eqn:Hall; [| reflexivity].
      apply (f_equal (@List.length _)) in Hall. rewrite !length_app in Hall.
      cbn in Hall. lia. }
    cbn [ObserveDestination.sent ObserveDestination.with_exited ObserveDestination.with_batch
         ObserveDestination.with_queue ObserveDestination.exited].
    rewrite Hsent. split; [reflexivity |]. split; [| reflexivity].
    intros Heq. apply app_inv_head in Heq. discriminate.
  - intros net opts cap s r c1 b2 b3 timeout HB Hc1 Hb2 Hb3 t0. subst t0.
    unfold HTTPTransport.Close. cbn [HTTPTransport.done].
    eexists. split; [reflexivity |].
    unfold HTTPTransport.with_done, HTTPTransport.batches.
    cbn [HTTPTransport.options HTTPTransport.queue_cap HTTPTransport.queue
         HTTPTransport.done HTTPTransport.batch HTTPTransport.exited HTTPTransport.sent].
    rewrite worker_app.
    pose proof (worker_receive_partial net opts cap true s B (c1 ++ b2 ++ b3) [r] HB [])
      as H0.
    cbn [app List.length repeat] in H0. cbn [app]. rewrite H0 by lia. clear H0.
    cbn [HTTPTransport.worker HTTPTransport.worker_step HTTPTransport.options
         HTTPTransport.queue_cap HTTPTransport.queue HTTPTransport.done
         HTTPTransport.batch HTTPTransport.exited HTTPTransport.sent List.length Nat.ltb
         Nat.leb].
    set (s1 := s ++ [([r], sendBatch opts [r] (net (List.length s)))]).
    change (HTTPTransport.call_sendBatch net
              {| HTTPTransport.options := opts; HTTPTransport.queue_cap := cap;
                 HTTPTransport.queue := c1 ++ b2 ++ b3; HTTPTransport.done := true;
                 HTTPTransport.batch := [r]; HTTPTransport.exited := false;
                 HTTPTransport.sent := s |} [r])
      with (HTTPTransport.with_batch
              {| HTTPTransport.options := opts; HTTPTransport.queue_cap := cap;
                 HTTPTransport.queue := c1 ++ b2 ++ b3; HTTPTransport.done := true;
                 HTTPTransport.batch := []; HTTPTransport.exited := false;
                 HTTPTransport.sent := s1 |} [r]).
    rewrite drain_batch_field.
    pose proof (drain_block net opts cap true s1 B (c1 ++ b2 ++ b3) (b2 ++ b3) c1 HB [r])
      as H1.
    cbn [app List.length] in H1. rewrite H1 by lia. clear H1.
    set (s2 := s1 ++ [(r :: c1, sendBatch opts (r :: c1) (net (List.length s1)))]).
    pose proof (drain_block net opts cap true s2 B (c1 ++ b2 ++ b3) b3 b2 HB []) as H2.
    cbn [app List.length] in H2. rewrite H2 by lia. clear H2.
    set (s3 := s2 ++ [(b2, sendBatch opts b2 (net (List.length s2)))]).
    assert (Hbatches : forall x, map fst (s3 ++ [(b3, x)]) = map fst s ++ [[r]; r :: c1; b2; b3]).
    { intros x. subst s3 s2 s1. rewrite !map_app. cbn [map fst].
      now rewrite <- !app_assoc. }
    assert (Hne : forall x, map fst (s3 ++ [(b3, x)]) <> map fst s ++ [r :: c1; b2; b3]).
    { intros x. rewrite Hbatches. intros Heq. apply app_inv_head in Heq.
      injection Heq as Heq _. destruct c1; [cbn in Hc1; lia | discriminate]. }
    destruct (Nat.eq_dec B 3%nat) as [->|Hne3].
    + pose proof (drain_block net opts cap true s3 3%nat (c1 ++ b2 ++ b3) [] b3 HB []) as H3.
      rewrite app_nil_r in H3. cbn [app List.length] in H3. rewrite H3 by lia. clear H3.
      cbn [HTTPTransport.drain List.length Nat.ltb Nat.leb HTTPTransport.with_exited
           HTTPTransport.with_batch HTTPTransport.with_queue HTTPTransport.sent
           HTTPTransport.exited HTTPTransport.queue].
      split; [apply Hbatches |]. split; [apply Hne |]. split; reflexivity.
    + pose proof (drain_partial net opts cap true s3 B (c1 ++ b2 ++ b3) b3 HB []) as H3.
      cbn [app List.length] in H3. rewrite H3 by lia. clear H3.
      cbn [HTTPTransport.sent HTTPTransport.exited HTTPTransport.queue].
      split; [apply Hbatches |]. split; [apply Hne |]. split; reflexivity.
Qed.

End BatchingClaims.

(** ** Sender: retries *)

Section RetryFacts.
Import Statly.
Variables (retryDelay : Z) (net : Z -> reply).

Lemma retry_continue (remaining : nat) (attempt : Z) :
  retried (net attempt) = true ->
  retry retryDelay net (S remaining) attempt
  = cons_attempt (attempt_at retryDelay net attempt)
      (retry retryDelay net remaining (attempt + 1)).
Proof.
  intros Hgo. cbn [retry]. destruct (net attempt) as [| |code]; try reflexivity.
  cbn in Hgo. apply andb_true_iff in Hgo as [Hs Hc].
  apply negb_true_iff in Hs, Hc. now rewrite Hs, Hc.
Qed.

Lemma retry_stop (remaining : nat) (attempt : Z) :
  retried (net attempt) = false ->
  retry retryDelay net (S remaining) attempt
  = {| attempts := [attempt_at retryDelay net attempt];
       result_of := match net attempt with
                    | Status code => if is_success code then Delivered else Rejected code
                    | _ => Abandoned
                    end |}.
Proof.
  intros Hstop. cbn [retry]. destruct (net attempt) as [| |code]; try discriminate.
  cbn in Hstop. destruct (is_success code); [reflexivity |].
  cbn in Hstop. apply negb_false_iff in Hstop. now rewrite Hstop.
Qed.

Lemma shifted_attempts (attempt : Z) (n : nat) :
  attempt_at retryDelay net attempt
    :: map (fun i => attempt_at retryDelay net (attempt + 1 + Z.of_nat i)) (seq 0 n)
  = map (fun i => attempt_at retryDelay net (attempt + Z.of_nat i)) (seq 0 (S n)).
Proof.
  cbn [seq map]. rewrite Z.add_0_r. f_equal.
  rewrite <- seq_shift, map_map. apply map_ext. intros i. f_equal. lia.
Qed.

(** The loop stops at the first reply that is not retried. *)
Lemma retry_stops_at (n : nat) :
  forall (remaining : nat) (attempt : Z),
  (n < remaining)%nat ->
  (forall i, (i < n)%nat -> retried (net (attempt + Z.of_nat i)) = true) ->
  retried (net (attempt + Z.of_nat n)) = false ->
  retry retryDelay net remaining attempt
  = {| attempts := map (fun i => attempt_at retryDelay net (attempt + Z.of_nat i))
                       (seq 0 (S n));
       result_of := match net (attempt + Z.of_nat n) with
                    | Status code => if is_success code then Delivered else Rejected code
                    | _ => Abandoned
                    end |}.
Proof.
  induction n as [|n IH]; intros remaining attempt Hn Hgo Hstop;
    (destruct remaining as [|remaining]; [lia |]).
  - cbn [Z.of_nat] in *. rewrite Z.add_0_r in *. rewrite retry_stop by assumption.
    cbn [seq map Z.of_nat]. now rewrite Z.add_0_r.
  - rewrite retry_continue.
    2: { specialize (Hgo 0%nat ltac:(lia)). cbn in Hgo. now rewrite Z.add_0_r in Hgo. }
    rewrite (IH remaining (attempt + 1)).
    + unfold cons_attempt. cbn [attempts result_of].
      rewrite shifted_attempts. f_equal.
      now replace (attempt + 1 + Z.of_nat n) with (attempt + Z.of_nat (S n)) by lia.
    + lia.
    + intros i Hi. replace (attempt + 1 + Z.of_nat i) with (attempt + Z.of_nat (S i)) by lia.
      apply Hgo. lia.
    + now replace (attempt + 1 + Z.of_nat n) with (attempt + Z.of_nat (S n)) by lia.
Qed.

(** When every reply is retried, the loop uses all its iterations. *)
Lemma retry_exhausts (remaining : nat) :
  forall attempt : Z,
  (forall i, (i < remaining)%nat -> retried (net (attempt + Z.of_nat i)) = true) ->
  retry retryDelay net remaining attempt
  = {| attempts := map (fun i => attempt_at retryDelay net (attempt + Z.of_nat i))
                       (seq 0 remaining);
       result_of := Abandoned |}.
Proof.
  induction remaining as [|remaining IH]; intros attempt Hgo; [reflexivity |].
  rewrite retry_continue.
  2: { specialize (Hgo 0%nat ltac:(lia)). cbn in Hgo. now rewrite Z.add_0_r in Hgo. }
  rewrite IH.
  - unfold cons_attempt. cbn [attempts result_of]. now rewrite shifted_attempts.
  - intros i Hi. replace (attempt + 1 + Z.of_nat i) with (attempt + Z.of_nat (S i)) by lia.
    apply Hgo. lia.
Qed.

End RetryFacts.

Section PipelineFacts.
Import Statly Statly.HTTPTransport.
Variables net1 net2 : nat -> Z -> reply.

Lemma same_pipeline_call (t1 t2 : t) (b : list Event.t) :
  same_pipeline t1 t2 ->
  same_pipeline (call_sendBatch net1 t1 b) (call_sendBatch net2 t2 b).
Proof.
  unfold same_pipeline, batches. intros (Ho & Hc & Hq & Hd & Hb & Hx & Hs).
  cbn. rewrite !map_app, Hs. cbn. auto 10.
Qed.

Lemma same_pipeline_drain (pending : list Event.t) :
  forall (t1 t2 : t) (b : list Event.t),
  same_pipeline t1 t2 ->
  same_pipeline (drain net1 t1 pending b) (drain net2 t2 pending b).
Proof.
  induction pending as [|e pending IH]; intros t1 t2 b Hsame; cbn [drain].
  - destruct (0 <? List.length b)%nat.
    + apply (same_pipeline_call _ _ b) in Hsame.
      unfold same_pipeline, batches in *. cbn in *. intuition.
    + unfold same_pipeline, batches in *. cbn in *. intuition.
  - assert (Ho : options t1 = options t2) by apply Hsame. rewrite Ho.
    destruct (_ <=? _)%Z; apply IH; auto using same_pipeline_call.
Qed.

Lemma same_pipeline_step (w : wake) (t1 t2 : t) :
  same_pipeline t1 t2 ->
  match worker_step net1 w t1, worker_step net2 w t2 with
  | Some t1', Some t2' => same_pipeline t1' t2'
  | None, None => True
  | _, _ => False
  end.
Proof.
  intros Hsame. pose proof Hsame as (Ho & Hc & Hq & Hd & Hb & Hx & Hs).
  unfold worker_step. rewrite Hx, Hq, Hb, Ho, Hd.
  destruct (exited t2); [exact I |].
  destruct w.
  - destruct (queue t2) as [|e rest]; [exact I |].
    destruct (_ <=? _)%Z.
    + apply (same_pipeline_call _ _ (batch t2 ++ [e])) in Hsame.
      unfold same_pipeline, batches in *. cbn in *. intuition.
    + unfold same_pipeline, batches in *. cbn in *. intuition.
  - destruct (0 <? _)%nat.
    + apply (same_pipeline_call _ _ (batch t2)) in Hsame.
      unfold same_pipeline, batches in *. cbn in *. intuition.
    + assumption.
  - destruct (done t2); [| exact I].
    apply same_pipeline_drain.
    destruct (0 <? _)%nat; auto using same_pipeline_call.
Qed.

(** What the network does never feeds back into the pipeline: the queue, the
    worker's batch and the batches handed to [sendBatch] are the same. *)
Lemma same_pipeline_worker (sched : list wake) :
  forall t1 t2 : t,
  same_pipeline t1 t2 ->
  same_pipeline (worker net1 sched t1) (worker net2 sched t2).
Proof.
  induction sched as [|w sched IH]; intros t1 t2 Hsame; [assumption |].
  cbn [worker]. pose proof (same_pipeline_step w t1 t2 Hsame) as Hstep.
  destruct (worker_step net1 w t1), (worker_step net2 w t2); try contradiction; auto.
Qed.

Lemma same_pipeline_refl (t0 : t) : same_pipeline t0 t0.
Proof. unfold same_pipeline. auto 10. Qed.

End PipelineFacts.

Section RetryClaims.
Import Statly.

Lemma sendBatch_retry (options : TransportOptions.t) (batch : list Event.t)
    (net : Z -> reply) :
  batch <> [] ->
  Marshal batch <> None ->
  sendBatch options batch net
  = retry (TransportOptions.RetryDelay options) net
          (Z.to_nat (TransportOptions.MaxRetries options)) 0.
Proof.
  intros Hbatch Hbody. unfold sendBatch.
  destruct batch; [congruence |]. now destruct (Marshal _).
Qed.

Lemma client_error_not_success (code : Z) : is_client_error code = true -> is_success code = false.
Proof.
  unfold is_client_error, is_success. intros [Hlo Hhi]%andb_true_iff.
  apply Z.leb_le in Hlo. apply orb_false_iff. split; apply Z.eqb_neq; lia.
Qed.

(** C1: a send of a non-empty batch that marshals stops at the first attempt
    that gets a 200 or a 202 and reports it delivered; it stops at the first
    attempt that gets a 4xx, so after one attempt when the first reply is a
    4xx; after any other reply (a request or network error, a 5xx) it goes
    on until [MaxRetries] attempts are made (3 when the option is left at
    zero) and then gives the batch up. What the network does never changes
    the queue or the worker's batch: a batch given up is not queued again.
    With 503, 503, 200 and three attempts allowed the batch is delivered by
    the third attempt; with 404 throughout there is one attempt. *)
Theorem sendBatch_retry_policy (options : TransportOptions.t) (batch : list Event.t)
    (net : Z -> reply) :
  batch <> [] ->
  Marshal batch <> None ->
  (forall n : nat,
     (n < Z.to_nat (TransportOptions.MaxRetries options))%nat ->
     (forall i, (i < n)%nat -> retried (net (Z.of_nat i)) = true) ->
     forall code, net (Z.of_nat n) = Status code ->
       (is_success code = true ->
          result_of (sendBatch options batch net) = Delivered
          /\ List.length (attempts (sendBatch options batch net)) = S n)
       /\ (is_client_error code = true ->
             result_of (sendBatch options batch net) = Rejected code
             /\ List.length (attempts (sendBatch options batch net)) = S n))
  /\ ((forall i, (i < Z.to_nat (TransportOptions.MaxRetries options))%nat ->
         retried (net (Z.of_nat i)) = true) ->
      result_of (sendBatch options batch net) = Abandoned
      /\ List.length (attempts (sendBatch options batch net))
         = Z.to_nat (TransportOptions.MaxRetries options))
  /\ (TransportOptions.MaxRetries options = 3 ->
      net 0 = Status 503 -> net 1 = Status 503 -> net 2 = Status 200 ->
      result_of (sendBatch options batch net) = Delivered
      /\ List.length (attempts (sendBatch options batch net)) = 3%nat
      /\ List.length (posted (sendBatch options batch net)) = 3%nat
      /\ map slept (attempts (sendBatch options batch net))
         = [ None; Some (backoff (TransportOptions.RetryDelay options) 1);
             Some (backoff (TransportOptions.RetryDelay options) 2) ])
  /\ ((forall i, net i = Status 404) ->
      1 <= TransportOptions.MaxRetries options ->
      result_of (sendBatch options batch net) = Rejected 404
      /\ List.length (attempts (sendBatch options batch net)) = 1%nat
      /\ List.length (posted (sendBatch options batch net)) = 1%nat)
  /\ (forall o : TransportOptions.t,
        TransportOptions.MaxRetries o = 0 ->
        TransportOptions.MaxRetries (HTTPTransport.options (HTTPTransport.NewHTTPTransport o))
        = 3)
  /\ (forall (net1 net2 : nat -> Z -> reply) (sched : list wake) (t0 : HTTPTransport.t),
        HTTPTransport.same_pipeline (HTTPTransport.worker net1 sched t0)
                                    (HTTPTransport.worker net2 sched t0)).
Proof.
  intros Hbatch Hbody. rewrite sendBatch_retry by assumption.
  assert (Hstops : forall n : nat,
     (n < Z.to_nat (TransportOptions.MaxRetries options))%nat ->
     (forall i, (i < n)%nat -> retried (net (Z.of_nat i)) = true) ->
     forall code, net (Z.of_nat n) = Status code ->
       (is_success code = true ->
          result_of (retry (TransportOptions.RetryDelay options) net
                       (Z.to_nat (TransportOptions.MaxRetries options)) 0) = Delivered
          /\ List.length (attempts (retry (TransportOptions.RetryDelay options) net
                       (Z.to_nat (TransportOptions.MaxRetries options)) 0)) = S n)
       /\ (is_client_error code = true ->
             result_of (retry (TransportOptions.RetryDelay options) net
                       (Z.to_nat (TransportOptions.MaxRetries options)) 0) = Rejected code
             /\ List.length (attempts (retry (TransportOptions.RetryDelay options) net
                       (Z.to_nat (TransportOptions.MaxRetries options)) 0)) = S n)).
  { intros n Hn Hgo code Hcode.
    assert (Hat : forall b : bool, retried (Status code) = b ->
                  retried (net (0 + Z.of_nat n)) = b) by (rewrite Z.add_0_l; now rewrite Hcode).
    split; intros Hkind.
    - rewrite (retry_stops_at _ net n) by
        first [assumption | apply Hat; cbn; now rewrite Hkind].
      cbn [result_of attempts]. rewrite Z.add_0_l, Hcode, Hkind, length_map, length_seq. auto.
    - pose proof (client_error_not_success code Hkind) as Hns.
      rewrite (retry_stops_at _ net n) by
        first [assumption | apply Hat; cbn; now rewrite Hkind, Hns].
      cbn [result_of attempts]. rewrite Z.add_0_l, Hcode, Hns, length_map, length_seq. auto. }
  split; [exact Hstops |]. split; [| split; [| split; [| split]]].
  - intros Hgo. rewrite retry_exhausts by (intros i Hi; rewrite Z.add_0_l; auto).
    cbn [result_of attempts]. now rewrite length_map, length_seq.
  - intros Hmax H0 H1 H2.
    rewrite Hmax. cbn [Z.to_nat Pos.to_nat Pos.iter_op Nat.add].
    rewrite (retry_continue _ net 2 0) by now rewrite H0.
    change (0 + 1) with 1.
    rewrite (retry_continue _ net 1 1) by now rewrite H1.
    change (1 + 1) with 2.
    rewrite (retry_stop _ net 0 2) by now rewrite H2.
    unfold posted. cbn. rewrite H0, H1, H2. cbn. auto.
  - intros H404 Hmax.
    destruct (Z.to_nat (TransportOptions.MaxRetries options)) as [|budget] eqn:Hbudget;
      [lia |].
    rewrite (retry_stop _ net budget 0) by now rewrite H404.
    unfold posted. cbn. rewrite !H404. cbn. auto.
  - intros o Ho. cbn. unfold HTTPTransport.or_default. now rewrite Ho.
  - intros net1 net2 sched t0.
    apply same_pipeline_worker, same_pipeline_refl.
Qed.

End RetryClaims.

(** ** Wire format *)

Section JsonFacts.
Import Json.










End JsonFacts.


Section WireClaims.
Import Json Logger Statly.





(** An entry whose context holds NaN: the request is made with no body. *)
Lemma body_of_entry_with_NaN_is_empty :
  ObserveDestination.body
    [ {| Entry.Level := Logger.LevelError; Entry.Message := "A";
         Entry.Timestamp := Samples.now; Entry.LoggerName := "default";
         Entry.Context := Some {[ "ratio" := VOther (OFloat PrimFloat.nan) ]};
         Entry.Tags := None; Entry.Source := None; Entry.TraceID := EmptyString;
         Entry.SpanID := EmptyString; Entry.SessionID := EmptyString;
         Entry.Environment := EmptyString; Entry.Release := EmptyString;
         Entry.SDKName := "statly-observe-go"; Entry.SDKVersion := "0.2.0" |} ]
  = ObserveDestination.NoBody.
Proof. vm_compute. reflexivity. Qed.

End WireClaims.

(** ** Package-level capture calls *)

Section CaptureClaims.
Import Statly.
Context {T : Type} `{Transport.t T}.

(** C10: with no client set (before [Init], or after a [Close] that
    returned), each of [CaptureException], [CaptureExceptionWithContext],
    [CaptureMessage] and [CaptureMessageWithContext] returns the empty string,
    leaves [globalClient] as it is, calls nothing and does not panic. *)
Theorem capture_without_client_returns_empty (amb : Ambient) (err : option GoError)
    (ctx : option (gmap string value)) (message : string) (level : Level) :
  CaptureException (T := T) None amb err = Returned (EmptyString, None)
  /\ CaptureExceptionWithContext (T := T) None amb err ctx = Returned (EmptyString, None)
  /\ CaptureMessage (T := T) None amb message level = Returned (EmptyString, None)
  /\ CaptureMessageWithContext (T := T) None amb message level ctx
     = Returned (EmptyString, None)
  /\ (forall g g' : globalClient (T := T),
        Close g = Returned g' ->
        g' = None
        /\ CaptureException g' amb err = Returned (EmptyString, g')
        /\ CaptureExceptionWithContext g' amb err ctx = Returned (EmptyString, g')
        /\ CaptureMessage g' amb message level = Returned (EmptyString, g')
        /\ CaptureMessageWithContext g' amb message level ctx = Returned (EmptyString, g')).
Proof.
  repeat split; try reflexivity;
    match goal with
    | Hclose : Close ?g = Returned ?g' |- _ =>
        assert (g' = None) as ->
          by (destruct g as [client|]; cbn in Hclose;
              [destruct (Client.Close client); cbn in Hclose |]; congruence)
    end; reflexivity.
Qed.

End CaptureClaims.

(** After the SDK over the mock transport is closed, a message is not
    captured. *)
Lemma CaptureMessage_after_Close_returns_empty :
  Statly.Close (Some Samples.client) = Returned None
  /\ Statly.CaptureMessage (T := Statly.MockTransport.t) None (Samples.ambient "A")
       "Something happened" Statly.LevelWarning
     = Returned (EmptyString, None).
Proof.
  split; [reflexivity |].
  exact (proj1 (proj2 (proj2 (proj2
           (proj2 (proj2 (proj2 (proj2
              (capture_without_client_returns_empty (Samples.ambient "A") None None
                 "Something happened" Statly.LevelWarning))))
              (Some Samples.client) None eq_refl))))).
Defined.

(** ** The properties at sample inputs *)

(** With the default three attempts, a batch that meets 503, 503, 200 is
    delivered by the third attempt, after sleeps of two and four seconds. *)
Lemma sendBatch_delivers_on_third_attempt :
  Statly.result_of
    (Statly.sendBatch
       (Statly.HTTPTransport.options (Statly.HTTPTransport.NewHTTPTransport Samples.options))
       [Samples.event "A"] Samples.recovering)
  = Statly.Delivered
  /\ List.length
       (Statly.attempts
          (Statly.sendBatch
             (Statly.HTTPTransport.options
                (Statly.HTTPTransport.NewHTTPTransport Samples.options))
             [Samples.event "A"] Samples.recovering))
     = 3%nat
  /\ List.length
       (Statly.posted
          (Statly.sendBatch
             (Statly.HTTPTransport.options
                (Statly.HTTPTransport.NewHTTPTransport Samples.options))
             [Samples.event "A"] Samples.recovering))
     = 3%nat
  /\ map Statly.slept
       (Statly.attempts
          (Statly.sendBatch
             (Statly.HTTPTransport.options
                (Statly.HTTPTransport.NewHTTPTransport Samples.options))
             [Samples.event "A"] Samples.recovering))
     = [None; Some 2000000000; Some 4000000000].
Proof.
  refine (proj1 (proj2 (proj2
            (sendBatch_retry_policy
               (Statly.HTTPTransport.options
                  (Statly.HTTPTransport.NewHTTPTransport Samples.options))
               [Samples.event "A"] Samples.recovering _ _))) _ _ _ _);
    first [reflexivity | discriminate | (vm_compute; discriminate)].
Defined.

(** 105 events sent to a fresh transport whose worker takes no step: the
    first 100 are queued in order, the last 5 refused. *)
Lemma SendAll_105_events_keeps_first_100 :
  Statly.HTTPTransport.SendAll false
    (Statly.HTTPTransport.NewHTTPTransport Samples.options) (Samples.events 105)
  = (repeat true 100 ++ repeat false 5,
     Statly.HTTPTransport.with_queue
       (Statly.HTTPTransport.NewHTTPTransport Samples.options)
       (firstn 100 (Samples.events 105))).
Proof.
  refine (proj1 (proj1 (proj2 (proj2 full_queue_drops_incoming_record))
                   (Statly.HTTPTransport.NewHTTPTransport Samples.options) false
                   (Samples.events 105) _ _ _));
    reflexivity.
Defined.

(** Eleven events and a threshold of four: batches of four, four and
    three. *)
Lemma worker_sends_4_4_3 :
  Statly.HTTPTransport.batches
    (Statly.HTTPTransport.worker (fun _ => Samples.always 200)
       (repeat OnQueue 11 ++ [OnTimer])
       (Statly.HTTPTransport.with_queue
          (Statly.HTTPTransport.NewHTTPTransport (Samples.options_with_batch 4))
          (Samples.events 11)))
  = [ firstn 4 (Samples.events 11);
      firstn 4 (skipn 4 (Samples.events 11));
      skipn 8 (Samples.events 11) ].
Proof.
  refine (proj1 (proj1 (proj2 (worker_sends_batches_B_B_3 4 _))
                   (fun _ => Samples.always 200)
                   (Statly.HTTPTransport.options
                      (Statly.HTTPTransport.NewHTTPTransport (Samples.options_with_batch 4)))
                   100%nat [] (firstn 4 (Samples.events 11))
                   (firstn 4 (skipn 4 (Samples.events 11)))
                   (skipn 8 (Samples.events 11)) 0 _ _ _ _));
    first [reflexivity | lia].
Defined.

(** Eleven records and a threshold of four, pending at shutdown: the Observe
    worker sends them as one batch, and the HTTP transport, closed when its
    worker has taken the first event, sends that event twice. *)
Lemma Close_with_eleven_records_pending :
  Logger.ObserveDestination.sent
    (Logger.ObserveDestination.worker [OnDone]
       (Logger.ObserveDestination.with_done
          (Logger.ObserveDestination.with_queue
             (Logger.ObserveDestination.NewObserveDestination
                "https://sk_live_xxx@statly.live/acme" (Some (Samples.observe_config 4)))
             (Samples.entries Logger.LevelError 11))
          true))
  = [Samples.entries Logger.LevelError 11]
  /\ exists t1 : Statly.HTTPTransport.t,
       Statly.HTTPTransport.Close (fun _ => Samples.always 200) [OnQueue]
         (Statly.HTTPTransport.with_queue
            (Statly.HTTPTransport.NewHTTPTransport (Samples.options_with_batch 4))
            (Samples.events 11)) 0
       = Returned t1
       /\ Statly.HTTPTransport.batches t1
          = [ [Samples.event "A"];
              firstn 4 (Samples.events 11);
              firstn 4 (skipn 4 (Samples.events 11));
              skipn 8 (Samples.events 11) ].
Proof.
  assert (H4 : (3 <= 4)%nat) by lia.
  split.
  - exact (proj1 (proj1 (Close_departs_from_batches_B_B_3 4 H4)
                    "https://sk_live_xxx@statly.live/acme" (Samples.observe_config 4)
                    (Logger.ObserveDestination.sampling
                       (Logger.ObserveDestination.NewObserveDestination
                          "https://sk_live_xxx@statly.live/acme"
                          (Some (Samples.observe_config 4))))
                    1000%nat []
                    (firstn 4 (Samples.entries Logger.LevelError 11))
                    (firstn 4 (skipn 4 (Samples.entries Logger.LevelError 11)))
                    (skipn 8 (Samples.entries Logger.LevelError 11))
                    eq_refl eq_refl eq_refl eq_refl)).
  - destruct (proj2 (Close_departs_from_batches_B_B_3 4 H4)
                (fun _ => Samples.always 200)
                (Statly.HTTPTransport.options
                   (Statly.HTTPTransport.NewHTTPTransport (Samples.options_with_batch 4)))
                100%nat [] (Samples.event "A")
                (firstn 3 (skipn 1 (Samples.events 11)))
                (firstn 4 (skipn 4 (Samples.events 11)))
                (skipn 8 (Samples.events 11)) 0
                eq_refl eq_refl eq_refl eq_refl)
      as (t1 & Hclose & Hbatches & _).
    exists t1. split; [exact Hclose | exact Hbatches].
Defined.

(** ** Where the worker departs from the batching rule at shutdown *)

Section ShutdownBatches.
Import Logger Statly.

(** The HTTP transport's worker does not reset its batch after sending it in
    the [done] case: a batch that is pending when the transport is closed is
    sent twice. *)
Lemma transport_Close_sends_pending_batch_twice :
  HTTPTransport.batches
    (HTTPTransport.worker (fun _ => Samples.always 200)
       (repeat OnQueue 11 ++ [OnDone])
       (HTTPTransport.with_done
          (HTTPTransport.with_queue
             (HTTPTransport.NewHTTPTransport (Samples.options_with_batch 4))
             (Samples.events 11))
          true))
  = [ firstn 4 (Samples.events 11);
      firstn 4 (skipn 4 (Samples.events 11));
      skipn 8 (Samples.events 11);
      skipn 8 (Samples.events 11) ].
Proof. reflexivity. Qed.

(** The Observe destination's drain loop has no threshold: closed with
    eleven entries queued and a threshold of four, it sends them as one
    batch. *)
Lemma observe_Close_sends_queue_as_one_batch :
  ObserveDestination.Close []
    (ObserveDestination.with_queue
       (ObserveDestination.NewObserveDestination "https://sk_live_xxx@statly.live/acme"
          (Some (Samples.observe_config 4)))
       (Samples.entries Logger.LevelError 11))
  = Returned
      (ObserveDestination.with_sent
         (ObserveDestination.with_exited
            (ObserveDestination.with_batch
               (ObserveDestination.with_done
                  (ObserveDestination.NewObserveDestination
                     "https://sk_live_xxx@statly.live/acme"
                     (Some (Samples.observe_config 4)))
                  true)
               (Samples.entries Logger.LevelError 11))
            true)
         [Samples.entries Logger.LevelError 11]).
Proof. reflexivity. Qed.

(** [Entry.ToMap] writes every key: an entry without a trace id carries
    [traceId] as the empty string, and one without a source location carries
    [source] as null. *)
Lemma ToMap_writes_empty_fields :
  Json.get "traceId" (Json.of_values (Entry.ToMap (Samples.entry Logger.LevelError "A")))
    = Some (Json.JString EmptyString)
  /\ Json.get "source" (Json.of_values (Entry.ToMap (Samples.entry Logger.LevelError "A")))
     = Some Json.JNull.
Proof. split; reflexivity. Qed.

End ShutdownBatches.

(* ===================================================================== *)
(** * Further properties of the code *)
(* ===================================================================== *)

(** ** Scrubber: shape of the result, configuration *)

Section ScrubberShape.
Import Regex Logger.
Context `{StringsPkg}.

Lemma scrubValue_root (sc : Scrubber) (v : value) :
  scrubValue sc v EmptyString
  = match v with
    | VNil => VNil
    | VString str => VString (scrubString sc str)
    | VList l => VList (map (fun item => scrubValue sc item EmptyString) l)
    | VMap m => VMap (map_imap (fun k val => Some (scrubValue sc val k)) m)
    | VNilList => VList []
    | VNilMap => VMap ∅
    | VOther o => VOther o
    end.
Proof. now rewrite scrubValue_traversed by apply traversed_root. Qed.

Lemma Scrub_map (sc : Scrubber) (m : gmap string value) :
  exists m' : gmap string value,
    Scrub sc (VMap m) = VMap m' /\ dom m' = dom m
    /\ (enabled sc = true ->
        forall k, m' !! k = (fun v => scrubValue sc v k) <$> m !! k).
Proof.
  unfold Scrub. destruct (enabled sc); cbn [negb].
  - rewrite scrubValue_root. eexists. split; [reflexivity |]. split.
    + apply dom_imap_L. intros k. rewrite elem_of_dom. split.
      * intros [x Hx]. exists x. split; [assumption | eauto].
      * intros (x & Hx & _). eauto.
    + intros _ k. rewrite map_lookup_imap. now destruct (m !! k).
  - exists m. split; [reflexivity |]. split; [reflexivity | discriminate].
Qed.

(** [Scrub] of a map is a map with the same keys, and [Scrub] of a list is a
    list of the same length: no entry is added or dropped, only values are
    replaced. So the type assertion that [createEntry] makes on the result
    holds. *)
Theorem Scrub_keeps_keys_and_length (sc : Scrubber) :
  (forall m : gmap string value,
     exists m' : gmap string value,
       Scrub sc (VMap m) = VMap m' /\ dom m' = dom m
       /\ (enabled sc = true ->
           forall k, m' !! k = (fun v => scrubValue sc v k) <$> m !! k))
  /\ (forall l : list value,
        exists l' : list value,
          Scrub sc (VList l) = VList l' /\ List.length l' = List.length l).
Proof.
  split.
  - intros m. apply Scrub_map.
  - intros l. unfold Scrub. destruct (enabled sc); cbn [negb].
    + rewrite scrubValue_root. eexists. split; [reflexivity |]. apply length_map.
    + now exists l.
Qed.

(** Pattern names are looked up as they are written: when the configuration
    names patterns and none of the names is a built-in one, the scrubber has
    no pattern at all (the defaults are not used), and with no custom
    expression it returns every string unchanged. *)
Theorem NewScrubber_unknown_names_leave_no_pattern (c : ScrubbingConfig) (s : string) :
  Patterns c <> [] ->
  Forall (fun pattern_name => scrubPatterns !! pattern_name = None) (Patterns c) ->
  CustomRegexps c = [] ->
  patterns (NewScrubber (Some c)) = []
  /\ ScrubString (NewScrubber (Some c)) s = s.
Proof.
  intros Hnames Hunknown Hcustom.
  assert (Hp : patterns (NewScrubber (Some c)) = []).
  { unfold NewScrubber. cbn [patterns]. rewrite Hcustom, app_nil_r.
    destruct (Patterns c) as [|n names] eqn:Hc; [congruence |].
    clear Hnames Hc. induction Hunknown as [|x xs Hx _ IH]; [reflexivity |].
    cbn [omap list_omap]. now rewrite Hx. }
  split; [exact Hp |].
  unfold ScrubString. rewrite Hp. now destruct (negb _).
Qed.

(** A key added to the allowlist is kept from then on, in whatever case it is
    written and also when it is a sensitive key: the allowlist is asked
    before the sensitive-key set. *)
Theorem AddToAllowlist_keeps_entry (sc : Scrubber) (key k : string) (v : value) :
  nonempty k = true ->
  ToLower k = ToLower key ->
  scrubValue (AddToAllowlist sc key) v k = v
  /\ (forall m : gmap string value,
        m !! k = Some v ->
        exists m' : gmap string value,
          Scrub (AddToAllowlist sc key) (VMap m) = VMap m' /\ m' !! k = Some v).
Proof.
  intros Hne Hk.
  assert (Hkept : kept (AddToAllowlist sc key) k = true).
  { unfold kept, allowlisted, AddToAllowlist. cbn [allowlist]. rewrite Hne, Hk. cbn [andb].
    apply bool_decide_eq_true. set_solver. }
  split; [now apply scrubValue_kept |].
  intros m Hm. unfold Scrub. destruct (negb _).
  - now exists m.
  - rewrite scrubValue_root. eexists. split; [reflexivity |].
    rewrite map_lookup_imap, Hm. cbn. now rewrite scrubValue_kept.
Qed.

(** A pattern added with [AddPattern] is applied last: it reads the text the
    earlier patterns left. *)
Theorem AddPattern_applies_last (sc : Scrubber) (p : re) (s : string) :
  ScrubString (AddPattern sc p) s
  = if enabled sc then ReplaceAllString p (ScrubString sc s) REDACTED else s.
Proof.
  unfold ScrubString, AddPattern. cbn [enabled patterns].
  destruct (enabled sc); cbn [negb]; [| reflexivity].
  now rewrite fold_left_app.
Qed.

End ScrubberShape.

(** A configuration that asks for the pattern creditcard, which is not the
    name creditCard, scrubs no card number. *)
Lemma NewScrubber_misspelt_pattern_scrubs_nothing :
  Logger.patterns
    (Logger.NewScrubber
       (Some {| Logger.Enabled := true; Logger.Patterns := ["creditcard"];
                Logger.CustomRegexps := []; Logger.Allowlist := [] |})) = []
  /\ Logger.ScrubString
       (Logger.NewScrubber
          (Some {| Logger.Enabled := true; Logger.Patterns := ["creditcard"];
                   Logger.CustomRegexps := []; Logger.Allowlist := [] |}))
       "card 4111111111111111"
     = "card 4111111111111111".
Proof.
  apply (NewScrubber_unknown_names_leave_no_pattern
           {| Logger.Enabled := true; Logger.Patterns := ["creditcard"];
              Logger.CustomRegexps := []; Logger.Allowlist := [] |}
           "card 4111111111111111").
  - discriminate.
  - repeat constructor.
  - reflexivity.
Defined.

(** After [AddToAllowlist] of Password, the entry password keeps its
    value. *)
Lemma AddToAllowlist_keeps_password :
  Logger.scrubValue (Logger.AddToAllowlist (Logger.NewScrubber None) "Password")
    (VString "hunter2") "password"
  = VString "hunter2".
Proof.
  refine (proj1 (AddToAllowlist_keeps_entry (Logger.NewScrubber None) "Password" "password"
                   (VString "hunter2") _ _)); reflexivity.
Defined.

(** ** Logger: entries, levels, children *)

Section StringFacts.

Lemma string_length_append (s1 s2 : string) :
  String.length (s1 ++ s2)%string = (String.length s1 + String.length s2)%nat.
Proof.
  induction s1 as [|a s1 IH]; [reflexivity |].
  change (S (String.length (s1 ++ s2)%string) = S (String.length s1 + String.length s2)).
  now rewrite IH.
Qed.

Lemma string_append_dot (pre name : string) :
  ((pre ++ ".") ++ name)%string = (pre ++ String "."%char name)%string.
Proof.
  induction pre as [|a pre IH]; [reflexivity |].
  change (String a ((pre ++ ".") ++ name)%string = String a (pre ++ String "."%char name)%string).
  now rewrite IH.
Qed.

Lemma string_drop_append (s1 s2 : string) :
  string_drop (String.length s1) (s1 ++ s2)%string = s2.
Proof. induction s1 as [|a s1 IH]; [now destruct s2 | exact IH]. Qed.

Lemma last_index_from_append (c : ascii) (s1 s2 : string) :
  forall i found : Z,
  last_index_from (s1 ++ s2)%string c i found
  = last_index_from s2 c (i + Z.of_nat (String.length s1)) (last_index_from s1 c i found).
Proof.
  induction s1 as [|a s1 IH]; intros i found.
  - cbn. now rewrite Z.add_0_r.
  - change (String a s1 ++ s2)%string with (String a (s1 ++ s2)%string).
    cbn [last_index_from String.length]. rewrite IH. f_equal. lia.
Qed.

(** A string in which [c] occurs splits at its last occurrence, whose index
    the scan returns. *)
Lemma last_index_from_split (c : ascii) (s : string) :
  forall i found : Z,
  (last_index_from s c i found = found
   /\ forall i' found', last_index_from s c i' found' = found')
  \/ (exists pre rest : string,
        s = (pre ++ String c rest)%string
        /\ last_index_from s c i found = i + Z.of_nat (String.length pre)
        /\ forall i' found', last_index_from rest c i' found' = found').
Proof.
  induction s as [|a s IH]; intros i found.
  - left. split; reflexivity.
  - cbn [last_index_from].
    destruct (IH (i + 1) (if Ascii.eqb a c then i else found))
      as [[Hr Hfree]|(pre & rest & Hs & Hr & Hfree)].
    + destruct (Ascii.eqb a c) eqn:Hac.
      * right. apply Ascii.eqb_eq in Hac as ->. exists EmptyString, s.
        split; [reflexivity |]. split; [| exact Hfree]. rewrite Hr. cbn. lia.
      * left. split; [exact Hr |]. intros i' found'. apply Hfree.
    + right. exists (String a pre), rest. split; [now rewrite Hs |].
      split; [| exact Hfree]. rewrite Hr. cbn [String.length]. lia.
Qed.

(** The scan finds no [c] exactly when it returns what it was given. *)
Lemma LastIndex_none (c : ascii) (s : string) :
  LastIndex s c = -1 -> forall i found, last_index_from s c i found = found.
Proof.
  unfold LastIndex. intros Hnone.
  destruct (last_index_from_split c s 0 (-1)) as [[_ Hfree]|(pre & rest & _ & Hr & _)].
  - exact Hfree.
  - lia.
Qed.

End StringFacts.

Section LoggerFacts.
Import Regex Logger.
Context `{StringsPkg} {D : Type} `{Destination.t D}.

(** [getSource] reports the caller's file and line, and as function the
    part of the function's full name that follows its last dot: whenever the
    full name is a text, a dot and a name without a dot, the name is what is
    reported. A full name without a dot is reported as it is. *)
Theorem getSource_cuts_function_name (c : Caller) (funcName : string) :
  caller_func c = Some funcName ->
  exists src : Source.t,
    getSource (Some c) = Some src
    /\ Source.File src = caller_file c
    /\ Source.Line src = caller_line c
    /\ (LastIndex funcName "."%char = -1 -> Source.Function src = funcName)
    /\ (forall pre name : string,
          funcName = (pre ++ String "."%char name)%string ->
          LastIndex name "."%char = -1 ->
          Source.Function src = name)
    /\ (LastIndex funcName "."%char <> -1 ->
        exists pre : string,
          funcName = (pre ++ String "."%char (Source.Function src))%string)
    /\ LastIndex (Source.Function src) "."%char = -1.
Proof.
  intros Hfn. unfold getSource. rewrite Hfn. eexists. split; [reflexivity |].
  cbn [Source.File Source.Line Source.Function]. split; [reflexivity |]. split; [reflexivity |].
  assert (Hcut : forall pre name : string,
            funcName = (pre ++ String "."%char name)%string ->
            (forall i found, last_index_from name "."%char i found = found) ->
            (if (0 <=? LastIndex funcName "."%char)%Z
             then string_drop (Z.to_nat (LastIndex funcName "."%char + 1)) funcName
             else funcName) = name).
  { intros pre name -> Hfree. unfold LastIndex.
    rewrite last_index_from_append. cbn [last_index_from]. rewrite Ascii.eqb_refl, Hfree.
    rewrite (proj2 (Z.leb_le _ _)) by lia.
    replace (Z.to_nat (0 + Z.of_nat (String.length pre) + 1))
      with (String.length (pre ++ ".")%string)
      by (rewrite string_length_append; cbn; lia).
    rewrite <- (string_append_dot pre name). apply string_drop_append. }
  split; [| split; [| split]].
  - intros Hnone. rewrite Hnone. reflexivity.
  - intros pre name Hname Hfree. apply (Hcut pre name Hname).
    now apply LastIndex_none.
  - intros Hsome.
    destruct (last_index_from_split "."%char funcName 0 (-1))
      as [[Hr _]|(pre & rest & Hs & _ & Hfree)]; [now unfold LastIndex in Hsome |].
    exists pre. now rewrite (Hcut pre rest Hs Hfree).
  - destruct (last_index_from_split "."%char funcName 0 (-1))
      as [[Hr Hfree]|(pre & rest & Hs & _ & Hfree)].
    + unfold LastIndex at 2. rewrite Hr. cbn. apply Hfree.
    + rewrite (Hcut pre rest Hs Hfree). apply Hfree.
Qed.

(** [createEntry] returns for every message and context. The entry's message
    is the scrubbed message; its context is a map (never nil) with the keys
    of the call's context and of the logger's. With scrubbing enabled each
    value is the scrubbed value of the merged context, where an entry of the
    call's context wins over the logger's, and an entry whose key is
    sensitive and not allowlisted holds the redaction marker. *)
Theorem createEntry_scrubs_message_and_context (l : Logger D) (rt : Runtime) (level : Level)
    (message : string) (ctx : gmap string value) :
  exists (e : Entry.t) (m : gmap string value),
    createEntry l rt level message ctx = Returned e
    /\ Entry.Level e = level
    /\ Entry.Message e = ScrubString (scrubber l) message
    /\ Entry.Context e = Some m
    /\ dom m = dom ctx ∪ dom (context l)
    /\ (enabled (scrubber l) = true ->
        (forall k v, ctx !! k = Some v -> m !! k = Some (scrubValue (scrubber l) v k))
        /\ (forall k v, ctx !! k = None -> context l !! k = Some v ->
              m !! k = Some (scrubValue (scrubber l) v k))
        /\ (forall k, k ∈ dom m -> isSensitiveKey k = true ->
              allowlisted (scrubber l) k = false -> m !! k = Some (VString REDACTED))).
Proof.
  destruct (Scrub_map (scrubber l) (ctx ∪ context l)) as (m & Hscrub & Hdom & Hlookup).
  unfold createEntry. rewrite Hscrub. eexists. exists m.
  split; [reflexivity |]. cbn [Entry.Level Entry.Message Entry.Context].
  split; [reflexivity |]. split; [reflexivity |]. split; [reflexivity |].
  split; [now rewrite Hdom, dom_union_L |].
  intros Hon. specialize (Hlookup Hon). split; [| split].
  - intros k v Hk. rewrite Hlookup, (lookup_union_Some_l _ _ _ _ Hk). reflexivity.
  - intros k v Hk Hl. rewrite Hlookup, lookup_union_r by assumption. now rewrite Hl.
  - intros k Hin Hs Ha. rewrite Hlookup.
    apply elem_of_dom in Hin as [x Hx]. rewrite Hlookup in Hx.
    destruct ((ctx ∪ context l) !! k) as [v|]; [| exfalso; cbn in Hx; congruence]. cbn.
    f_equal. apply scrubValue_redacted. unfold redacted, kept.
    now rewrite Ha, Hs, (sensitive_nonempty k Hs).
Qed.

End LoggerFacts.

Section LoggerLevels.
Import Regex Logger.
Context `{StringsPkg} {D : Type} `{Destination.t D}.

Lemma write_each_length (entry : Entry.t) (dests : list D) :
  forall dests', write_each dests entry = Returned dests' ->
  List.length dests' = List.length dests
  /\ forall i d, dests !! i = Some d ->
       exists d', Destination.Write d entry = Returned d' /\ dests' !! i = Some d'.
Proof.
  induction dests as [|d dests IH]; intros dests' Hw; cbn [write_each] in Hw.
  - injection Hw as <-. split; [reflexivity | intros i d0 Hd; discriminate].
  - destruct (Destination.Write d entry) as [d1|msg] eqn:Hd1; cbn in Hw; [| discriminate].
    destruct (write_each dests entry) as [rest|msg] eqn:Hrest; cbn in Hw; [| discriminate].
    injection Hw as <-. destruct (IH rest eq_refl) as [Hlen Hall]. split.
    + cbn. now rewrite Hlen.
    + intros [|i] d0 Hd0; cbn in Hd0.
      * injection Hd0 as <-. now exists d1.
      * now apply Hall.
Qed.

(** The zero value of [Level] is [LevelTrace], and [New] reads a zero level
    as unset: a logger made by [New] has the minimum level debug when the
    configuration asks for trace, so [Trace] on it creates no entry and
    writes to no destination. *)
Theorem New_reads_level_trace_as_debug (start : created -> D) (env : Env) (uuid : string)
    (cfg : Config.t) (rt : Runtime) (message : string) (ctx : gmap string value) :
  GetLevel (New start env uuid cfg)
    = (if bool_decide (Config.Level cfg = LevelTrace) then LevelDebug else Config.Level cfg)
  /\ IsLevelEnabled (New start env uuid cfg) LevelTrace = false
  /\ Trace (New start env uuid cfg) rt message ctx = Returned (New start env uuid cfg).
Proof.
  assert (Hlevel : GetLevel (New start env uuid cfg)
    = (if bool_decide (Config.Level cfg = LevelTrace) then LevelDebug else Config.Level cfg)).
  { unfold GetLevel, New. cbn [minLevel Config.Level]. now destruct (Config.Level cfg). }
  assert (Hoff : IsLevelEnabled (New start env uuid cfg) LevelTrace = false).
  { unfold IsLevelEnabled. unfold GetLevel in Hlevel. rewrite Hlevel.
    now destruct (Config.Level cfg). }
  split; [exact Hlevel |]. split; [exact Hoff |].
  unfold Trace, Log. unfold IsLevelEnabled in Hoff. now rewrite Hoff.
Qed.

(** A record below the logger's minimum level, audit records apart, creates
    no entry and reaches no destination. An audit record is logged at every
    minimum level: [Log] at the audit level does what [Audit] does. When
    [Log] writes and returns, every destination has been given the entry, in
    the order of the list, and none was added or dropped. *)
Theorem Log_writes_from_minimum_level_up (l : Logger D) (rt : Runtime) (level : Level)
    (message : string) (ctx : gmap string value) :
  (Level_int level < Level_int (minLevel l) -> level <> LevelAudit ->
     Log l rt level message ctx = Returned l)
  /\ Log l rt LevelAudit message ctx = Audit l rt message ctx
  /\ (Level_int (minLevel l) <= Level_int level ->
      forall l' : Logger D,
      Log l rt level message ctx = Returned l' ->
      exists entry : Entry.t,
        createEntry l rt level message ctx = Returned entry
        /\ List.length (destinations l') = List.length (destinations l)
        /\ forall i d, destinations l !! i = Some d ->
             exists d', Destination.Write d entry = Returned d'
                        /\ destinations l' !! i = Some d').
Proof.
  split; [| split].
  - intros Hlow Hna. unfold Log, shouldLog.
    rewrite (bool_decide_eq_false_2 _ Hna).
    now rewrite (proj2 (Z.leb_gt _ _) Hlow).
  - reflexivity.
  - intros Hup l' Hlog. unfold Log, shouldLog in Hlog.
    rewrite (proj2 (Z.leb_le _ _) Hup) in Hlog.
    destruct (bool_decide (level = LevelAudit)); cbn [negb] in Hlog;
      (destruct (createEntry l rt level message ctx) as [entry|msg]; cbn in Hlog;
       [| discriminate]);
      exists entry; (split; [reflexivity |]);
      unfold write in Hlog;
      (destruct (write_each (destinations l) entry) as [ds|msg] eqn:Hw; cbn in Hlog;
       [| discriminate]);
      injection Hlog as <-; cbn [destinations with_destinations];
      now apply write_each_length.
Qed.

(** In an entry created by a child logger, a key of the call's context wins
    over the same key given to [Child], which wins over the parent's; the
    child has the parent's level, session and scrubber, and the name
    parent.child when it is given none. *)
Theorem Child_context_lies_between_call_and_parent (l : Logger D) (child_name : string)
    (cctx : gmap string value) (tgs : gmap string string) (rt : Runtime) (level : Level)
    (message : string) (ctx : gmap string value) :
  enabled (scrubber l) = true ->
  exists (e : Entry.t) (m : gmap string value),
    createEntry (Child l child_name cctx tgs) rt level message ctx = Returned e
    /\ Entry.Context e = Some m
    /\ (forall k, m !! k
                  = (fun v => scrubValue (scrubber l) v k)
                      <$> (match ctx !! k with
                           | Some v => Some v
                           | None => match cctx !! k with
                                     | Some v => Some v
                                     | None => context l !! k
                                     end
                           end))
    /\ Entry.Tags e = Some (tgs ∪ tags l)
    /\ Entry.SessionID e = sessionID l
    /\ Entry.LoggerName e
       = (if Json.is_empty_string child_name then (name l ++ ".child")%string
          else child_name)
    /\ GetLevel (Child l child_name cctx tgs) = GetLevel l.
Proof.
  intros Hon.
  destruct (Scrub_map (scrubber l) (ctx ∪ (cctx ∪ context l))) as (m & Hscrub & _ & Hlookup).
  unfold createEntry. cbn [Child scrubber context tags sessionID name].
  rewrite Hscrub. eexists. exists m. split; [reflexivity |].
  cbn [Entry.Context Entry.Tags Entry.SessionID Entry.LoggerName].
  split; [reflexivity |]. split; [| auto].
  intros k. rewrite (Hlookup Hon), !lookup_union.
  destruct (ctx !! k), (cctx !! k), (context l !! k); reflexivity.
Qed.

(** [New] asks for an Observe destination only when it has a DSN, from the
    configuration or from STATLY_DSN, and Observe is not disabled; the
    console is asked for unless the configuration disables it. *)
Theorem New_asks_for_Observe_only_with_DSN (start : created -> D) (env : Env) (uuid : string)
    (cfg : Config.t) :
  destinations (New start env uuid cfg)
    = start <$> initDestinations (config (New start env uuid cfg))
  /\ (Config.DSN cfg = EmptyString -> env "STATLY_DSN" = EmptyString ->
      forall dsn c, ObserveFor dsn c ∉ initDestinations (config (New start env uuid cfg)))
  /\ (forall c, Config.Observe cfg = Some c -> ObserveConfig.Enabled c = false ->
      forall dsn c', ObserveFor dsn c' ∉ initDestinations (config (New start env uuid cfg)))
  /\ (Config.Console cfg = None ->
      exists c, head (initDestinations (config (New start env uuid cfg))) = Some (ConsoleFor c)
                /\ ConsoleConfig.Enabled c = true).
Proof.
  split; [reflexivity |].
  unfold New. cbn [config]. unfold initDestinations.
  cbn [Config.DSN Config.Console Config.File Config.Observe].
  split; [| split].
  - intros Hdsn Henv dsn c. rewrite Hdsn. cbn [Json.is_empty_string]. rewrite Henv.
    cbn [Json.is_empty_string]. rewrite app_nil_r.
    intros Hin. apply elem_of_app in Hin as [Hin|Hin].
    + destruct (ConsoleConfig.Enabled _); [| now apply elem_of_nil in Hin].
      apply list_elem_of_singleton in Hin. discriminate.
    + destruct (Config.File cfg) as [f|]; [| now apply elem_of_nil in Hin].
      destruct (FileConfig.Enabled f); [| now apply elem_of_nil in Hin].
      apply list_elem_of_singleton in Hin. discriminate.
  - intros c Hc Hoff dsn c'. rewrite Hc, Hoff.
    assert (Hnone : (if Json.is_empty_string
                          (if Json.is_empty_string (Config.DSN cfg) then env "STATLY_DSN"
                           else Config.DSN cfg)
                     then [] else @nil created) = []) by now destruct (Json.is_empty_string _).
    rewrite Hnone, app_nil_r.
    intros Hin. apply elem_of_app in Hin as [Hin|Hin].
    + destruct (ConsoleConfig.Enabled _); [| now apply elem_of_nil in Hin].
      apply list_elem_of_singleton in Hin. discriminate.
    + destruct (Config.File cfg) as [f|]; [| now apply elem_of_nil in Hin].
      destruct (FileConfig.Enabled f); [| now apply elem_of_nil in Hin].
      apply list_elem_of_singleton in Hin. discriminate.
  - intros ->. cbn. eauto.
Qed.

End LoggerLevels.

(** A logger configured at the trace level drops a trace record. *)
Lemma Trace_on_new_logger_writes_nothing :
  Logger.Log (Samples.logger Logger.LevelTrace) Samples.runtime Logger.LevelTrace
    "cache miss" ∅
  = Returned (Samples.logger Logger.LevelTrace).
Proof.
  refine (proj1 (Log_writes_from_minimum_level_up (Samples.logger Logger.LevelTrace)
                   Samples.runtime Logger.LevelTrace "cache miss" ∅) _ _).
  - vm_compute. reflexivity.
  - discriminate.
Defined.

(** The source of an entry logged from the method [handle] of a type
    [Server] in the package [acme/app]. *)
Lemma getSource_of_method :
  Logger.getSource (Logger.caller Samples.runtime)
  = Some {| Logger.Source.File := "/srv/app/main.go"; Logger.Source.Line := 42;
            Logger.Source.Function := "handle" |}.
Proof.
  destruct (getSource_cuts_function_name
              {| Logger.caller_file := "/srv/app/main.go"; Logger.caller_line := 42;
                 Logger.caller_func := Some "acme/app.Server.handle" |}
              "acme/app.Server.handle" eq_refl)
    as (src & Hget & Hfile & Hline & _ & Hname & _).
  specialize (Hname "acme/app.Server" "handle" eq_refl eq_refl).
  change (Logger.caller Samples.runtime)
    with (Some {| Logger.caller_file := "/srv/app/main.go"; Logger.caller_line := 42;
                  Logger.caller_func := Some "acme/app.Server.handle" |}).
  rewrite Hget. destruct src as [file line function]. cbn in Hfile, Hline, Hname.
  now rewrite Hfile, Hline, Hname.
Defined.

(** A child made with a request id logs it, and a call that gives the key
    again overrides it. *)
Lemma Child_entry_has_call_context :
  exists (e : Logger.Entry.t) (m : gmap string value),
    Logger.createEntry
      (Logger.Child (Samples.logger Logger.LevelInfo) EmptyString
         {[ "request" := VString "r-1" ]} ∅)
      Samples.runtime Logger.LevelInfo "served" {[ "request" := VString "r-2" ]}
    = Returned e
    /\ Logger.Entry.Context e = Some m
    /\ m !! "request" = Some (VString "r-2")
    /\ Logger.Entry.LoggerName e = "my-app.child".
Proof.
  destruct (Child_context_lies_between_call_and_parent
              (Samples.logger Logger.LevelInfo) EmptyString {[ "request" := VString "r-1" ]} ∅
              Samples.runtime Logger.LevelInfo "served" {[ "request" := VString "r-2" ]}
              eq_refl)
    as (e & m & He & Hm & Hk & _ & _ & Hname & _).
  exists e, m. split; [exact He |]. split; [exact Hm |]. split; [| exact Hname].
  rewrite Hk. vm_compute. reflexivity.
Defined.

(** ** Observe destination: what the worker sends *)

Section ObserveStream.
Import Logger Logger.ObserveDestination.

Lemma observe_sendBatch_eq (o : t) (b : list Entry.t) :
  sendBatch o b = with_sent o (sent o ++ match b with [] => [] | _ => [b] end).
Proof.
  destruct b; [| reflexivity]. destruct o. cbn. now rewrite app_nil_r.
Qed.

Lemma concat_snoc {A} (ls : list (list A)) (b : list A) :
  concat (ls ++ match b with [] => [] | _ => [b] end) = concat ls ++ b.
Proof.
  rewrite concat_app. destruct b; cbn; now rewrite ?app_nil_r.
Qed.

Lemma observe_worker_exited (sched : list wake) (o : t) :
  exited o = true -> worker sched o = o.
Proof.
  intros Hx. induction sched as [|w sched IH]; [reflexivity |].
  cbn [worker]. unfold worker_step. now rewrite Hx.
Qed.

(** One step of the worker moves records from the queue to the batch and
    from the batch to the sent batches, in order; the [done] case sends all
    that is left. *)
Lemma observe_step_stream (w : wake) (o o' : t) :
  worker_step w o = Some o' ->
  (exited o' = false
   /\ concat (sent o') ++ batch o' ++ queue o' = concat (sent o) ++ batch o ++ queue o)
  \/ (exited o' = true /\ queue o' = []
      /\ concat (sent o') = concat (sent o) ++ batch o ++ queue o).
Proof.
  unfold worker_step. destruct (exited o) eqn:Hx; [discriminate |].
  destruct w.
  - destruct (queue o) as [|e rest] eqn:Hq; [discriminate |].
    destruct (_ <=? _)%Z; intros [= <-]; left.
    + rewrite observe_sendBatch_eq. cbn. rewrite Hx. split; [reflexivity |].
      rewrite concat_snoc, <- !app_assoc. reflexivity.
    + cbn. rewrite Hx. split; [reflexivity |]. now rewrite <- !app_assoc.
  - destruct (0 <? _)%nat; intros [= <-]; left.
    + rewrite observe_sendBatch_eq. cbn. rewrite Hx. split; [reflexivity |].
      rewrite concat_snoc, <- ?app_assoc. reflexivity.
    + auto.
  - destruct (done o); [| discriminate]. intros [= <-]. right.
    rewrite observe_drain_one_batch, observe_sendBatch_eq. cbn.
    split; [reflexivity |]. split; [reflexivity |].
    now rewrite concat_snoc, app_assoc.
Qed.

Lemma observe_worker_stream (sched : list wake) :
  forall o : t,
  exited o = false ->
  (exited (worker sched o) = false
   /\ concat (sent (worker sched o)) ++ batch (worker sched o) ++ queue (worker sched o)
      = concat (sent o) ++ batch o ++ queue o)
  \/ (exited (worker sched o) = true /\ queue (worker sched o) = []
      /\ concat (sent (worker sched o)) = concat (sent o) ++ batch o ++ queue o).
Proof.
  induction sched as [|w sched IH]; intros o Hx; [left; auto |].
  cbn [worker]. destruct (worker_step w o) as [o1|] eqn:Hstep; [| now apply IH].
  destruct (observe_step_stream w o o1 Hstep) as [[Hx1 H1]|(Hx1 & Hq1 & H1)].
  - rewrite <- H1. now apply IH.
  - right. rewrite observe_worker_exited by assumption. auto.
Qed.

Lemma observe_Close_stream (sched : list wake) (o : t) :
  done o = false -> exited o = false ->
  exists o' : t,
    Close sched o = Returned o'
    /\ concat (sent o') = concat (sent o) ++ batch o ++ queue o
    /\ queue o' = []
    /\ exited o' = true.
Proof.
  intros Hd Hx. unfold Close. rewrite Hd. eexists. split; [reflexivity |].
  rewrite observe_worker_app.
  assert (Hx0 : exited (with_done o true) = false) by exact Hx.
  destruct (observe_worker_stream sched (with_done o true) Hx0)
    as [[Hx1 H1]|(Hx1 & Hq1 & H1)].
  - set (o1 := worker sched (with_done o true)) in *.
    assert (Hd1 : done o1 = true) by (subst o1; now rewrite observe_worker_done).
    cbn [worker]. unfold worker_step. rewrite Hx1, Hd1.
    rewrite observe_drain_one_batch, observe_sendBatch_eq. cbn.
    rewrite concat_snoc. split; [exact H1 | auto].
  - rewrite (observe_worker_exited [OnDone]) by assumption. auto.
Qed.

Lemma observe_step_config (w : wake) (o o' : t) :
  worker_step w o = Some o' -> config o' = config o.
Proof.
  unfold worker_step. destruct (exited o); [discriminate |].
  destruct w.
  - destruct (queue o); [discriminate |].
    destruct (_ <=? _)%Z; intros [= <-]; [| reflexivity].
    now rewrite observe_sendBatch_eq.
  - destruct (0 <? _)%nat; intros [= <-]; [| reflexivity].
    now rewrite observe_sendBatch_eq.
  - destruct (done o); [| discriminate]. intros [= <-].
    now rewrite observe_drain_one_batch, observe_sendBatch_eq.
Qed.

Lemma Forall_snoc_batch {A} (P : list A -> Prop) (ls : list (list A)) (b : list A) :
  Forall P ls -> (b <> [] -> P b) ->
  Forall P (ls ++ match b with [] => [] | _ => [b] end).
Proof.
  intros Hls Hb. apply Forall_app. split; [assumption |].
  destruct b; [constructor |]. constructor; [| constructor]. now apply Hb.
Qed.

(** While the destination is open, every batch its worker sends holds at
    least one record and at most [BatchSize] records. *)
Theorem observe_worker_batches_within_BatchSize (sched : list wake) :
  forall o : t,
  1 <= ObserveConfig.BatchSize (config o) ->
  done o = false ->
  Z.of_nat (List.length (batch o)) < ObserveConfig.BatchSize (config o) ->
  Forall (fun b => 1 <= Z.of_nat (List.length b) <= ObserveConfig.BatchSize (config o))
         (sent o) ->
  Forall (fun b => 1 <= Z.of_nat (List.length b) <= ObserveConfig.BatchSize (config o))
         (sent (worker sched o))
  /\ Z.of_nat (List.length (batch (worker sched o))) < ObserveConfig.BatchSize (config o).
Proof.
  induction sched as [|w sched IH]; intros o HB Hd Hb Hs; [auto |].
  cbn [worker]. destruct (worker_step w o) as [o1|] eqn:Hstep; [| now apply IH].
  rewrite <- (observe_step_config w o o1 Hstep).
  pose proof (observe_worker_step_done w o o1 Hstep) as Hd1.
  pose proof (observe_step_config w o o1 Hstep) as Hc1.
  apply IH; rewrite ?Hc1; try congruence;
    unfold worker_step in Hstep; (destruct (exited o); [discriminate |]);
    destruct w.
  - destruct (queue o) as [|e rest]; [discriminate |].
    destruct (_ <=? _)%Z eqn:Hfull; injection Hstep as <-; cbn.
    + lia.
    + apply Z.leb_gt in Hfull. exact Hfull.
  - destruct (0 <? _)%nat; injection Hstep as <-; cbn; lia.
  - rewrite Hd in Hstep. discriminate.
  - destruct (queue o) as [|e rest]; [discriminate |].
    destruct (_ <=? _)%Z eqn:Hfull; injection Hstep as <-.
    + rewrite observe_sendBatch_eq. cbn. apply Forall_snoc_batch; [assumption |].
      intros _. apply Z.leb_le in Hfull. rewrite length_app in *. cbn [List.length] in *. lia.
    + exact Hs.
  - destruct (0 <? _)%nat eqn:Hpos; injection Hstep as <-; [| exact Hs].
    rewrite observe_sendBatch_eq. cbn. apply Forall_snoc_batch; [assumption |].
    intros _. apply Nat.ltb_lt in Hpos. lia.
  - rewrite Hd in Hstep. discriminate.
Qed.

Lemma WriteAll_keeps_worker (writes : list (Entry.t * float)) :
  forall o : t,
  exited (snd (WriteAll o writes)) = exited o
  /\ sent (snd (WriteAll o writes)) = sent o.
Proof.
  induction writes as [|[entry draw] writes IH]; intros o; [auto |].
  cbn [WriteAll snd]. destruct (IH (snd (Write o entry draw))) as [Hx Hs].
  rewrite Hx, Hs. unfold Write, enqueue.
  destruct (negb _); [auto |]. destruct (sampled_out _ _ _); [auto |].
  destruct (try_send _ _ _) as [[] q]; auto.
Qed.

Lemma Flush_exited (polls : list (list wake)) (o : t) :
  exited o = true -> queue o <> [] -> Flush polls o = None.
Proof.
  intros Hx Hq. induction polls as [|sched polls IH]; cbn [Flush].
  - destruct (queue o); [congruence | reflexivity].
  - rewrite observe_worker_exited by assumption.
    destruct (queue o); [congruence | exact IH].
Qed.

(** [Write] does not look at [done]: after [Close] it still queues the
    records that sampling lets through, but the worker is gone, so nothing
    written after [Close] is ever sent, and a [Flush] after such a write
    never returns. *)
Theorem observe_Write_after_Close_is_never_sent (sched : list wake) (o o' : t) :
  Close sched o = Returned o' ->
  (forall (writes : list (Entry.t * float)) (sched' : list wake),
     sent (worker sched' (snd (WriteAll o' writes))) = sent o')
  /\ (forall (entry : Entry.t) (draw : float) (polls : list (list wake)),
        fst (Write o' entry draw) = Queued ->
        Flush polls (snd (Write o' entry draw)) = None).
Proof.
  intros Hclose.
  assert (Hx : exited o' = true).
  { destruct (done o) eqn:Hd; [unfold Close in Hclose; rewrite Hd in Hclose; discriminate |].
    destruct (exited o) eqn:Hx0.
    - unfold Close in Hclose. rewrite Hd in Hclose. injection Hclose as <-.
      now rewrite observe_worker_exited.
    - destruct (observe_Close_stream sched o Hd Hx0) as (o1 & Hc & _ & _ & Hx1).
      congruence. }
  split.
  - intros writes sched'. destruct (WriteAll_keeps_worker writes o') as [Hxw Hsw].
    rewrite observe_worker_exited by congruence. exact Hsw.
  - intros entry draw polls Hq. apply Flush_exited.
    + unfold Write, enqueue.
      destruct (negb _); [exact Hx |]. destruct (sampled_out _ _ _); [exact Hx |].
      destruct (try_send _ _ _) as [[] q]; exact Hx.
    + unfold Write, enqueue, try_send in *.
      destruct (negb _); [discriminate |]. destruct (sampled_out _ _ _); [discriminate |].
      destruct (chan_full _ _); [discriminate |]. cbn.
      destruct (queue o'); discriminate.
Qed.

End ObserveStream.

(** ** Observe destination: the goroutine, its start and its requests *)

Section ObserveGoroutine.
Import Logger Logger.ObserveDestination.
Context `{UrlPkg}.

Lemma process_sendBatch_returned (o o' : t) (b : list Entry.t) :
  ObserveProcess.sendBatch o b = Returned o' -> o' = sendBatch o b.
Proof.
  unfold ObserveProcess.sendBatch. destruct b as [|e b]; [now intros [= <-] |].
  destruct (ObserveProcess.request_built o); [now intros [= <-] | discriminate].
Qed.

Lemma process_sendBatch_built (o : t) (b : list Entry.t) :
  ObserveProcess.request_built o = true ->
  ObserveProcess.sendBatch o b = Returned (sendBatch o b).
Proof. unfold ObserveProcess.sendBatch. intros ->. now destruct b. Qed.

Lemma process_sendBatch_panics (o : t) (b : list Entry.t) :
  ObserveProcess.request_built o = false -> b <> [] ->
  ObserveProcess.sendBatch o b
  = Panicked "invalid memory address or nil pointer dereference".
Proof. unfold ObserveProcess.sendBatch. intros -> Hb. now destruct b. Qed.

Lemma process_drain_eq (pending : list Entry.t) :
  forall (o : t) (b : list Entry.t),
  ObserveProcess.drain o pending b
  = (o' <- ObserveProcess.sendBatch o (b ++ pending) ;;
     Returned (with_exited (with_batch (with_queue o' []) (b ++ pending)) true)).
Proof.
  induction pending as [|e pending IH]; intros o b; cbn [ObserveProcess.drain].
  - now rewrite app_nil_r.
  - rewrite IH. now rewrite <- app_assoc.
Qed.

Lemma process_step_returned (w : wake) (o : t) (r : option t) :
  ObserveProcess.worker_step w o = Returned r -> r = worker_step w o.
Proof.
  unfold ObserveProcess.worker_step, worker_step. destruct (exited o); [now intros [= <-] |].
  destruct w.
  - destruct (queue o) as [|e rest]; [now intros [= <-] |].
    destruct (_ <=? _)%Z; [| now intros [= <-]].
    destruct (ObserveProcess.sendBatch o (batch o ++ [e])) as [o1|msg] eqn:Hsend;
      cbn [and_then]; [| discriminate].
    intros [= <-]. now rewrite (process_sendBatch_returned _ _ _ Hsend).
  - destruct (0 <? _)%nat; [| now intros [= <-]].
    destruct (ObserveProcess.sendBatch o (batch o)) as [o1|msg] eqn:Hsend;
      cbn [and_then]; [| discriminate].
    intros [= <-]. now rewrite (process_sendBatch_returned _ _ _ Hsend).
  - destruct (done o); [| now intros [= <-]].
    rewrite process_drain_eq, observe_drain_one_batch.
    destruct (ObserveProcess.sendBatch o (batch o ++ queue o)) as [o1|msg] eqn:Hsend;
      cbn [and_then]; [| discriminate].
    intros [= <-]. now rewrite (process_sendBatch_returned _ _ _ Hsend).
Qed.

Lemma process_step_built (w : wake) (o : t) :
  ObserveProcess.request_built o = true ->
  ObserveProcess.worker_step w o = Returned (worker_step w o).
Proof.
  intros Hb. unfold ObserveProcess.worker_step, worker_step.
  destruct (exited o); [reflexivity |]. destruct w.
  - destruct (queue o) as [|e rest]; [reflexivity |].
    destruct (_ <=? _)%Z; [| reflexivity]. now rewrite process_sendBatch_built.
  - destruct (0 <? _)%nat; [| reflexivity]. now rewrite process_sendBatch_built.
  - destruct (done o); [| reflexivity].
    rewrite process_drain_eq, observe_drain_one_batch. now rewrite process_sendBatch_built.
Qed.

Lemma observe_step_dsn (w : wake) (o o' : t) :
  worker_step w o = Some o' -> dsn o' = dsn o.
Proof.
  unfold worker_step. destruct (exited o); [discriminate |].
  destruct w.
  - destruct (queue o); [discriminate |].
    destruct (_ <=? _)%Z; intros [= <-]; [| reflexivity].
    now rewrite observe_sendBatch_eq.
  - destruct (0 <? _)%nat; intros [= <-]; [| reflexivity].
    now rewrite observe_sendBatch_eq.
  - destruct (done o); [| discriminate]. intros [= <-].
    now rewrite observe_drain_one_batch, observe_sendBatch_eq.
Qed.

Lemma request_built_dsn (o o' : t) :
  dsn o' = dsn o -> ObserveProcess.request_built o' = ObserveProcess.request_built o.
Proof. unfold ObserveProcess.request_built, ObserveProcess.endpoint. now intros ->. Qed.

(** With requests that can be built the loop is the worker of the model. *)
Lemma process_loop_built (sched : list wake) :
  forall o : t,
  ObserveProcess.request_built o = true ->
  ObserveProcess.loop sched o = Returned (worker sched o).
Proof.
  induction sched as [|w sched IH]; intros o Hb; [reflexivity |].
  cbn [ObserveProcess.loop worker]. rewrite process_step_built by assumption.
  cbn [and_then]. destruct (worker_step w o) as [o1|] eqn:Hstep; [| now apply IH].
  apply IH. rewrite (request_built_dsn o o1); [assumption |].
  now apply observe_step_dsn with (w := w).
Qed.

(** A loop that returns has done what the worker of the model does. *)
Lemma process_loop_returned (sched : list wake) :
  forall o o' : t, ObserveProcess.loop sched o = Returned o' -> o' = worker sched o.
Proof.
  induction sched as [|w sched IH]; intros o o'; cbn [ObserveProcess.loop worker].
  - now intros [= <-].
  - destruct (ObserveProcess.worker_step w o) as [r|msg] eqn:Hstep; cbn [and_then];
      [| discriminate].
    rewrite <- (process_step_returned w o r Hstep). destruct r; apply IH.
Qed.

(** Without a request, the loop of a closed destination with a record
    pending ends in the panic of [sendBatch], whatever it does first. *)
Lemma process_loop_panics (sched : list wake) :
  forall o : t,
  ObserveProcess.request_built o = false ->
  exited o = false -> done o = true -> batch o ++ queue o <> [] ->
  ObserveProcess.loop (sched ++ [OnDone]) o
  = Panicked "invalid memory address or nil pointer dereference".
Proof.
  assert (Hdone : forall o : t,
            ObserveProcess.request_built o = false ->
            exited o = false -> done o = true -> batch o ++ queue o <> [] ->
            forall rest : list wake,
            ObserveProcess.loop (OnDone :: rest) o
            = Panicked "invalid memory address or nil pointer dereference").
  { intros o Hb Hx Hd Hp rest. cbn [ObserveProcess.loop].
    unfold ObserveProcess.worker_step. rewrite Hx, Hd, process_drain_eq.
    now rewrite process_sendBatch_panics. }
  induction sched as [|w sched IH]; intros o Hb Hx Hd Hp; [now apply Hdone |].
  destruct w; [| | now apply Hdone].
  - cbn [app ObserveProcess.loop]. unfold ObserveProcess.worker_step. rewrite Hx.
    destruct (queue o) as [|e rest] eqn:Hq; cbn [and_then];
      [apply IH; try assumption; now rewrite Hq |].
    destruct (_ <=? _)%Z.
    + rewrite process_sendBatch_panics; [reflexivity | assumption |].
      now destruct (batch o).
    + cbn [and_then]. apply IH; cbn; try assumption.
      rewrite <- app_assoc. exact Hp.
  - cbn [app ObserveProcess.loop]. unfold ObserveProcess.worker_step. rewrite Hx.
    destruct (0 <? List.length (batch o))%nat eqn:Hlen; cbn [and_then]; [| now apply IH].
    rewrite process_sendBatch_panics; [reflexivity | assumption |].
    destruct (batch o); [discriminate | discriminate].
Qed.

(** [Close] on an open destination, whatever the worker does before it
    takes the [done] case.
    - When the goroutine has started and a request can be built for the
      endpoint, [Close] returns with the worker gone and the queue empty,
      and every record that was in the batch or in the queue has been
      handed to [sendBatch] once, in arrival order.
    - A negative [BatchSize] or a [FlushInterval] that is not positive makes
      the goroutine panic at its start: the call does not return.
    - When no request can be built for the endpoint (a DSN without a
      scheme) and a record is pending, [sendBatch] dereferences the nil
      request: the goroutine panics and the call does not return. *)
Theorem observe_Close_sends_pending_records_once (o : t) :
  done o = false -> exited o = false ->
  (ObserveProcess.worker_start (config o) = Returned tt ->
   ObserveProcess.request_built o = true ->
   forall sched : list wake,
   exists o' : t,
     ObserveProcess.Close sched o = Returned o'
     /\ concat (sent o') = concat (sent o) ++ batch o ++ queue o
     /\ queue o' = []
     /\ exited o' = true)
  /\ (ObserveConfig.BatchSize (config o) < 0 \/ ObserveConfig.FlushInterval (config o) <= 0 ->
      forall sched : list wake,
      exists msg : string, ObserveProcess.Close sched o = Panicked msg)
  /\ (ObserveProcess.worker_start (config o) = Returned tt ->
      ObserveProcess.request_built o = false ->
      batch o ++ queue o <> [] ->
      forall sched : list wake,
      ObserveProcess.Close sched o
      = Panicked "invalid memory address or nil pointer dereference").
Proof.
  intros Hd Hx. split; [| split].
  - intros Hstart Hb sched.
    destruct (observe_Close_stream sched o Hd Hx) as (o' & Hclose & Hsent & Hq & Hx').
    exists o'. split; [| auto].
    unfold ObserveProcess.Close, ObserveProcess.worker. rewrite Hd.
    cbn [config with_done]. rewrite Hstart. cbn [and_then].
    rewrite process_loop_built by exact Hb.
    unfold Close in Hclose. rewrite Hd in Hclose. exact Hclose.
  - intros Hbad sched. unfold ObserveProcess.Close, ObserveProcess.worker. rewrite Hd.
    cbn [config with_done]. unfold ObserveProcess.worker_start, makeslice_panics.
    destruct (ObserveConfig.BatchSize (config o) <? 0)%Z eqn:Hcap; cbn [orb];
      [cbn; eauto |].
    destruct (maxAlloc <? _)%Z; [cbn; eauto |].
    destruct (ObserveConfig.FlushInterval (config o) <=? 0)%Z eqn:Htick; [cbn; eauto |].
    apply Z.ltb_ge in Hcap. apply Z.leb_gt in Htick. lia.
  - intros Hstart Hb Hp sched. unfold ObserveProcess.Close, ObserveProcess.worker.
    rewrite Hd. cbn [config with_done]. rewrite Hstart. cbn [and_then].
    now apply process_loop_panics.
Qed.

End ObserveGoroutine.

(** Closed after the worker took five of eleven queued entries, the
    destination has sent the eleven entries, in order. *)
Lemma observe_Close_sends_eleven_entries :
  exists o' : Logger.ObserveDestination.t,
    Logger.ObserveProcess.Close (repeat OnQueue 5)
      (Logger.ObserveDestination.with_queue
         (Logger.ObserveDestination.NewObserveDestination
            "https://sk_live_xxx@statly.live/acme" (Some (Samples.observe_config 4)))
         (Samples.entries Logger.LevelError 11))
    = Returned o'
    /\ concat (Logger.ObserveDestination.sent o') = Samples.entries Logger.LevelError 11
    /\ Logger.ObserveDestination.queue o' = []
    /\ Logger.ObserveDestination.exited o' = true.
Proof.
  exact (proj1 (observe_Close_sends_pending_records_once
                  (Logger.ObserveDestination.with_queue
                     (Logger.ObserveDestination.NewObserveDestination
                        "https://sk_live_xxx@statly.live/acme"
                        (Some (Samples.observe_config 4)))
                     (Samples.entries Logger.LevelError 11))
                  eq_refl eq_refl)
               eq_refl eq_refl (repeat OnQueue 5)).
Defined.

(** The same destination made from a DSN written without its scheme: the
    endpoint derived from it is no URL, and [Close] with the entries pending
    ends in the panic of the goroutine. *)
Lemma observe_Close_without_scheme_panics :
  Logger.ObserveProcess.Close (repeat OnQueue 5)
    (Logger.ObserveDestination.with_queue
       (Logger.ObserveDestination.NewObserveDestination
          "sk_live_xxx@statly.live/acme" (Some (Samples.observe_config 4)))
       (Samples.entries Logger.LevelError 11))
  = Panicked "invalid memory address or nil pointer dereference".
Proof. vm_compute. reflexivity. Qed.

(** Eleven entries and a threshold of four: no batch is empty or longer than
    four. *)
Lemma observe_worker_batches_of_eleven_entries :
  Forall (fun b => 1 <= Z.of_nat (List.length b) <= 4)
    (Logger.ObserveDestination.sent
       (Logger.ObserveDestination.worker (repeat OnQueue 11 ++ [OnTimer])
          (Logger.ObserveDestination.with_queue
             (Logger.ObserveDestination.NewObserveDestination
                "https://sk_live_xxx@statly.live/acme" (Some (Samples.observe_config 4)))
             (Samples.entries Logger.LevelError 11)))).
Proof.
  refine (proj1 (observe_worker_batches_within_BatchSize (repeat OnQueue 11 ++ [OnTimer])
                   (Logger.ObserveDestination.with_queue
                      (Logger.ObserveDestination.NewObserveDestination
                         "https://sk_live_xxx@statly.live/acme"
                         (Some (Samples.observe_config 4)))
                      (Samples.entries Logger.LevelError 11)) _ _ _ _)).
  - cbn. lia.
  - reflexivity.
  - cbn. lia.
  - constructor.
Defined.

(** An audit entry written to a closed destination is queued and stays
    there. *)
Lemma observe_audit_after_Close_is_never_sent :
  Logger.ObserveDestination.sent
    (Logger.ObserveDestination.worker [OnQueue; OnTimer; OnDone]
       (snd (Logger.ObserveDestination.WriteAll
               (Logger.ObserveDestination.with_exited
                  (Logger.ObserveDestination.with_done
                     (Logger.ObserveDestination.NewObserveDestination
                        "https://sk_live_xxx@statly.live/acme" None) true) true)
               [(Samples.entry Logger.LevelAudit "login", 0.5%float)])))
  = [].
Proof.
  exact (proj1 (observe_Write_after_Close_is_never_sent []
                  (Logger.ObserveDestination.NewObserveDestination
                     "https://sk_live_xxx@statly.live/acme" None)
                  _ eq_refl)
               [(Samples.entry Logger.LevelAudit "login", 0.5%float)]
               [OnQueue; OnTimer; OnDone]).
Defined.

(** ** Observe destination: default sampling *)

Section DefaultSampling.
Import Logger Logger.ObserveDestination.

(** [a <= b] excludes [b < a]. *)
Lemma leb_true_ltb_false (a b : float) :
  PrimFloat.leb a b = true -> PrimFloat.ltb b a = false.
Proof.
  rewrite FloatAxioms.ltb_spec, FloatAxioms.leb_spec. unfold SFltb, SFleb.
  rewrite (SFcompare_antisym (Prim2SF a) (Prim2SF b)).
  destruct (SFcompare (Prim2SF a) (Prim2SF b)) as [[]|]; cbn; congruence.
Qed.

(** A destination made by [NewObserveDestination] has a rate for every
    level: the configured one, or else the default. With the default rates a
    record at the level warn, error or fatal is never sampled out, whatever
    [rand.Float64] draws from 0 to 1. *)
Theorem default_sampling_keeps_warn_and_above (dsn : string) (c : option ObserveConfig.t)
    (entry : Entry.t) (draw : float) :
  (forall (level : Level) (r : float),
     (c ≫= fun c => ObserveConfig.Sampling c !! level) = Some r ->
     rate (NewObserveDestination dsn c) level = r)
  /\ (forall level : Level,
        (c ≫= fun c => ObserveConfig.Sampling c !! level) = None ->
        Some (rate (NewObserveDestination dsn c) level) = defaultSampling !! level)
  /\ ((c ≫= fun c => ObserveConfig.Sampling c !! Entry.Level entry) = None ->
      3 <= Level_int (Entry.Level entry) ->
      PrimFloat.leb draw 1 = true ->
      sampled_out (NewObserveDestination dsn c) entry draw = false).
Proof.
  assert (Hdefault : forall level : Level,
            (c ≫= fun c => ObserveConfig.Sampling c !! level) = None ->
            Some (rate (NewObserveDestination dsn c) level) = defaultSampling !! level).
  { intros level Hnone. unfold rate, NewObserveDestination. cbn [sampling].
    destruct c as [c|]; cbn in Hnone |- *.
    - rewrite lookup_union_r by assumption. now destruct level.
    - rewrite (left_id_L ∅ (∪)). now destruct level. }
  split; [| split; [exact Hdefault |]].
  - intros level r Hr. unfold rate, NewObserveDestination. cbn [sampling].
    destruct c as [c|]; cbn in Hr; [| discriminate].
    now rewrite (lookup_union_Some_l _ _ _ _ Hr).
  - intros Hnone Hlevel Hdraw. unfold sampled_out.
    specialize (Hdefault (Entry.Level entry) Hnone).
    assert (Hone : defaultSampling !! Entry.Level entry = Some 1%float)
      by (destruct (Entry.Level entry); cbn in Hlevel; try lia; reflexivity).
    rewrite Hone in Hdefault. injection Hdefault as ->.
    rewrite (leb_true_ltb_false _ _ Hdraw). apply andb_false_r.
Qed.

End DefaultSampling.

(** An error record is not sampled out at the draw 0.875. *)
Lemma default_sampling_keeps_error_record :
  Logger.ObserveDestination.sampled_out
    (Logger.ObserveDestination.NewObserveDestination "https://sk_live_xxx@statly.live/acme"
       None)
    (Samples.entry Logger.LevelError "boom") 0.875%float
  = false.
Proof.
  refine (proj2 (proj2 (default_sampling_keeps_warn_and_above
                          "https://sk_live_xxx@statly.live/acme" None
                          (Samples.entry Logger.LevelError "boom") 0.875%float)) _ _ _).
  - reflexivity.
  - cbn. lia.
  - vm_compute. reflexivity.
Defined.

(** ** HTTP transport: what the worker sends *)

Section TransportStream.
Import Statly Statly.HTTPTransport.
Variable net : nat -> Z -> reply.

Lemma batches_call_sendBatch (t0 : t) (b : list Event.t) :
  batches (call_sendBatch net t0 b) = batches t0 ++ [b].
Proof. unfold batches, call_sendBatch. cbn. now rewrite map_app. Qed.

Lemma worker_exited (sched : list wake) (t0 : t) :
  exited t0 = true -> worker net sched t0 = t0.
Proof.
  intros Hx. induction sched as [|w sched IH]; [reflexivity |].
  cbn [worker]. unfold worker_step. now rewrite Hx.
Qed.

(** The drain loop sends what its batch holds and what the queue holds, in
    order, and the worker returns. *)
Lemma drain_stream (pending : list Event.t) :
  forall (t0 : t) (b : list Event.t),
  concat (batches (drain net t0 pending b)) = concat (batches t0) ++ b ++ pending
  /\ exited (drain net t0 pending b) = true
  /\ queue (drain net t0 pending b) = [].
Proof.
  induction pending as [|e pending IH]; intros t0 b; cbn [drain].
  - rewrite app_nil_r. destruct b as [|x b]; cbn [List.length Nat.ltb Nat.leb].
    + cbn. now rewrite app_nil_r.
    + cbn [exited queue with_exited with_batch with_queue].
      split; [| auto]. unfold batches. cbn. rewrite map_app, concat_app. cbn.
      now rewrite app_nil_r.
  - destruct (_ <=? _)%Z.
    + destruct (IH (call_sendBatch net t0 (b ++ [e])) []) as (Hc & Hx & Hq).
      rewrite Hc, Hx, Hq, batches_call_sendBatch, concat_app. cbn.
      rewrite app_nil_r, <- !app_assoc. auto.
    + destruct (IH t0 (b ++ [e])) as (Hc & Hx & Hq).
      rewrite Hc, Hx, Hq, <- !app_assoc. auto.
Qed.

Lemma step_stream (w : wake) (t0 t1 : t) :
  worker_step net w t0 = Some t1 ->
  (exited t1 = false
   /\ concat (batches t1) ++ batch t1 ++ queue t1
      = concat (batches t0) ++ batch t0 ++ queue t0)
  \/ (exited t1 = true /\ queue t1 = []
      /\ concat (batches t1) = concat (batches t0) ++ batch t0 ++ batch t0 ++ queue t0).
Proof.
  unfold worker_step. destruct (exited t0) eqn:Hx; [discriminate |].
  destruct w.
  - destruct (queue t0) as [|e rest] eqn:Hq; [discriminate |].
    destruct (_ <=? _)%Z; intros [= <-]; left.
    + cbn [exited batch queue with_batch with_queue call_sendBatch with_sent].
      split; [exact Hx |].
      change (batches (with_batch (with_queue (call_sendBatch net t0 (batch t0 ++ [e])) rest) []))
        with (batches (call_sendBatch net t0 (batch t0 ++ [e]))).
      rewrite batches_call_sendBatch, concat_app. cbn.
      now rewrite app_nil_r, <- !app_assoc.
    + cbn. rewrite Hx. split; [reflexivity |]. now rewrite <- !app_assoc.
  - destruct (0 <? _)%nat; intros [= <-]; left.
    + cbn [exited batch queue with_batch with_queue call_sendBatch with_sent].
      split; [exact Hx |].
      change (batches (with_batch (call_sendBatch net t0 (batch t0)) []))
        with (batches (call_sendBatch net t0 (batch t0))).
      rewrite batches_call_sendBatch, concat_app. cbn.
      now rewrite app_nil_r, <- !app_assoc.
    + auto.
  - destruct (done t0); [| discriminate]. intros [= <-]. right.
    destruct (drain_stream (queue t0)
                (if (0 <? List.length (batch t0))%nat
                 then call_sendBatch net t0 (batch t0) else t0) (batch t0))
      as (Hc & Hx1 & Hq1).
    split; [exact Hx1 |]. split; [exact Hq1 |]. rewrite Hc.
    destruct (batch t0) as [|x b] eqn:Hb; cbn [List.length Nat.ltb Nat.leb].
    + reflexivity.
    + rewrite batches_call_sendBatch, concat_app. cbn.
      now rewrite app_nil_r, <- !app_assoc.
Qed.

Lemma step_done_exits (t0 t1 : t) :
  worker_step net OnDone t0 = Some t1 -> exited t1 = true.
Proof.
  unfold worker_step. destruct (exited t0); [discriminate |].
  destruct (done t0); [| discriminate]. intros [= <-].
  apply drain_stream.
Qed.

Lemma worker_stream (sched : list wake) :
  forall t0 : t,
  exited t0 = false ->
  (exited (worker net sched t0) = false
   /\ concat (batches (worker net sched t0)) ++ batch (worker net sched t0)
        ++ queue (worker net sched t0)
      = concat (batches t0) ++ batch t0 ++ queue t0)
  \/ (exited (worker net sched t0) = true /\ queue (worker net sched t0) = []
      /\ exists pre b post : list Event.t,
           concat (batches t0) ++ batch t0 ++ queue t0 = pre ++ b ++ post
           /\ concat (batches (worker net sched t0)) = pre ++ b ++ b ++ post).
Proof.
  induction sched as [|w sched IH]; intros t0 Hx; [left; auto |].
  cbn [worker]. destruct (worker_step net w t0) as [t1|] eqn:Hstep; [| now apply IH].
  destruct (step_stream w t0 t1 Hstep) as [[Hx1 H1]|(Hx1 & Hq1 & H1)].
  - rewrite <- H1. now apply IH.
  - right. rewrite worker_exited by assumption.
    split; [exact Hx1 |]. split; [exact Hq1 |].
    exists (concat (batches t0)), (batch t0), (queue t0). auto.
Qed.

Lemma worker_open (sched : list wake) :
  forall t0 : t,
  done t0 = false -> exited t0 = false -> exited (worker net sched t0) = false.
Proof.
  induction sched as [|w sched IH]; intros t0 Hd Hx; [exact Hx |].
  cbn [worker]. destruct (worker_step net w t0) as [t1|] eqn:Hstep; [| now apply IH].
  apply IH.
  - rewrite (worker_step_done net w t0 t1 Hstep). exact Hd.
  - destruct (step_stream w t0 t1 Hstep) as [[Hx1 _]|(Hx1 & _)]; [exact Hx1 |].
    unfold worker_step in Hstep. rewrite Hx in Hstep.
    destruct w.
    + destruct (queue t0); [discriminate |].
      destruct (_ <=? _)%Z; injection Hstep as <-; exact Hx.
    + destruct (0 <? _)%nat; injection Hstep as <-; exact Hx.
    + rewrite Hd in Hstep. discriminate.
Qed.

Lemma Close_stream (sched : list wake) (t0 : t) (timeout : Z) :
  done t0 = false -> exited t0 = false ->
  exists (t1 : t) (pre b post : list Event.t),
    Close net sched t0 timeout = Returned t1
    /\ exited t1 = true
    /\ queue t1 = []
    /\ concat (batches t0) ++ batch t0 ++ queue t0 = pre ++ b ++ post
    /\ concat (batches t1) = pre ++ b ++ b ++ post.
Proof.
  intros Hd Hx. unfold Close. rewrite Hd.
  assert (Hx0 : exited (with_done t0 true) = false) by exact Hx.
  destruct (worker_stream (sched ++ [OnDone]) (with_done t0 true) Hx0)
    as [[Hrun _]|(Hx1 & Hq1 & pre & b & post & Hs & Hc)].
  - exfalso. rewrite worker_app in Hrun.
    destruct (worker_stream sched (with_done t0 true) Hx0) as [[Hx1 _]|(Hx1 & _)].
    + cbn [worker] in Hrun.
      destruct (worker_step net OnDone (worker net sched (with_done t0 true)))
        as [t1|] eqn:Hstep.
      * pose proof (step_done_exits _ t1 Hstep). congruence.
      * unfold worker_step in Hstep. rewrite Hx1, worker_done in Hstep. discriminate.
    + rewrite (worker_exited [OnDone]) in Hrun by assumption. congruence.
  - eexists. exists pre, b, post. split; [reflexivity |]. auto.
Qed.

(** While the transport is open its worker neither loses, repeats nor
    reorders an event: the batches sent, the current batch and the queue,
    read in this order, stay the same sequence. [Close] returns with the
    worker gone and the queue empty, and every event that was in the batch
    or in the queue has been handed to [sendBatch], in arrival order; the
    events of the batch that was pending when the worker took the [done]
    case are handed over twice. A transport closed while its worker is idle
    sends its pending batch, then the same batch again followed by the
    queue. *)
Theorem transport_Close_loses_nothing_repeats_pending (t0 : t) :
  (done t0 = false -> exited t0 = false ->
   forall sched : list wake,
     exited (worker net sched t0) = false
     /\ concat (batches (worker net sched t0)) ++ batch (worker net sched t0)
          ++ queue (worker net sched t0)
        = concat (batches t0) ++ batch t0 ++ queue t0)
  /\ (done t0 = false -> exited t0 = false ->
      forall (sched : list wake) (timeout : Z),
      exists (t1 : t) (pre b post : list Event.t),
        Close net sched t0 timeout = Returned t1
        /\ exited t1 = true
        /\ queue t1 = []
        /\ concat (batches t0) ++ batch t0 ++ queue t0 = pre ++ b ++ post
        /\ concat (batches t1) = pre ++ b ++ b ++ post)
  /\ (done t0 = false -> exited t0 = false ->
      forall timeout : Z,
      exists t1 : t,
        Close net [] t0 timeout = Returned t1
        /\ concat (batches t1)
           = concat (batches t0) ++ batch t0 ++ batch t0 ++ queue t0).
Proof.
  split; [| split].
  - intros Hd Hx sched.
    pose proof (worker_open sched t0 Hd Hx) as Hopen. split; [exact Hopen |].
    destruct (worker_stream sched t0 Hx) as [[_ Hs]|[Hx1 _]]; [exact Hs | congruence].
  - intros Hd Hx sched timeout. now apply Close_stream.
  - intros Hd Hx timeout. unfold Close. rewrite Hd. eexists. split; [reflexivity |].
    cbn [app worker].
    destruct (worker_step net OnDone (with_done t0 true)) as [t1|] eqn:Hstep.
    + destruct (step_stream OnDone _ t1 Hstep) as [[Hx1 _]|(_ & _ & Hc)]; [| exact Hc].
      pose proof (step_done_exits _ t1 Hstep). congruence.
    + unfold worker_step in Hstep. cbn [exited done with_done] in Hstep.
      rewrite Hx in Hstep. discriminate.
Qed.

End TransportStream.

Section TransportBatches.
Import Statly Statly.HTTPTransport.
Variable net : nat -> Z -> reply.

Lemma drain_options (pending : list Event.t) :
  forall (t0 : t) (b : list Event.t), options (drain net t0 pending b) = options t0.
Proof.
  induction pending as [|e pending IH]; intros t0 b; cbn [drain].
  - now destruct (0 <? List.length b)%nat.
  - destruct (_ <=? _)%Z; now rewrite IH.
Qed.

Lemma step_options (w : wake) (t0 t1 : t) :
  worker_step net w t0 = Some t1 -> options t1 = options t0.
Proof.
  unfold worker_step. destruct (exited t0); [discriminate |].
  destruct w.
  - destruct (queue t0); [discriminate |].
    destruct (_ <=? _)%Z; intros [= <-]; reflexivity.
  - destruct (0 <? _)%nat; intros [= <-]; reflexivity.
  - destruct (done t0); [| discriminate]. intros [= <-].
    rewrite drain_options. now destruct (0 <? _)%nat.
Qed.

Lemma drain_within (B : Z) (pending : list Event.t) :
  forall (t0 : t) (b : list Event.t),
  1 <= B -> TransportOptions.BatchSize (options t0) = B ->
  Z.of_nat (List.length b) < B ->
  Forall (fun b => 1 <= Z.of_nat (List.length b) <= B) (batches t0) ->
  Forall (fun b => 1 <= Z.of_nat (List.length b) <= B) (batches (drain net t0 pending b)).
Proof.
  induction pending as [|e pending IH]; intros t0 b HB Ho Hb Hs; cbn [drain].
  - destruct (0 <? List.length b)%nat eqn:Hpos; [| exact Hs].
    apply Nat.ltb_lt in Hpos.
    change (batches (with_exited (with_batch (with_queue (call_sendBatch net t0 b) []) b) true))
      with (batches (call_sendBatch net t0 b)).
    rewrite batches_call_sendBatch. apply Forall_app. split; [exact Hs |].
    constructor; [lia | constructor].
  - rewrite Ho. destruct (_ <=? _)%Z eqn:Hfull.
    + apply Z.leb_le in Hfull. rewrite length_app in Hfull. cbn [List.length] in Hfull.
      apply IH; [exact HB | exact Ho | cbn; lia |].
      rewrite batches_call_sendBatch. apply Forall_app. split; [exact Hs |].
      constructor; [| constructor]. rewrite length_app. cbn [List.length]. lia.
    + apply Z.leb_gt in Hfull. now apply IH.
Qed.

Lemma step_within (B : Z) (w : wake) (t0 t1 : t) :
  worker_step net w t0 = Some t1 ->
  1 <= B -> TransportOptions.BatchSize (options t0) = B ->
  Z.of_nat (List.length (batch t0)) < B ->
  Forall (fun b => 1 <= Z.of_nat (List.length b) <= B) (batches t0) ->
  Forall (fun b => 1 <= Z.of_nat (List.length b) <= B) (batches t1)
  /\ (exited t1 = false -> Z.of_nat (List.length (batch t1)) < B).
Proof.
  intros Hstep HB Ho Hb Hs. unfold worker_step in Hstep.
  destruct (exited t0) eqn:Hx0; [discriminate |].
  destruct w.
  - destruct (queue t0) as [|e rest]; [discriminate |].
    rewrite Ho in Hstep.
    destruct (_ <=? _)%Z eqn:Hfull; injection Hstep as <-.
    + split; [| cbn; lia].
      change (batches (with_batch (with_queue
                 (call_sendBatch net t0 (batch t0 ++ [e])) rest) []))
        with (batches (call_sendBatch net t0 (batch t0 ++ [e]))).
      rewrite batches_call_sendBatch. apply Forall_app. split; [exact Hs |].
      constructor; [| constructor].
      apply Z.leb_le in Hfull. rewrite length_app in *. cbn [List.length] in *. lia.
    + split; [exact Hs |]. intros _. apply Z.leb_gt in Hfull. exact Hfull.
  - destruct (0 <? _)%nat eqn:Hpos; injection Hstep as <-.
    + split; [| cbn; lia].
      change (batches (with_batch (call_sendBatch net t0 (batch t0)) []))
        with (batches (call_sendBatch net t0 (batch t0))).
      rewrite batches_call_sendBatch. apply Forall_app. split; [exact Hs |].
      apply Nat.ltb_lt in Hpos. constructor; [lia | constructor].
    + split; [exact Hs | intros _; exact Hb].
  - destruct (done t0); [| discriminate]. injection Hstep as <-. split.
    + apply drain_within; [exact HB | | exact Hb |].
      * destruct (0 <? _)%nat; exact Ho.
      * destruct (0 <? List.length (batch t0))%nat eqn:Hpos; [| exact Hs].
        apply Nat.ltb_lt in Hpos.
        rewrite batches_call_sendBatch. apply Forall_app. split; [exact Hs |].
        constructor; [lia | constructor].
    + intros Hrun.
      destruct (drain_stream net (queue t0)
                  (if (0 <? List.length (batch t0))%nat
                   then call_sendBatch net t0 (batch t0) else t0) (batch t0))
        as (_ & Hxd & _).
      congruence.
Qed.

Lemma worker_within (B : Z) (sched : list wake) :
  forall t0 : t,
  1 <= B -> TransportOptions.BatchSize (options t0) = B ->
  Z.of_nat (List.length (batch t0)) < B ->
  Forall (fun b => 1 <= Z.of_nat (List.length b) <= B) (batches t0) ->
  Forall (fun b => 1 <= Z.of_nat (List.length b) <= B) (batches (worker net sched t0)).
Proof.
  induction sched as [|w sched IH]; intros t0 HB Ho Hb Hs; [exact Hs |].
  cbn [worker]. destruct (worker_step net w t0) as [t1|] eqn:Hstep; [| now apply IH].
  destruct (step_within B w t0 t1 Hstep HB Ho Hb Hs) as [Hs1 Hb1].
  destruct (exited t1) eqn:Hx1.
  - now rewrite worker_exited.
  - apply IH; auto. rewrite (step_options w t0 t1 Hstep). exact Ho.
Qed.

(** With a batch size of at least one, every batch the worker hands to
    [sendBatch] holds at least one event and at most [BatchSize] events, at
    every step and at shutdown; a transport made by [NewHTTPTransport] from a
    batch size that is not negative starts in such a state, and [Send] keeps
    it. *)
Theorem transport_batches_within_BatchSize (sched : list wake) :
  forall t0 : t,
  1 <= TransportOptions.BatchSize (options t0) ->
  Z.of_nat (List.length (batch t0)) < TransportOptions.BatchSize (options t0) ->
  Forall (fun b => 1 <= Z.of_nat (List.length b) <= TransportOptions.BatchSize (options t0))
         (batches t0) ->
  Forall (fun b => 1 <= Z.of_nat (List.length b) <= TransportOptions.BatchSize (options t0))
         (batches (worker net sched t0))
  /\ (forall o : TransportOptions.t,
        0 <= TransportOptions.BatchSize o ->
        1 <= TransportOptions.BatchSize (options (NewHTTPTransport o))
        /\ batch (NewHTTPTransport o) = []
        /\ batches (NewHTTPTransport o) = [])
  /\ (forall (pick : bool) (event : Event.t),
        options (snd (Send pick t0 event)) = options t0
        /\ batch (snd (Send pick t0 event)) = batch t0
        /\ batches (snd (Send pick t0 event)) = batches t0).
Proof.
  intros t0 HB Hb Hs. split; [| split].
  - now apply worker_within.
  - intros o Ho. cbn. unfold or_default.
    destruct (TransportOptions.BatchSize o =? 0)%Z eqn:Hz;
      [| apply Z.eqb_neq in Hz]; repeat split; lia.
  - intros pick event. unfold Send. now destruct (_ && _).
Qed.

Lemma SendAll_keeps_worker (pick : bool) (events : list Event.t) :
  forall t0 : t,
  exited (snd (SendAll pick t0 events)) = exited t0
  /\ batches (snd (SendAll pick t0 events)) = batches t0.
Proof.
  induction events as [|e events IH]; intros t0; [auto |].
  cbn [SendAll snd]. destruct (IH (snd (Send pick t0 e))) as [Hx Hs].
  rewrite Hx, Hs. unfold Send. now destruct (_ && _).
Qed.

(** After [Close] the worker is gone: an event that [Send] still accepts
    (its [select] may take the queue although [done] is closed) is never
    handed to [sendBatch], and when the [select] takes the [done] case
    [Send] reports the event as not queued. *)
Theorem transport_Send_after_Close_is_never_sent (sched : list wake) (t0 t1 : t)
    (timeout : Z) :
  Close net sched t0 timeout = Returned t1 ->
  (forall event : Event.t, Send false t1 event = (false, t1))
  /\ (forall (pick : bool) (events : list Event.t) (net' : nat -> Z -> reply)
             (sched' : list wake),
        batches (worker net' sched' (snd (SendAll pick t1 events))) = batches t1).
Proof.
  intros Hclose. unfold Close in Hclose.
  destruct (done t0) eqn:Hd; [discriminate |]. injection Hclose as <-.
  assert (Hd1 : done (worker net (sched ++ [OnDone]) (with_done t0 true)) = true)
    by now rewrite worker_done.
  assert (Hx1 : exited (worker net (sched ++ [OnDone]) (with_done t0 true)) = true).
  { destruct (exited t0) eqn:Hx.
    - now rewrite worker_exited.
    - destruct (Close_stream net sched t0 timeout Hd Hx) as (t1 & _ & _ & _ & Hc & Hx1 & _).
      unfold Close in Hc. rewrite Hd in Hc. injection Hc as <-. exact Hx1. }
  split.
  - intros event. unfold Send. rewrite Hd1. cbn. now rewrite andb_false_r.
  - intros pick events net' sched'.
    destruct (SendAll_keeps_worker pick events
                (worker net (sched ++ [OnDone]) (with_done t0 true))) as [Hx Hs].
    rewrite worker_exited by congruence. exact Hs.
Qed.

End TransportBatches.

(** Eleven events and a threshold of four, closed while three are pending:
    no batch is empty or longer than four. *)
Lemma transport_batches_of_eleven_events :
  Forall (fun b => 1 <= Z.of_nat (List.length b) <= 4)
    (Statly.HTTPTransport.batches
       (Statly.HTTPTransport.worker (fun _ => Samples.always 200)
          (repeat OnQueue 11 ++ [OnDone])
          (Statly.HTTPTransport.with_done
             (Statly.HTTPTransport.with_queue
                (Statly.HTTPTransport.NewHTTPTransport (Samples.options_with_batch 4))
                (Samples.events 11))
             true))).
Proof.
  refine (proj1 (transport_batches_within_BatchSize (fun _ => Samples.always 200)
                   (repeat OnQueue 11 ++ [OnDone])
                   (Statly.HTTPTransport.with_done
                      (Statly.HTTPTransport.with_queue
                         (Statly.HTTPTransport.NewHTTPTransport (Samples.options_with_batch 4))
                         (Samples.events 11))
                      true) _ _ _)).
  - cbn. lia.
  - cbn. lia.
  - constructor.
Defined.

(** An event sent to a closed transport is refused when the [select] takes
    the [done] case. *)
Lemma transport_Send_after_Close_is_refused :
  Statly.HTTPTransport.Send false
    (Statly.HTTPTransport.with_exited
       (Statly.HTTPTransport.with_done
          (Statly.HTTPTransport.NewHTTPTransport Samples.options) true) true)
    (Samples.event "A")
  = (false,
     Statly.HTTPTransport.with_exited
       (Statly.HTTPTransport.with_done
          (Statly.HTTPTransport.NewHTTPTransport Samples.options) true) true).
Proof.
  exact (proj1 (transport_Send_after_Close_is_never_sent (fun _ => Samples.always 200) []
                  (Statly.HTTPTransport.NewHTTPTransport Samples.options) _ 0 eq_refl)
               (Samples.event "A")).
Defined.

(** The transport closed with eight events sent and three pending has handed
    over the eleven events and the last three again. *)
Lemma transport_Close_repeats_three_pending_events :
  exists t1 : Statly.HTTPTransport.t,
    Statly.HTTPTransport.Close (fun _ => Samples.always 200) []
      (Statly.HTTPTransport.worker (fun _ => Samples.always 200) (repeat OnQueue 11)
         (Statly.HTTPTransport.with_queue
            (Statly.HTTPTransport.NewHTTPTransport (Samples.options_with_batch 4))
            (Samples.events 11)))
      0
    = Returned t1
    /\ concat (Statly.HTTPTransport.batches t1)
       = Samples.events 11 ++ skipn 8 (Samples.events 11).
Proof.
  destruct (proj2 (proj2 (transport_Close_loses_nothing_repeats_pending
                            (fun _ => Samples.always 200)
                            (Statly.HTTPTransport.worker (fun _ => Samples.always 200)
                               (repeat OnQueue 11)
                               (Statly.HTTPTransport.with_queue
                                  (Statly.HTTPTransport.NewHTTPTransport
                                     (Samples.options_with_batch 4))
                                  (Samples.events 11)))))
              eq_refl eq_refl 0) as (t1 & Hclose & Hsent).
  exists t1. split; [exact Hclose |]. rewrite Hsent. reflexivity.
Defined.

(** ** Sender: attempts and waits *)

Section RetryWaits.
Import Statly.

Lemma wrap64_in_range (z : Z) : - 2 ^ 63 <= z < 2 ^ 63 -> wrap64 z = z.
Proof. intros Hz. unfold wrap64. rewrite Z.mod_small; lia. Qed.

Lemma backoff_in_range (retryDelay : Z) (k : nat) :
  0 <= retryDelay -> (k <= 62)%nat -> retryDelay * 2 ^ Z.of_nat k < 2 ^ 63 ->
  backoff retryDelay (Z.of_nat k) = retryDelay * 2 ^ Z.of_nat k.
Proof.
  intros Hd Hk Hprod. unfold backoff.
  assert (Hpow : 0 < 2 ^ Z.of_nat k < 2 ^ 63).
  { split; [apply Z.pow_pos_nonneg; lia | apply Z.pow_lt_mono_r; lia]. }
  rewrite (wrap64_in_range (2 ^ Z.of_nat k)) by lia.
  apply wrap64_in_range. nia.
Qed.

Lemma sum_of_doubling_waits (retryDelay : Z) (m : nat) :
  forall s : nat,
  0 <= retryDelay ->
  fold_right (fun w total => Z.max 0 (default 0 w) + total) 0
    (map (fun k => Some (retryDelay * 2 ^ Z.of_nat k)) (seq s m))
  = retryDelay * (2 ^ Z.of_nat (s + m) - 2 ^ Z.of_nat s).
Proof.
  induction m as [|m IH]; intros s Hd.
  - cbn [seq map fold_right]. rewrite Nat.add_0_r. lia.
  - cbn [seq map fold_right default]. rewrite IH by assumption.
    replace (s + S m)%nat with (S s + m)%nat by lia.
    rewrite (Nat2Z.inj_succ s), Z.pow_succ_r by lia.
    assert (0 <= 2 ^ Z.of_nat s) by (apply Z.pow_nonneg; lia).
    unfold id. rewrite Z.max_r by nia. ring.
Qed.

Lemma time_slept_of_waits (r : report) :
  time_slept r
  = fold_right (fun w total => Z.max 0 (default 0 w) + total) 0 (map slept (attempts r)).
Proof.
  unfold time_slept. induction (attempts r) as [|a l IH]; [reflexivity |].
  cbn [map fold_right]. now rewrite IH.
Qed.

(** A send that meets only replies it retries makes [MaxRetries] attempts;
    it does not wait before the first and waits [RetryDelay * 2^k] before
    attempt [k], so twice [RetryDelay] before the first retry and
    [RetryDelay * (2^MaxRetries - 2)] in all. *)
Theorem sendBatch_doubles_its_wait (options : TransportOptions.t) (batch : list Event.t)
    (net : Z -> reply) (n : nat) :
  batch <> [] ->
  Marshal batch <> None ->
  TransportOptions.MaxRetries options = Z.of_nat n ->
  (1 <= n <= 63)%nat ->
  0 <= TransportOptions.RetryDelay options ->
  TransportOptions.RetryDelay options * 2 ^ Z.of_nat n <= 2 ^ 63 ->
  (forall i, (i < n)%nat -> retried (net (Z.of_nat i)) = true) ->
  map slept (attempts (sendBatch options batch net))
  = None :: map (fun k => Some (TransportOptions.RetryDelay options * 2 ^ Z.of_nat k))
                (seq 1 (n - 1))
  /\ time_slept (sendBatch options batch net)
     = TransportOptions.RetryDelay options * (2 ^ Z.of_nat n - 2).
Proof.
  intros Hbatch Hbody Hmax Hn Hd Hprod Hgo.
  assert (Hwaits : map slept (attempts (sendBatch options batch net))
    = None :: map (fun k => Some (TransportOptions.RetryDelay options * 2 ^ Z.of_nat k))
                  (seq 1 (n - 1))).
  { rewrite sendBatch_retry by assumption. rewrite Hmax, Nat2Z.id.
    rewrite retry_exhausts by (intros i Hi; rewrite Z.add_0_l; auto).
    cbn [attempts]. rewrite map_map.
    destruct n as [|m]; [lia |]. cbn [seq map Nat.sub]. rewrite Nat.sub_0_r.
    f_equal. apply map_ext_in. intros k Hk. apply in_seq in Hk.
    unfold attempt_at. cbn [slept]. rewrite Z.add_0_l.
    rewrite (proj2 (Z.ltb_lt 0 (Z.of_nat k))) by lia.
    f_equal. apply backoff_in_range; [assumption | lia |].
    assert (Hle : 2 ^ Z.of_nat k <= 2 ^ Z.of_nat m) by (apply Z.pow_le_mono_r; lia).
    rewrite Nat2Z.inj_succ, Z.pow_succ_r in Hprod by lia.
    assert (0 < 2 ^ Z.of_nat m) by (apply Z.pow_pos_nonneg; lia).
    assert (0 < 2 ^ 63) by reflexivity.
    nia. }
  split; [exact Hwaits |].
  rewrite time_slept_of_waits, Hwaits. cbn [fold_right default].
  rewrite sum_of_doubling_waits by assumption.
  replace (1 + (n - 1))%nat with n by lia.
  change (2 ^ Z.of_nat 1) with 2. lia.
Qed.

(** A negative [MaxRetries] is kept as it is given, and the retry loop then
    has no iteration: no request is made for any batch, and a batch that
    could have been sent is given up at once. *)
Theorem negative_MaxRetries_sends_nothing (o : TransportOptions.t) (batch : list Event.t)
    (net : Z -> reply) :
  TransportOptions.MaxRetries o < 0 ->
  TransportOptions.MaxRetries (HTTPTransport.options (HTTPTransport.NewHTTPTransport o))
    = TransportOptions.MaxRetries o
  /\ attempts (sendBatch (HTTPTransport.options (HTTPTransport.NewHTTPTransport o)) batch net)
     = []
  /\ (batch <> [] -> Marshal batch <> None ->
      result_of (sendBatch (HTTPTransport.options (HTTPTransport.NewHTTPTransport o))
                   batch net)
      = Abandoned).
Proof.
  intros Hneg.
  assert (Hkept : TransportOptions.MaxRetries
                    (HTTPTransport.options (HTTPTransport.NewHTTPTransport o))
                  = TransportOptions.MaxRetries o).
  { cbn. unfold HTTPTransport.or_default.
    destruct (TransportOptions.MaxRetries o =? 0)%Z eqn:Hz; [apply Z.eqb_eq in Hz; lia |].
    reflexivity. }
  split; [exact Hkept |]. split.
  - unfold sendBatch. destruct batch as [|e batch]; [reflexivity |].
    destruct (Marshal (e :: batch)); [| reflexivity].
    rewrite Hkept. now replace (Z.to_nat (TransportOptions.MaxRetries o)) with 0%nat by lia.
  - intros Hbatch Hbody. rewrite sendBatch_retry by assumption.
    rewrite Hkept. now replace (Z.to_nat (TransportOptions.MaxRetries o)) with 0%nat by lia.
Qed.

Lemma retry_Delivered (retryDelay : Z) (net : Z -> reply) (remaining : nat) :
  forall attempt : Z,
  result_of (retry retryDelay net remaining attempt) = Delivered ->
  exists n : nat,
    (n < remaining)%nat
    /\ (forall i, (i < n)%nat -> retried (net (attempt + Z.of_nat i)) = true)
    /\ exists code, net (attempt + Z.of_nat n) = Status code /\ is_success code = true.
Proof.
  induction remaining as [|remaining IH]; intros attempt Hres; [discriminate |].
  destruct (retried (net attempt)) eqn:Hgo.
  - rewrite retry_continue in Hres by assumption. cbn [cons_attempt result_of] in Hres.
    destruct (IH (attempt + 1) Hres) as (n & Hn & Hbefore & code & Hcode & Hok).
    exists (S n). split; [lia |]. split.
    + intros [|i] Hi.
      * now rewrite Z.add_0_r.
      * replace (attempt + Z.of_nat (S i)) with (attempt + 1 + Z.of_nat i) by lia.
        apply Hbefore. lia.
    + exists code. now replace (attempt + Z.of_nat (S n)) with (attempt + 1 + Z.of_nat n) by lia.
  - rewrite retry_stop in Hres by assumption. cbn [result_of] in Hres.
    exists 0%nat. split; [lia |]. split; [intros i Hi; lia |].
    rewrite Z.add_0_r. destruct (net attempt) as [| |code]; try discriminate.
    exists code. split; [reflexivity |]. now destruct (is_success code).
Qed.

(** [SyncTransport.Send] returns true exactly when the event marshals and
    some attempt within [MaxRetries] gets a 200 or a 202 after attempts that
    all got a reply that is retried; it returns false after a 4xx, without
    further attempts. [NewSyncTransport] gives [RetryDelay] no default. *)
Theorem SyncTransport_Send_reports_delivery (t0 : SyncTransport.t) (event : Event.t)
    (net : Z -> reply) :
  (fst (SyncTransport.Send t0 event net) = true
   <-> Event.marshalable event = true
       /\ exists n : nat,
            (n < Z.to_nat (TransportOptions.MaxRetries (SyncTransport.options t0)))%nat
            /\ (forall i, (i < n)%nat -> retried (net (Z.of_nat i)) = true)
            /\ exists code, net (Z.of_nat n) = Status code /\ is_success code = true)
  /\ (forall code,
        Event.marshalable event = true ->
        1 <= TransportOptions.MaxRetries (SyncTransport.options t0) ->
        net 0 = Status code -> is_client_error code = true ->
        SyncTransport.Send t0 event net
        = (false, {| attempts := [attempt_at (TransportOptions.RetryDelay
                                                (SyncTransport.options t0)) net 0];
                     result_of := Rejected code |}))
  /\ (forall o : TransportOptions.t,
        TransportOptions.RetryDelay (SyncTransport.options (SyncTransport.NewSyncTransport o))
        = TransportOptions.RetryDelay o).
Proof.
  split; [| split].
  - unfold SyncTransport.Send. destruct (Event.marshalable event); cbn [negb fst].
    + split.
      * intros Hsent. split; [reflexivity |].
        destruct (result_of (retry _ net _ 0)) eqn:Hres; try discriminate.
        destruct (retry_Delivered _ net _ 0 Hres) as (n & Hn & Hbefore & code & Hcode & Hok).
        exists n. split; [exact Hn |]. split.
        -- intros i Hi. specialize (Hbefore i Hi). now rewrite Z.add_0_l in Hbefore.
        -- exists code. now rewrite Z.add_0_l in Hcode.
      * intros [_ (n & Hn & Hbefore & code & Hcode & Hok)].
        rewrite (retry_stops_at _ net n).
        -- cbn [result_of]. rewrite Z.add_0_l, Hcode, Hok. reflexivity.
        -- exact Hn.
        -- intros i Hi. rewrite Z.add_0_l. now apply Hbefore.
        -- rewrite Z.add_0_l, Hcode. cbn. now rewrite Hok.
    + split; [discriminate | intros [Hm _]; discriminate].
  - intros code Hm Hmax Hcode Hclient. unfold SyncTransport.Send. rewrite Hm. cbn [negb].
    destruct (Z.to_nat (TransportOptions.MaxRetries (SyncTransport.options t0)))
      as [|budget] eqn:Hbudget; [lia |].
    rewrite (retry_stop _ net budget 0).
    + rewrite Hcode, (client_error_not_success code Hclient). reflexivity.
    + rewrite Hcode. cbn. rewrite Hclient. now rewrite andb_false_r.
  - reflexivity.
Qed.

End RetryWaits.

(** With the defaults, one second and three attempts, a batch that meets a
    503 each time waits two and four seconds, six in all. *)
Lemma sendBatch_waits_six_seconds :
  map Statly.slept
    (Statly.attempts
       (Statly.sendBatch
          (Statly.HTTPTransport.options (Statly.HTTPTransport.NewHTTPTransport Samples.options))
          [Samples.event "A"] (Samples.always 503)))
  = [None; Some 2000000000; Some 4000000000]
  /\ Statly.time_slept
       (Statly.sendBatch
          (Statly.HTTPTransport.options (Statly.HTTPTransport.NewHTTPTransport Samples.options))
          [Samples.event "A"] (Samples.always 503))
     = 6000000000.
Proof.
  refine (sendBatch_doubles_its_wait
            (Statly.HTTPTransport.options (Statly.HTTPTransport.NewHTTPTransport Samples.options))
            [Samples.event "A"] (Samples.always 503) 3 _ _ _ _ _ _ _).
  - discriminate.
  - vm_compute. discriminate.
  - reflexivity.
  - lia.
  - vm_compute. discriminate.
  - vm_compute. discriminate.
  - intros i Hi. reflexivity.
Defined.

(** A transport asked for [MaxRetries = -1] makes no request. *)
Lemma negative_MaxRetries_sends_no_event :
  Statly.attempts
    (Statly.sendBatch
       (Statly.HTTPTransport.options
          (Statly.HTTPTransport.NewHTTPTransport
             {| Statly.TransportOptions.DSN := "https://sk_live_xxx@statly.live/acme";
                Statly.TransportOptions.Timeout := 0;
                Statly.TransportOptions.MaxRetries := -1;
                Statly.TransportOptions.RetryDelay := 0;
                Statly.TransportOptions.BatchSize := 0;
                Statly.TransportOptions.FlushPeriod := 0;
                Statly.TransportOptions.Debug := false |}))
       [Samples.event "A"] (Samples.always 200))
  = [].
Proof.
  refine (proj1 (proj2 (negative_MaxRetries_sends_nothing
                          {| Statly.TransportOptions.DSN := "https://sk_live_xxx@statly.live/acme";
                             Statly.TransportOptions.Timeout := 0;
                             Statly.TransportOptions.MaxRetries := -1;
                             Statly.TransportOptions.RetryDelay := 0;
                             Statly.TransportOptions.BatchSize := 0;
                             Statly.TransportOptions.FlushPeriod := 0;
                             Statly.TransportOptions.Debug := false |}
                          [Samples.event "A"] (Samples.always 200) _))).
  cbn. lia.
Defined.

(** A synchronous send that meets 503, 503, 200 returns true. *)
Lemma SyncTransport_Send_recovers :
  fst (Statly.SyncTransport.Send (Statly.SyncTransport.NewSyncTransport Samples.options)
         (Samples.event "A") Samples.recovering)
  = true.
Proof.
  apply (proj1 (SyncTransport_Send_reports_delivery
                  (Statly.SyncTransport.NewSyncTransport Samples.options)
                  (Samples.event "A") Samples.recovering)).
  split; [vm_compute; reflexivity |].
  exists 2%nat. split; [cbn; lia |]. split.
  - intros i Hi. assert (i = 0 \/ i = 1)%nat as [-> | ->] by lia; reflexivity.
  - exists 200. split; reflexivity.
Defined.

(** ** Scope: breadcrumbs, tags, clearing *)

Section ScopeFacts.
Import Json Statly Statly.Scope.

Lemma wrap64_above (z : Z) : 2 ^ 63 <= z < 2 ^ 64 -> wrap64 z = z - 2 ^ 64.
Proof.
  intros Hz. unfold wrap64.
  replace (z + 2 ^ 63) with (z - 2 ^ 63 + 1 * 2 ^ 64) by lia.
  rewrite Z_mod_plus_full, Z.mod_small; lia.
Qed.

Lemma AddBreadcrumb_negative_limit (s : Scope.t) (now : Time) (crumb : Breadcrumb.t) :
  Z.of_nat (List.length (breadcrumbs s)) < 2 ^ 63 - 1 ->
  - 2 ^ 63 <= maxBreadcrumbs s < 0 ->
  AddBreadcrumb s now crumb = Panicked "slice bounds out of range".
Proof.
  intros Hlen Hmax. unfold AddBreadcrumb.
  set (stored := {| Breadcrumb.Message := Breadcrumb.Message crumb;
                    Breadcrumb.Category := Breadcrumb.Category crumb;
                    Breadcrumb.Level := _; Breadcrumb.Type_ := _;
                    Breadcrumb.Data := Breadcrumb.Data crumb;
                    Breadcrumb.Timestamp := _ |}).
  assert (Hl : Z.of_nat (List.length (breadcrumbs s ++ [stored]))
               = Z.of_nat (List.length (breadcrumbs s)) + 1)
    by (rewrite length_app; cbn [List.length]; lia).
  rewrite (proj2 (Z.ltb_lt _ _)) by lia.
  destruct (Z_lt_le_dec (Z.of_nat (List.length (breadcrumbs s ++ [stored]))
                         - maxBreadcrumbs s) (2 ^ 63)) as [Hin|Hout].
  - rewrite wrap64_in_range by lia.
    rewrite (proj2 (Z.leb_gt
               (Z.of_nat (List.length (breadcrumbs s ++ [stored])) - maxBreadcrumbs s)
               (Z.of_nat (List.length (breadcrumbs s ++ [stored]))))) by lia.
    now rewrite andb_false_r.
  - rewrite wrap64_above by lia.
    rewrite (proj2 (Z.leb_gt 0 _)) by lia. reflexivity.
Qed.

(** [AddBreadcrumb] on a scope whose limit is not negative returns: the
    crumb, with the time of the call, the level info and the type default
    filled in where it has none, is stored last, and the scope keeps the
    last [maxBreadcrumbs] crumbs, the older ones being dropped; nothing else
    in the scope changes. With a negative limit the slice expression is out
    of range and the call panics. (A slice holds fewer than 2^63
    elements.) *)
Theorem AddBreadcrumb_keeps_last_maxBreadcrumbs (s : Scope.t) (now : Time)
    (crumb : Breadcrumb.t) :
  Z.of_nat (List.length (breadcrumbs s)) < 2 ^ 63 - 1 ->
  (0 <= maxBreadcrumbs s ->
   exists (s' : Scope.t) (dropped : list Breadcrumb.t) (stored : Breadcrumb.t),
     AddBreadcrumb s now crumb = Returned s'
     /\ breadcrumbs s ++ [stored] = dropped ++ breadcrumbs s'
     /\ Z.of_nat (List.length (breadcrumbs s'))
        = Z.min (Z.of_nat (List.length (breadcrumbs s)) + 1) (maxBreadcrumbs s)
     /\ Breadcrumb.Message stored = Breadcrumb.Message crumb
     /\ Breadcrumb.Category stored = Breadcrumb.Category crumb
     /\ Breadcrumb.Data stored = Breadcrumb.Data crumb
     /\ Breadcrumb.Level stored
        = (if is_empty_string (Breadcrumb.Level crumb) then LevelInfo
           else Breadcrumb.Level crumb)
     /\ Breadcrumb.Type_ stored
        = (if is_empty_string (Breadcrumb.Type_ crumb) then "default"
           else Breadcrumb.Type_ crumb)
     /\ Breadcrumb.Timestamp stored
        = (if IsZero (Breadcrumb.Timestamp crumb) then now else Breadcrumb.Timestamp crumb)
     /\ s' = with_breadcrumbs s (breadcrumbs s'))
  /\ (- 2 ^ 63 <= maxBreadcrumbs s < 0 ->
      AddBreadcrumb s now crumb = Panicked "slice bounds out of range").
Proof.
  intros Hlen. split; [| intros Hmax; now apply AddBreadcrumb_negative_limit].
  unfold AddBreadcrumb.
  set (stored := {| Breadcrumb.Message := Breadcrumb.Message crumb;
                    Breadcrumb.Category := Breadcrumb.Category crumb;
                    Breadcrumb.Level := _; Breadcrumb.Type_ := _;
                    Breadcrumb.Data := Breadcrumb.Data crumb;
                    Breadcrumb.Timestamp := _ |}).
  assert (Hl : Z.of_nat (List.length (breadcrumbs s ++ [stored]))
               = Z.of_nat (List.length (breadcrumbs s)) + 1)
    by (rewrite length_app; cbn [List.length]; lia).
  - intros Hmax. destruct (_ <? _)%Z eqn:Hover.
    + apply Z.ltb_lt in Hover.
      rewrite wrap64_in_range by lia.
      rewrite (proj2 (Z.leb_le 0 _)) by lia. rewrite (proj2 (Z.leb_le _ _)) by lia.
      cbn [andb]. eexists. exists (firstn (Z.to_nat
        (Z.of_nat (List.length (breadcrumbs s ++ [stored])) - maxBreadcrumbs s))
        (breadcrumbs s ++ [stored])), stored.
      split; [reflexivity |]. cbn [breadcrumbs with_breadcrumbs].
      split; [now rewrite firstn_skipn |].
      split; [rewrite length_skipn; lia |]. repeat split.
    + apply Z.ltb_ge in Hover.
      eexists. exists [], stored. split; [reflexivity |]. cbn [breadcrumbs with_breadcrumbs].
      split; [reflexivity |]. split; [lia |]. repeat split.
Qed.

(** A cleared scope gives an event nothing: [ApplyToEvent] leaves the event
    as it is. The breadcrumb limit survives [Clear]. *)
Theorem Clear_scope_leaves_events_alone (s : Scope.t) (e : Event.t) :
  ApplyToEvent (Clear s) e = e
  /\ maxBreadcrumbs (Clear s) = maxBreadcrumbs s.
Proof.
  split; [| reflexivity].
  unfold ApplyToEvent, Clear. cbn [user tags extra contexts breadcrumbs].
  rewrite !(left_id_L ∅ (∪)). cbn [fmap list_fmap]. rewrite app_nil_r.
  now destruct e.
Qed.

End ScopeFacts.

(** A sixth crumb added to a scope with the limit five drops the oldest. *)
Lemma AddBreadcrumb_sixth_crumb_drops_first :
  exists (s' : Statly.Scope.t) (dropped : list Statly.Breadcrumb.t),
    Statly.Scope.AddBreadcrumb
      (Statly.Scope.with_breadcrumbs
         (Statly.Scope.with_maxBreadcrumbs Statly.Scope.NewScope 5)
         (map Samples.crumb ["a"; "b"; "c"; "d"; "e"]))
      Samples.now (Samples.crumb "f")
    = Returned s'
    /\ List.length (Statly.Scope.breadcrumbs s') = 5%nat
    /\ List.length dropped = 1%nat.
Proof.
  destruct (proj1 (AddBreadcrumb_keeps_last_maxBreadcrumbs
                     (Statly.Scope.with_breadcrumbs
                        (Statly.Scope.with_maxBreadcrumbs Statly.Scope.NewScope 5)
                        (map Samples.crumb ["a"; "b"; "c"; "d"; "e"]))
                     Samples.now (Samples.crumb "f") ltac:(vm_compute; reflexivity))
              ltac:(vm_compute; discriminate))
    as (s' & dropped & stored & Hret & Happ & Hlen & _).
  exists s', dropped. split; [exact Hret |].
  assert (Hfive : List.length (Statly.Scope.breadcrumbs s') = 5%nat).
  { cbn in Hlen. lia. }
  split; [exact Hfive |].
  apply (f_equal (@List.length _)) in Happ. rewrite !length_app, Hfive in Happ.
  cbn in Happ. lia.
Defined.

(** ** Client: what a captured event holds *)

Section ClientFacts.
Import Json Statly.
Context {T : Type} `{Transport.t T}.

Lemma CaptureMessageWithContext_sends (c : Client.t T) (amb : Ambient) (message : string)
    (level : Level) (ctx : option (gmap string value)) :
  PrimFloat.ltb (Options.SampleRate (Client.options c)) (rand_Float64 amb) = false ->
  Client.CaptureMessageWithContext c amb message level ctx
  = Client.sendEvent c
      (Scope.ApplyToEvent (Client.scope c)
         (Client.prepare c amb (Client.NewMessageEvent amb message level) ctx)).
Proof. intros Hin. unfold Client.CaptureMessageWithContext. now rewrite Hin. Qed.

(** A message that sampling lets through is handed to [sendEvent] as an
    event with a fresh id, the time of the call, the given message and
    level, the environment, release and server name of the options, and the
    scope laid over it: the scope's tags, user and breadcrumbs, the call's
    context as extra data with the scope's extra data winning on a shared
    key, and the runtime context unless the scope has a context of that
    name. *)
Theorem captured_message_holds_options_and_scope (c : Client.t T) (amb : Ambient)
    (message : string) (level : Level) (ctx : option (gmap string value)) :
  PrimFloat.ltb (Options.SampleRate (Client.options c)) (rand_Float64 amb) = false ->
  exists ev : Event.t,
    Client.CaptureMessageWithContext c amb message level ctx = Client.sendEvent c ev
    /\ Event.EventID ev = fresh_EventID amb
    /\ Event.Timestamp ev = time_Now amb
    /\ Event.Message ev = message
    /\ Event.Level ev = level
    /\ Event.Platform ev = "go"
    /\ Event.Exception ev = []
    /\ Event.Environment ev = Options.Environment (Client.options c)
    /\ Event.Release ev = Options.Release (Client.options c)
    /\ Event.ServerName ev = Options.ServerName (Client.options c)
    /\ Event.Tags ev = Scope.tags (Client.scope c)
    /\ (forall k, Event.Extra ev !! k
                  = match Scope.extra (Client.scope c) !! k with
                    | Some v => Some v
                    | None => ctx ≫= fun m => m !! k
                    end)
    /\ (forall k v, Scope.contexts (Client.scope c) !! k = Some v ->
                    Event.Contexts ev !! k = Some v)
    /\ (Scope.contexts (Client.scope c) !! "runtime" = None ->
        Event.Contexts ev !! "runtime" = Some (VMap (runtimeInfo amb)))
    /\ (Event.User ev ≫= fun u => Some (EventUser.ID u, EventUser.Email u))
       = (Scope.user (Client.scope c) ≫= fun u => Some (User.ID u, User.Email u))
    /\ Event.Breadcrumbs ev = Scope.crumb_value <$> Scope.breadcrumbs (Client.scope c).
Proof.
  intros Hin. eexists. split; [now apply CaptureMessageWithContext_sends |].
  cbn [Scope.ApplyToEvent Client.prepare Client.NewMessageEvent NewEvent Event.EventID
       Event.Timestamp Event.Message Event.Level Event.Platform Event.Exception
       Event.Environment Event.Release Event.ServerName Event.Tags Event.Extra
       Event.Contexts Event.User Event.Breadcrumbs app].
  repeat (split; [reflexivity |]).
  split; [apply (right_id_L ∅ (∪)) |]. split; [| split; [| split; [| split]]].
  - intros k. rewrite lookup_union.
    destruct (Scope.extra (Client.scope c) !! k) as [v|] eqn:Hk.
    + now destruct ((match ctx with Some m => m ∪ ∅ | None => ∅ end) !! k).
    + destruct ctx as [m|]; cbn.
      * rewrite (right_id_L ∅ (∪)). now destruct (m !! k).
      * now rewrite lookup_empty.
  - intros k v Hk. now apply lookup_union_Some_l.
  - intros Hnone. rewrite lookup_union_r by assumption. apply lookup_insert_eq.
  - now destruct (Scope.user (Client.scope c)).
  - reflexivity.
Qed.

(** What is set on the client shows in the next captured message: a tag set
    with [SetTag] or [SetTags], the user set with [SetUser], and extra data
    set with [SetExtra], which wins over the call's context. *)
Theorem client_scope_calls_reach_captured_message (c : Client.t T) (amb : Ambient)
    (message : string) (level : Level) (ctx : option (gmap string value)) :
  PrimFloat.ltb (Options.SampleRate (Client.options c)) (rand_Float64 amb) = false ->
  (forall k v, exists ev : Event.t,
     Client.CaptureMessageWithContext (Client.SetTag c k v) amb message level ctx
     = Client.sendEvent (Client.SetTag c k v) ev
     /\ Event.Tags ev !! k = Some v)
  /\ (forall (tgs : gmap string string) k v, tgs !! k = Some v ->
      exists ev : Event.t,
        Client.CaptureMessageWithContext (Client.SetTags c tgs) amb message level ctx
        = Client.sendEvent (Client.SetTags c tgs) ev
        /\ Event.Tags ev !! k = Some v
        /\ forall k' v', tgs !! k' = None -> Scope.tags (Client.scope c) !! k' = Some v' ->
             Event.Tags ev !! k' = Some v')
  /\ (forall u : User.t, exists (ev : Event.t) (eu : EventUser.t),
        Client.CaptureMessageWithContext (Client.SetUser c u) amb message level ctx
        = Client.sendEvent (Client.SetUser c u) ev
        /\ Event.User ev = Some eu
        /\ EventUser.ID eu = User.ID u /\ EventUser.Email eu = User.Email u
        /\ EventUser.Username eu = User.Username u /\ EventUser.IPAddr eu = User.IPAddr u
        /\ EventUser.Data eu = User.Data u)
  /\ (forall k (x : value), exists ev : Event.t,
        Client.CaptureMessageWithContext (Client.SetExtra c k x) amb message level ctx
        = Client.sendEvent (Client.SetExtra c k x) ev
        /\ Event.Extra ev !! k = Some x).
Proof.
  intros Hin. split; [| split; [| split]].
  - intros k v. eexists. split; [now apply CaptureMessageWithContext_sends |].
    cbn. rewrite (right_id_L ∅ (∪)). apply lookup_insert_eq.
  - intros tgs k v Hk. eexists. split; [now apply CaptureMessageWithContext_sends |].
    cbn. rewrite (right_id_L ∅ (∪)). split.
    + now apply lookup_union_Some_l.
    + intros k' v' Hnone Hold. now rewrite lookup_union_r.
  - intros u. eexists. eexists. split; [now apply CaptureMessageWithContext_sends |].
    cbn. split; [reflexivity |]. repeat split.
  - intros k x. eexists. split; [now apply CaptureMessageWithContext_sends |].
    cbn. apply lookup_union_Some_l. apply lookup_insert_eq.
Qed.

End ClientFacts.

(** A message captured by the client over the mock transport, with the tag
    key set first: the event the transport holds carries the tag. *)
Lemma CaptureMessage_after_SetTag_carries_tag :
  exists ev : Statly.Event.t,
    Statly.Client.CaptureMessageWithContext
      (Statly.Client.SetTag Samples.client "key" "value") (Samples.ambient "A") "test"
      Statly.LevelInfo None
    = Statly.Client.sendEvent (Statly.Client.SetTag Samples.client "key" "value") ev
    /\ Statly.Event.Tags ev !! "key" = Some "value".
Proof.
  exact (proj1 (client_scope_calls_reach_captured_message Samples.client
                  (Samples.ambient "A") "test" Statly.LevelInfo None eq_refl)
               "key" "value").
Defined.

(** The event of a message captured by the sample client. *)
Lemma CaptureMessage_event_of_sample_client :
  exists ev : Statly.Event.t,
    Statly.Client.CaptureMessageWithContext Samples.client (Samples.ambient "A") "test"
      Statly.LevelInfo (Some {[ "order" := VString "o-1" ]})
    = Statly.Client.sendEvent Samples.client ev
    /\ Statly.Event.Message ev = "test"
    /\ Statly.Event.Environment ev = "test"
    /\ Statly.Event.Extra ev !! "order" = Some (VString "o-1").
Proof.
  destruct (captured_message_holds_options_and_scope Samples.client (Samples.ambient "A")
              "test" Statly.LevelInfo (Some {[ "order" := VString "o-1" ]}) eq_refl)
    as (ev & Hsend & _ & _ & Hmsg & _ & _ & _ & Henv & _ & _ & _ & Hextra & _).
  exists ev. split; [exact Hsend |]. split; [exact Hmsg |]. split; [exact Henv |].
  rewrite Hextra. reflexivity.
Defined.

(** ** Client: creation, sampling, lifecycle *)

Section ClientLifecycle.
Import Json Statly.
Context {T : Type} `{Transport.t T}.
Variables (pick_queue : bool) (net : nat -> Z -> reply) (sched : list wake).

(** [NewClient] returns [ErrMissingDSN] for an empty DSN and a client
    otherwise. It reads a zero [SampleRate] as unset and makes it 1: a
    client asked for the rate 0 drops no message, whatever [rand.Float64]
    draws from 0 to 1. A zero [MaxBreadcrumbs] becomes 100 and a zero
    [FlushTimeout] five seconds; an empty [ServerName] becomes the host
    name, or unknown when that cannot be read. *)
Theorem NewClient_reads_zero_SampleRate_as_one (options : Options.t) (custom : option T)
    (hostname : option string) :
  (Options.DSN options = EmptyString -> NewClient options custom hostname = inl ErrMissingDSN)
  /\ (Options.DSN options <> EmptyString ->
      exists client : Client.t (T + HTTPTransport.t),
        NewClient options custom hostname = inr client
        /\ Options.DSN (Client.options client) = Options.DSN options
        /\ (PrimFloat.eqb (Options.SampleRate options) 0 = true ->
            Options.SampleRate (Client.options client) = 1%float
            /\ forall (amb : Ambient) (message : string) (level : Level),
                 PrimFloat.leb (rand_Float64 amb) 1 = true ->
                 exists ev : Event.t,
                   Client.CaptureMessage (H := chosen_Transport pick_queue net sched)
                     client amb message level
                   = Client.sendEvent (H := chosen_Transport pick_queue net sched) client ev
                   /\ Event.Message ev = message)
        /\ (Options.MaxBreadcrumbs options = 0 ->
            Scope.maxBreadcrumbs (Client.scope client) = 100)
        /\ (Options.MaxBreadcrumbs options <> 0 ->
            Scope.maxBreadcrumbs (Client.scope client) = Options.MaxBreadcrumbs options)
        /\ (Options.FlushTimeout options = 0 ->
            Options.FlushTimeout (Client.options client) = 5 * HTTPTransport.second)
        /\ (Options.ServerName options = EmptyString ->
            Options.ServerName (Client.options client) = default "unknown" hostname)
        /\ (forall tr, custom = Some tr -> Client.transport client = inl tr)
        /\ (custom = None -> exists http, Client.transport client = inr http
                                          /\ HTTPTransport.queue http = []
                                          /\ HTTPTransport.done http = false)).
Proof.
  split.
  - intros Hdsn. unfold NewClient. now rewrite Hdsn.
  - intros Hdsn. unfold NewClient.
    destruct (Options.DSN options) as [|a dsn] eqn:Hd; [congruence |].
    cbn [is_empty_string]. eexists. split; [reflexivity |].
    cbn [Client.options Client.scope Client.transport Options.DSN Options.SampleRate
         Options.MaxBreadcrumbs Options.FlushTimeout Options.ServerName
         Scope.maxBreadcrumbs Scope.with_maxBreadcrumbs].
    split; [reflexivity |]. split; [| split; [| split; [| split; [| split; [| split]]]]].
    + intros Hzero. rewrite Hzero. split; [reflexivity |].
      intros amb message level Hdraw. eexists. split.
      * unfold Client.CaptureMessage.
        apply (CaptureMessageWithContext_sends (H := chosen_Transport pick_queue net sched)).
        cbn [Client.options Options.SampleRate].
        now apply leb_true_ltb_false.
      * reflexivity.
    + intros ->. reflexivity.
    + intros Hne. unfold HTTPTransport.or_default.
      now rewrite (proj2 (Z.eqb_neq _ _) Hne).
    + intros ->. reflexivity.
    + intros ->. reflexivity.
    + intros tr ->. reflexivity.
    + intros ->. eexists. split; [reflexivity |]. split; reflexivity.
Qed.

(** [Init] returns an error and leaves the client in place when the SDK is
    initialized already; it returns an error and sets no client when no DSN
    is given and none is in STATLY_DSN or STATLY_OBSERVE_DSN; otherwise it
    sets a client whose DSN is the given one or else STATLY_DSN or else
    STATLY_OBSERVE_DSN, and whose environment is the given one or else the
    first of STATLY_ENVIRONMENT, GO_ENV and APP_ENV that is set. After a
    [Close] that returns, [Init] works again. *)
Theorem Init_sets_client_once (env : Env) (hostname : option string) (options : Options.t)
    (custom : option T) :
  (forall client : Client.t (T + HTTPTransport.t),
     Init (Some client) env hostname options custom
     = (Some "statly: SDK already initialized, call Close() first", Some client))
  /\ (Options.DSN options = EmptyString -> env "STATLY_DSN" = EmptyString ->
      env "STATLY_OBSERVE_DSN" = EmptyString ->
      Init None env hostname options custom = (Some no_DSN_provided, None))
  /\ (forall dsn : string,
        dsn <> EmptyString ->
        dsn = (if is_empty_string (Options.DSN options)
               then (if is_empty_string (env "STATLY_DSN") then env "STATLY_OBSERVE_DSN"
                     else env "STATLY_DSN")
               else Options.DSN options) ->
        exists client : Client.t (T + HTTPTransport.t),
          Init None env hostname options custom = (None, Some client)
          /\ Options.DSN (Client.options client) = dsn
          /\ Options.Environment (Client.options client)
             = (if is_empty_string (Options.Environment options)
                then (if is_empty_string (env "STATLY_ENVIRONMENT")
                      then (if is_empty_string (env "GO_ENV") then env "APP_ENV"
                            else env "GO_ENV")
                      else env "STATLY_ENVIRONMENT")
                else Options.Environment options))
  /\ (forall g g' : globalClient (T := T + HTTPTransport.t),
        Close (H := chosen_Transport pick_queue net sched) g = Returned g' ->
        Init g' env hostname options custom = Init None env hostname options custom).
Proof.
  split; [reflexivity |]. split; [| split].
  - intros Hdsn H1 H2. unfold Init, loadDSNFromEnv. rewrite Hdsn, H1, H2. reflexivity.
  - intros dsn Hne Hdsn. unfold Init, loadDSNFromEnv, loadEnvironmentFromEnv.
    assert (Hfound : (if is_empty_string (Options.DSN options)
                      then (if negb (is_empty_string (env "STATLY_DSN")) then env "STATLY_DSN"
                            else env "STATLY_OBSERVE_DSN")
                      else Options.DSN options) = dsn).
    { rewrite Hdsn. now destruct (is_empty_string (env "STATLY_DSN")). }
    rewrite Hfound. destruct dsn as [|a dsn]; [congruence |].
    cbn [is_empty_string]. unfold NewClient. cbn [Options.DSN is_empty_string].
    eexists. split; [reflexivity |]. cbn [Client.options Options.DSN Options.Environment].
    split; [reflexivity |].
    destruct (is_empty_string (Options.Environment options)); [| reflexivity].
    destruct (is_empty_string (env "STATLY_ENVIRONMENT")); [| reflexivity].
    now destruct (is_empty_string (env "GO_ENV")).
  - intros g g' Hclose. destruct g as [client|]; cbn in Hclose.
    + destruct (Client.Close client); cbn in Hclose; [| discriminate].
      now injection Hclose as <-.
    + now injection Hclose as <-.
Qed.

(** A negative [MaxBreadcrumbs] is kept as the scope's limit, and then every
    [AddBreadcrumb], on the client or through the package, panics. *)
Theorem negative_MaxBreadcrumbs_makes_AddBreadcrumb_panic (options : Options.t)
    (custom : option T) (hostname : option string) (client : Client.t (T + HTTPTransport.t))
    (now : Time) (crumb : Breadcrumb.t) :
  NewClient options custom hostname = inr client ->
  - 2 ^ 63 <= Options.MaxBreadcrumbs options < 0 ->
  Client.AddBreadcrumb client now crumb = Panicked "slice bounds out of range"
  /\ AddBreadcrumb (Some client) now crumb = Panicked "slice bounds out of range".
Proof.
  intros Hnew Hneg.
  assert (Hadd : Client.AddBreadcrumb client now crumb = Panicked "slice bounds out of range").
  { unfold NewClient in Hnew. destruct (is_empty_string _); [discriminate |].
    injection Hnew as <-. unfold Client.AddBreadcrumb. cbn [Client.scope Options.MaxBreadcrumbs].
    rewrite AddBreadcrumb_negative_limit; [reflexivity | cbn; lia |].
    cbn [Scope.maxBreadcrumbs Scope.with_maxBreadcrumbs]. unfold HTTPTransport.or_default.
    destruct (Options.MaxBreadcrumbs options =? 0)%Z eqn:Hz; [apply Z.eqb_eq in Hz; lia | lia]. }
  split; [exact Hadd |]. unfold AddBreadcrumb. now rewrite Hadd.
Qed.

End ClientLifecycle.

Section ClientQueue.
Import Json Statly.

(** A message captured while the HTTP transport's queue is full is lost:
    the call returns the empty id at once and the client is as it was. So is
    a message that [BeforeSend] answers with nil, which never reaches the
    transport. *)
Theorem CaptureMessage_on_full_queue_returns_empty (pick_queue : bool)
    (net : nat -> Z -> reply) (sched : list wake) (c : Client.t HTTPTransport.t)
    (amb : Ambient) (message : string) (level : Level) :
  PrimFloat.ltb (Options.SampleRate (Client.options c)) (rand_Float64 amb) = false ->
  (Options.BeforeSend (Client.options c) = None ->
   List.length (HTTPTransport.queue (Client.transport c))
   = HTTPTransport.queue_cap (Client.transport c) ->
   Client.CaptureMessage (H := HTTPTransport_Transport pick_queue net sched)
     c amb message level
   = Returned (EmptyString, c))
  /\ (forall before : Event.t -> result (option Event.t),
        Options.BeforeSend (Client.options c) = Some before ->
        (forall ev, before ev = Returned None) ->
        Client.CaptureMessage (H := HTTPTransport_Transport pick_queue net sched)
          c amb message level
        = Returned (EmptyString, c)).
Proof.
  intros Hin. split.
  - intros Hnone Hfull. unfold Client.CaptureMessage.
    rewrite (CaptureMessageWithContext_sends
               (H := HTTPTransport_Transport pick_queue net sched)) by assumption.
    unfold Client.sendEvent. rewrite Hnone. cbn [and_then].
    cbn [Transport.Send HTTPTransport_Transport]. unfold HTTPTransport.Send, chan_full.
    rewrite Hfull, Nat.leb_refl. cbn. now destruct c.
  - intros before Hsome Hdrop. unfold Client.CaptureMessage.
    rewrite (CaptureMessageWithContext_sends
               (H := HTTPTransport_Transport pick_queue net sched)) by assumption.
    unfold Client.sendEvent. rewrite Hsome, Hdrop. reflexivity.
Qed.

End ClientQueue.

(** A client made with the breadcrumb limit -1 over the mock transport
    panics on its first breadcrumb. *)
Lemma AddBreadcrumb_with_limit_minus_one_panics :
  exists client : Statly.Client.t (Statly.MockTransport.t + Statly.HTTPTransport.t),
    Statly.NewClient (Samples.client_options_with_breadcrumbs (-1))
      (Some Statly.MockTransport.NewMockTransport) None = inr client
    /\ Statly.Client.AddBreadcrumb client Samples.now (Samples.crumb "a")
       = Panicked "slice bounds out of range".
Proof.
  eexists. split; [reflexivity |].
  apply (negative_MaxBreadcrumbs_makes_AddBreadcrumb_panic
           (Samples.client_options_with_breadcrumbs (-1))
           (Some Statly.MockTransport.NewMockTransport) None _ Samples.now (Samples.crumb "a")
           eq_refl).
  cbn. lia.
Defined.

(** A message captured while a hundred events wait in the queue is lost. *)
Lemma CaptureMessage_with_hundred_queued_is_lost :
  Statly.Client.CaptureMessage
    (H := Statly.HTTPTransport_Transport true (fun _ => Samples.always 200) [])
    Samples.busy_client (Samples.ambient "Z") "test" Statly.LevelInfo
  = Returned (EmptyString, Samples.busy_client).
Proof.
  apply (proj1 (CaptureMessage_on_full_queue_returns_empty true (fun _ => Samples.always 200) []
                  Samples.busy_client (Samples.ambient "Z") "test" Statly.LevelInfo eq_refl)).
  - reflexivity.
  - vm_compute. reflexivity.
Defined.

(** ** File destination: which rotated files are removed *)

Section FileCleanup.
Import Logger Logger.FileDestination.

Lemma string_take_prefix (p : string) :
  forall s : string,
    string_take (String.length p + 1) s = (p ++ ".")%string ->
    exists rest : string, s = (p ++ "." ++ rest)%string.
Proof.
  induction p as [|a p IH]; intros s Htake.
  - destruct s as [|b s]; [discriminate |]. cbn in Htake.
    injection Htake as Hb. exists s. now rewrite Hb.
  - destruct s as [|b s]; [discriminate |]. cbn in Htake.
    injection Htake as Hb Hrest. destruct (IH s Hrest) as [rest Hs].
    exists rest. cbn. now rewrite Hb, Hs.
Qed.

Lemma is_rotated_name (base name : string) :
  is_rotated base name = true ->
  name <> base /\ exists rest : string, name = (base ++ "." ++ rest)%string.
Proof.
  unfold is_rotated. intros Hrot.
  apply andb_prop in Hrot as [Hrot Htake]. apply andb_prop in Hrot as [Hne _].
  split.
  - intros ->. now rewrite String.eqb_refl in Hne.
  - apply String.eqb_eq in Htake. now apply string_take_prefix.
Qed.

(** [cleanupOldFiles] with a positive [MaxFiles] removes the first rotated
    files of the listing (those named as the log file, a dot and more) and
    keeps exactly the last [MaxFiles] of them, or all when there are no
    more than that; with [MaxFiles] zero or negative it removes nothing.
    What it removes is in the listing and is a rotated file: the log file
    itself and every other file of the directory stay. *)
Theorem cleanupOldFiles_keeps_last_MaxFiles (config : FileConfig.t) (base : string)
    (files : list string) :
  (exists kept : list string,
     List.filter (is_rotated base) files = cleanupOldFiles config base files ++ kept
     /\ Z.of_nat (List.length kept)
        = (if (0 <? FileConfig.MaxFiles config)%Z
           then Z.min (FileConfig.MaxFiles config)
                      (Z.of_nat (List.length (List.filter (is_rotated base) files)))
           else Z.of_nat (List.length (List.filter (is_rotated base) files))))
  /\ Z.of_nat (List.length (cleanupOldFiles config base files))
     = (if (0 <? FileConfig.MaxFiles config)%Z
        then Z.max 0 (Z.of_nat (List.length (List.filter (is_rotated base) files))
                      - FileConfig.MaxFiles config)
        else 0)
  /\ (forall name : string,
        In name (cleanupOldFiles config base files) ->
        In name files /\ name <> base
        /\ exists rest : string, name = (base ++ "." ++ rest)%string).
Proof.
  unfold cleanupOldFiles.
  set (rotatedFiles := List.filter (is_rotated base) files).
  set (maxFiles := FileConfig.MaxFiles config).
  destruct (0 <? maxFiles)%Z eqn:Hpos; cbn [andb].
  - apply Z.ltb_lt in Hpos.
    destruct (maxFiles <? Z.of_nat (List.length rotatedFiles))%Z eqn:Hmore.
    + apply Z.ltb_lt in Hmore. split; [| split].
      * exists (skipn (Z.to_nat (Z.of_nat (List.length rotatedFiles) - maxFiles)) rotatedFiles).
        split; [now rewrite firstn_skipn |]. rewrite length_skipn. lia.
      * rewrite length_firstn. lia.
      * intros name Hin.
        assert (Hrotated : In name rotatedFiles).
        { rewrite <- (firstn_skipn (Z.to_nat (Z.of_nat (List.length rotatedFiles) - maxFiles))
                        rotatedFiles).
          apply in_or_app. now left. }
        apply filter_In in Hrotated as [Hfile Hrot].
        split; [exact Hfile |]. now apply is_rotated_name.
    + apply Z.ltb_ge in Hmore. split; [| split].
      * exists rotatedFiles. split; [reflexivity | lia].
      * cbn. lia.
      * intros name [].
  - split; [| split].
    + exists rotatedFiles. split; [reflexivity | reflexivity].
    + reflexivity.
    + intros name [].
Qed.

End FileCleanup.

(** ** HTTP middleware: request information and the recorded status *)

Section MiddlewareFacts.
Import Json Middleware.
Context `{StringsPkg}.

(** In the information [extractRequestInfo] builds of a request, a header
    whose name in lower case is authorization, cookie, x-api-key or
    x-auth-token has the value [Filtered], whatever the request carries for
    it; every other header has its first value, and is left out when it
    has none. No header is added. *)
Theorem extractRequestInfo_filters_sensitive_headers (r : Request) :
  exists headers : gmap string string,
    extractRequestInfo r !! "headers" = Some (VOther (OStringMap headers))
    /\ (forall (key : string) (values : list string),
          Header r !! key = Some values ->
          ToLower key ∈ sensitiveHeaders ->
          headers !! key = Some "[Filtered]")
    /\ (forall (key : string) (values : list string),
          Header r !! key = Some values ->
          ToLower key ∉ sensitiveHeaders ->
          headers !! key = head values)
    /\ (forall key : string, Header r !! key = None -> headers !! key = None)
    /\ extractRequestInfo r !! "method" = Some (VString (Method r))
    /\ extractRequestInfo r !! "url" = Some (VString (URL_String r))
    /\ extractRequestInfo r !! "remote_addr" = Some (VString (RemoteAddr r)).
Proof.
  exists (map_imap sanitize (Header r)).
  split; [unfold extractRequestInfo; now rewrite lookup_insert_eq |].
  split; [| split; [| split]].
  - intros key values Hkey Hsens. rewrite map_lookup_imap, Hkey. cbn.
    unfold sanitize. now rewrite bool_decide_eq_true_2.
  - intros key values Hkey Hsens. rewrite map_lookup_imap, Hkey. cbn.
    unfold sanitize. rewrite bool_decide_eq_false_2 by assumption.
    now destruct values.
  - intros key Hkey. now rewrite map_lookup_imap, Hkey.
  - unfold extractRequestInfo. repeat split; reflexivity.
Qed.

Lemma serve_written (calls : list call) :
  forall w : responseWriter,
    written w = true ->
    statusCode (serve w calls) = statusCode w
    /\ written (serve w calls) = true
    /\ ResponseWriter (serve w calls) = ResponseWriter w ++ calls.
Proof.
  induction calls as [|c calls IH]; intros w Hw.
  - cbn. rewrite app_nil_r. auto.
  - cbn [serve fold_left]. destruct c as [code|b].
    + destruct (IH (WriteHeader w code) eq_refl) as (Hs & Hwr & Hrw).
      unfold serve in *. rewrite Hs, Hwr, Hrw. cbn. rewrite Hw, <- app_assoc. auto.
    + destruct (IH (Write w b) eq_refl) as (Hs & Hwr & Hrw).
      unfold serve in *. rewrite Hs, Hwr, Hrw. cbn. rewrite <- app_assoc. auto.
Qed.

(** The wrapped writer [RequestLogger] hands to the next handler passes
    every call on, in order, and records the status of the handler's first
    call: the code of a [WriteHeader], 200 for a [Write] and for no call at
    all. A later [WriteHeader] changes nothing, so the response breadcrumb
    has the level error exactly when the first call is a [WriteHeader] with
    a code of 400 or more. *)
Theorem responseWriter_records_first_status (calls : list call) :
  ResponseWriter (serve wrap calls) = calls
  /\ statusCode (serve wrap calls)
     = match calls with
       | WriteHeader_ code :: _ => code
       | _ => StatusOK
       end
  /\ (response_level (serve wrap calls) = Statly.LevelError
      <-> exists (code : Z) (rest : list call),
            calls = WriteHeader_ code :: rest /\ 400 <= code).
Proof.
  assert (Hstatus : statusCode (serve wrap calls)
                    = match calls with
                      | WriteHeader_ code :: _ => code
                      | _ => StatusOK
                      end
                    /\ ResponseWriter (serve wrap calls) = calls).
  { destruct calls as [|[code|b] calls]; [split; reflexivity | |].
    - destruct (serve_written calls (WriteHeader wrap code) eq_refl) as (Hs & _ & Hrw).
      cbn [serve fold_left] in *. unfold serve in *. rewrite Hs, Hrw. split; reflexivity.
    - destruct (serve_written calls (Write wrap b) eq_refl) as (Hs & _ & Hrw).
      cbn [serve fold_left] in *. unfold serve in *. rewrite Hs, Hrw. split; reflexivity. }
  destruct Hstatus as [Hstatus Hcalls].
  split; [exact Hcalls |]. split; [exact Hstatus |].
  unfold response_level. rewrite Hstatus. split.
  - destruct calls as [|[code|b] calls]; cbn; try discriminate.
    destruct (400 <=? code)%Z eqn:Hcode; [| discriminate].
    intros _. exists code, calls. split; [reflexivity |]. now apply Z.leb_le.
  - intros (code & rest & -> & Hcode). now rewrite (proj2 (Z.leb_le _ _) Hcode).
Qed.

End MiddlewareFacts.

(** A directory with three rotated files and [MaxFiles] two: the oldest
    rotated file is removed; the log file and the file of another name
    stay. *)
Lemma cleanupOldFiles_removes_oldest_of_three :
  Logger.FileDestination.cleanupOldFiles Samples.file_config "app.log"
    ["app.log"; "app.log.2026-01-01"; "app.log.2026-01-02"; "app.log.2026-01-03";
     "app.login"]
  = ["app.log.2026-01-01"]
  /\ exists kept : list string,
       List.filter (Logger.FileDestination.is_rotated "app.log")
         ["app.log"; "app.log.2026-01-01"; "app.log.2026-01-02"; "app.log.2026-01-03";
          "app.login"]
       = Logger.FileDestination.cleanupOldFiles Samples.file_config "app.log"
           ["app.log"; "app.log.2026-01-01"; "app.log.2026-01-02"; "app.log.2026-01-03";
            "app.login"] ++ kept
       /\ Z.of_nat (List.length kept) = 2.
Proof.
  split; [vm_compute; reflexivity |].
  destruct (proj1 (cleanupOldFiles_keeps_last_MaxFiles Samples.file_config "app.log"
                     ["app.log"; "app.log.2026-01-01"; "app.log.2026-01-02";
                      "app.log.2026-01-03"; "app.login"]))
    as (kept & Hkept & Hlen).
  exists kept. split; [exact Hkept | exact Hlen].
Defined.
